(** * planka-mcp: the API client, the schemas and the aggregation operations

    A shallow embedding of the TypeScript sources
    (client.ts, errors.ts, schemas/*.ts, operations/*.ts, tools/*.ts)
    and the properties of the specification proved about it. *)

From Stdlib Require Import ZArith QArith Lia Lqa.
From stdpp Require Import base option list sorting strings pretty gmap.

Local Open Scope Z_scope.
Local Open Scope string_scope.

(** ** JavaScript values *)

(** A number of a payload.  [JSON.parse] gives a finite double, taken as
    the rational it is (the code compares numbers and adds the constant
    65536 to them, which the rationals do as the doubles do), or an
    infinity, for a literal beyond the range of the doubles such as [1e999];
    it never gives NaN, and [z.number()] accepts the infinities and rejects
    NaN. *)
Inductive Number :=
  | Finite (q : Q)
  | Infinity
  | MinusInfinity.

Coercion Finite : Q >-> Number.
Bind Scope Q_scope with Number.

(** A JSON value as [JSON.parse] delivers it.  An object is the list of its
    key/value pairs, each key once in the objects that [JSON.parse] and the
    object literals of the code give; [assoc] reads the value of a key.
    [undefined] is the [None] of [option Json]. *)
#[warnings="-register-all"]
Inductive Json : Type :=
  | JNull
  | JBool (b : bool)
  | JNum (n : Number)
  | JStr (s : string)
  | JArr (items : list Json)
  | JObj (fields : list (string * Json)).

Definition Value := option Json.

Fixpoint assoc {A} (k : string) (o : list (string * A)) : option A :=
  match o with
  | [] => None
  | (k', v) :: o' => if String.eqb k k' then Some v else assoc k o'
  end.

(** [!v] is [false]: what [||], [&&] and [if] test. *)
Definition truthy (v : Value) : bool :=
  match v with
  | None | Some JNull => false
  | Some (JBool b) => b
  | Some (JNum (Finite n)) => negb (Qeq_bool n 0)
  | Some (JNum _) => true
  | Some (JStr s) => negb (String.eqb s "")
  | Some (JArr _) | Some (JObj _) => true
  end.

Definition truthy_str (s : option string) : bool :=
  match s with
  | Some s => negb (String.eqb s "")
  | None => false
  end.

(** [s.includes(sub)] *)
Fixpoint includes (sub s : string) : bool :=
  String.prefix sub s ||
  match s with
  | EmptyString => false
  | String _ s' => includes sub s'
  end.

(** ** Errors (errors.ts) *)

Inductive ErrName :=
  | PlankaError | PlankaAuthError | PlankaNotFoundError | PlankaValidationError
  | PlankaPermissionError | PlankaConfigError | PlankaNetworkError
  | ZodError | SyntaxError | TypeError | DOMException.

(** An error object: its class, its message and, for the classes of
    errors.ts, the [code] and [status] the constructor fixes. *)
Record Err := mkErr {
  err_name : ErrName;
  message : string;
  code_status : option (string * Z);
}.

Definition newPlankaError (msg code : string) (status : Z) : Err :=
  mkErr PlankaError msg (Some (code, status)).
Definition newPlankaAuthError (msg : string) : Err :=
  mkErr PlankaAuthError msg (Some ("AUTH_FAILED", 401)).
Definition newPlankaNotFoundError (resource id : string) : Err :=
  mkErr PlankaNotFoundError (resource +:+ " not found: " +:+ id)
    (Some ("NOT_FOUND", 404)).
Definition newPlankaValidationError (msg : string) : Err :=
  mkErr PlankaValidationError msg (Some ("VALIDATION_ERROR", 422)).
Definition newPlankaPermissionError (msg : string) : Err :=
  mkErr PlankaPermissionError msg (Some ("PERMISSION_DENIED", 403)).
Definition newPlankaConfigError (msg : string) : Err :=
  mkErr PlankaConfigError msg (Some ("CONFIG_ERROR", 0)).
Definition newPlankaNetworkError (msg : string) : Err :=
  mkErr PlankaNetworkError msg (Some ("NETWORK_ERROR", 0)).

(** [error instanceof PlankaError] ([isPlankaError]): the classes of
    errors.ts all extend [PlankaError]; the errors of zod, of [JSON.parse],
    of the language and of the platform (a DOMException is the reason of an
    abort) do not. *)
Definition isPlankaError (error : Err) : bool :=
  match err_name error with
  | ZodError | SyntaxError | TypeError | DOMException => false
  | _ => true
  end.

Inductive Res (A : Type) : Type :=
  | Ok (a : A)
  | Throw (e : Err).
Arguments Ok {A} a.
Arguments Throw {A} e.

(** ** A state and exception monad for the asynchronous code

    Every [await] is a sequencing point; a rejected promise is [Throw]. *)
Definition M (S A : Type) : Type := S → Res A * S.

Definition ret {S A} (a : A) : M S A := λ s, (Ok a, s).
Definition throw {S A} (e : Err) : M S A := λ s, (Throw e, s).
Definition bind {S A B} (m : M S A) (k : A → M S B) : M S B :=
  λ s, match m s with
       | (Ok a, s') => k a s'
       | (Throw e, s') => (Throw e, s')
       end.
(** [try { m } catch (error) { h error }] *)
Definition try_catch {S A} (m : M S A) (h : Err → M S A) : M S A :=
  λ s, match m s with
       | (Ok a, s') => (Ok a, s')
       | (Throw e, s') => h e s'
       end.
Definition get_state {S} : M S S := λ s, (Ok s, s).
Definition modify {S} (f : S → S) : M S unit := λ s, (Ok tt, f s).

Declare Scope async_scope.
Delimit Scope async_scope with async.
Notation "'let*' x := m 'in' k" := (bind m (λ x, k))
  (at level 10, x name, m at level 100, k at level 200) : async_scope.
Notation "m ;;; k" := (bind m (λ _, k))
  (at level 100, k at level 200, right associativity) : async_scope.
Local Open Scope async_scope.

(** [for (const x of xs) { await body x }] *)
Fixpoint for_of {S A} (xs : list A) (body : A → M S unit) : M S unit :=
  match xs with
  | [] => ret tt
  | x :: xs' => body x ;;; for_of xs' body
  end.

(** ** Array.prototype.sort

    The comparator returns a number: negative puts [a] first, positive puts
    [b] first, zero and NaN keep the given order (the sort is stable). *)
Inductive Num :=
  | Fin (n : Q)
  | PosInf
  | NegInf
  | NaN.

(** [a - b] on numbers *)
Definition num_sub (a b : Num) : Num :=
  match a, b with
  | Fin x, Fin y => Fin (x - y)%Q
  | NaN, _ | _, NaN => NaN
  | PosInf, PosInf | NegInf, NegInf => NaN
  | PosInf, _ => PosInf
  | NegInf, _ => NegInf
  | Fin _, PosInf => NegInf
  | Fin _, NegInf => PosInf
  end.

Definition positive_num (v : Num) : bool :=
  match v with
  | Fin n => negb (Qle_bool n 0)
  | PosInf => true
  | NegInf | NaN => false
  end.

(** A number of a payload as an operand. *)
Definition num_of (n : Number) : Num :=
  match n with
  | Finite q => Fin q
  | Infinity => PosInf
  | MinusInfinity => NegInf
  end.

Section sort.
Context {A : Type} (cmp : A → A → Num).

(** [x] goes behind every leading [y] that the comparator puts first. *)
Fixpoint sort_insert (x : A) (l : list A) : list A :=
  match l with
  | [] => [x]
  | y :: l' =>
      if positive_num (cmp x y) then y :: sort_insert x l' else x :: y :: l'
  end.

Definition sort (l : list A) : list A := foldr sort_insert [] l.
End sort.

(** ** zod

    A schema takes the value found ([None] is [undefined]) and gives the
    parsed value, or [None] where [parse] throws a ZodError. *)
Definition Schema (A : Type) : Type := Value → option A.

Definition z_any : Schema Value := λ v, Some v.
Definition z_string : Schema string :=
  λ v, match v with Some (JStr s) => Some s | _ => None end.
Definition z_number : Schema Number :=
  λ v, match v with Some (JNum n) => Some n | _ => None end.
Definition z_boolean : Schema bool :=
  λ v, match v with Some (JBool b) => Some b | _ => None end.
(** [z.string().min(1)] *)
Definition z_string_min1 : Schema string :=
  λ v, s ← z_string v; if String.eqb s "" then None else Some s.
Definition z_enum (values : list string) : Schema string :=
  λ v, s ← z_string v; if bool_decide (s ∈ values) then Some s else None.
Definition z_optional {A} (sch : Schema A) : Schema (option A) :=
  λ v, match v with None => Some None | _ => Some <$> sch v end.
Definition z_nullable {A} (sch : Schema A) : Schema (option A) :=
  λ v, match v with Some JNull => Some None | _ => Some <$> sch v end.
(** [sch.optional().default(d)] *)
Definition z_default {A} (sch : Schema A) (d : A) : Schema A :=
  λ v, match v with None => Some d | _ => sch v end.
Definition z_array {A} (sch : Schema A) : Schema (list A) :=
  λ v, match v with
       | Some (JArr items) => mapM (λ x, sch (Some x)) items
       | _ => None
       end.
(** [z.object({...})]: the argument parses the fields it declares. *)
Definition z_object {A} (shape : list (string * Json) → option A) : Schema A :=
  λ v, match v with Some (JObj o) => shape o | _ => None end.
(** [z.record(z.any())] *)
Definition z_record_any : Schema (list (string * Json)) := z_object Some.

(** [included || {}] *)
Definition or_empty_object (v : Value) : Value :=
  if truthy v then v else Some (JObj []).

(** *** schemas/entities.ts *)

Inductive CardType := project | story.

Definition CardTypeSchema : Schema CardType :=
  λ v, s ← z_enum ["project"; "story"] v;
       Some (if String.eqb s "project" then project else story).

Definition LabelColors : list string :=
  [ "berry-red"; "pumpkin-orange"; "lagoon-blue"; "pink-tulip"; "light-mud";
    "orange-peel"; "bright-moss"; "antique-blue"; "dark-granite";
    "lagune-blue"; "sunny-grass"; "morning-sky"; "light-orange";
    "midnight-blue"; "tank-green"; "gun-metal"; "wet-moss"; "red-burgundy";
    "light-concrete"; "apricot-red"; "desert-sand"; "navy-blue"; "egg-yellow";
    "coral-green"; "light-cocoa"; "modern-green"; "piggy-red" ].

Definition LabelColorSchema : Schema string := z_enum LabelColors.

(** The time stamps every entity carries. *)
Record Stamps := mkStamps {
  createdAt : string;
  updatedAt : option (option string);
}.

Definition stamps (o : list (string * Json)) : option Stamps :=
  c ← z_string (assoc "createdAt" o);
  u ← z_optional (z_nullable z_string) (assoc "updatedAt" o);
  Some (mkStamps c u).

Module User.
Record t := mk {
  id : string;
  email : option string;
  username : option string;
  name : string;
  avatarUrl : option (option string);
  at_ : Stamps;
}.
End User.

Module Project.
Record t := mk {
  id : string;
  name : string;
  background : option (option string);
  backgroundImage : option (option string);
  at_ : Stamps;
}.
End Project.

Module Board.
Record t := mk {
  id : string;
  projectId : string;
  name : string;
  position : Number;
  at_ : Stamps;
}.
End Board.

(** [List] of the source *)
Module BList.
Record t := mk {
  id : string;
  boardId : string;
  name : option string;
  position : option Number;
  at_ : Stamps;
}.
End BList.

Module Card.
Record t := mk {
  id : string;
  boardId : string;
  listId : string;
  creatorUserId : option string;
  name : string;
  description : option (option string);
  position : Number;
  type : CardType;
  dueDate : option (option string);
  isDueDateCompleted : option bool;
  isCompleted : option bool;
  at_ : Stamps;
}.
End Card.

Module TaskList.
Record t := mk {
  id : string;
  cardId : string;
  name : string;
  position : Number;
  showOnFrontOfCard : option bool;
  at_ : Stamps;
}.
End TaskList.

Module Task.
Record t := mk {
  id : string;
  taskListId : string;
  name : string;
  position : Number;
  isCompleted : bool;
  assigneeUserId : option (option string);
  at_ : Stamps;
}.
End Task.

Module Label.
Record t := mk {
  id : string;
  boardId : string;
  name : option string;
  color : string;
  position : Number;
  at_ : Stamps;
}.
End Label.

Module CardLabel.
Record t := mk {
  id : string;
  cardId : string;
  labelId : string;
  at_ : Stamps;
}.
End CardLabel.

Module Comment.
Record t := mk {
  id : string;
  cardId : string;
  userId : string;
  text : string;
  at_ : Stamps;
}.
End Comment.

Module Attachment.
Record t := mk {
  id : string;
  cardId : string;
  creatorUserId : option string;
  name : string;
  url : option string;
  at_ : Stamps;
}.
End Attachment.

Notation "o .[ k ]" := (assoc k o) (at level 1, format "o .[ k ]").

Section schemas.
(** [z.string().email()]: zod's test of the e-mail syntax *)
Context (is_email : string → bool).

Definition UserSchema : Schema User.t := z_object (λ o,
  id ← z_string o.["id"];
  email ← z_optional (λ v, s ← z_string v;
                           if is_email s then Some s else None) o.["email"];
  username ← z_optional z_string o.["username"];
  name ← z_string o.["name"];
  avatarUrl ← z_optional (z_nullable z_string) o.["avatarUrl"];
  at_ ← stamps o;
  Some (User.mk id email username name avatarUrl at_)).

Definition ProjectSchema : Schema Project.t := z_object (λ o,
  id ← z_string o.["id"];
  name ← z_string o.["name"];
  background ← z_optional (z_nullable z_string) o.["background"];
  backgroundImage ← z_optional (z_nullable z_string) o.["backgroundImage"];
  at_ ← stamps o;
  Some (Project.mk id name background backgroundImage at_)).

Definition BoardSchema : Schema Board.t := z_object (λ o,
  id ← z_string o.["id"];
  projectId ← z_string o.["projectId"];
  name ← z_string o.["name"];
  position ← z_number o.["position"];
  at_ ← stamps o;
  Some (Board.mk id projectId name position at_)).

Definition ListSchema : Schema BList.t := z_object (λ o,
  id ← z_string o.["id"];
  boardId ← z_string o.["boardId"];
  name ← z_nullable z_string o.["name"];
  position ← z_nullable z_number o.["position"];
  at_ ← stamps o;
  Some (BList.mk id boardId name position at_)).

Definition CardSchema : Schema Card.t := z_object (λ o,
  id ← z_string o.["id"];
  boardId ← z_string o.["boardId"];
  listId ← z_string o.["listId"];
  creatorUserId ← z_optional z_string o.["creatorUserId"];
  name ← z_string o.["name"];
  description ← z_optional (z_nullable z_string) o.["description"];
  position ← z_number o.["position"];
  type ← CardTypeSchema o.["type"];
  dueDate ← z_optional (z_nullable z_string) o.["dueDate"];
  isDueDateCompleted ← z_optional z_boolean o.["isDueDateCompleted"];
  isCompleted ← z_optional z_boolean o.["isCompleted"];
  at_ ← stamps o;
  Some (Card.mk id boardId listId creatorUserId name description position
          type dueDate isDueDateCompleted isCompleted at_)).

Definition TaskListSchema : Schema TaskList.t := z_object (λ o,
  id ← z_string o.["id"];
  cardId ← z_string o.["cardId"];
  name ← z_string o.["name"];
  position ← z_number o.["position"];
  showOnFrontOfCard ← z_optional z_boolean o.["showOnFrontOfCard"];
  at_ ← stamps o;
  Some (TaskList.mk id cardId name position showOnFrontOfCard at_)).

Definition TaskSchema : Schema Task.t := z_object (λ o,
  id ← z_string o.["id"];
  taskListId ← z_string o.["taskListId"];
  name ← z_string o.["name"];
  position ← z_number o.["position"];
  isCompleted ← z_boolean o.["isCompleted"];
  assigneeUserId ← z_optional (z_nullable z_string) o.["assigneeUserId"];
  at_ ← stamps o;
  Some (Task.mk id taskListId name position isCompleted assigneeUserId at_)).

(** The colour of a label that is read is any string. *)
Definition LabelSchema : Schema Label.t := z_object (λ o,
  id ← z_string o.["id"];
  boardId ← z_string o.["boardId"];
  name ← z_nullable z_string o.["name"];
  color ← z_string o.["color"];
  position ← z_number o.["position"];
  at_ ← stamps o;
  Some (Label.mk id boardId name color position at_)).

Definition CardLabelSchema : Schema CardLabel.t := z_object (λ o,
  id ← z_string o.["id"];
  cardId ← z_string o.["cardId"];
  labelId ← z_string o.["labelId"];
  at_ ← stamps o;
  Some (CardLabel.mk id cardId labelId at_)).

Definition CommentSchema : Schema Comment.t := z_object (λ o,
  id ← z_string o.["id"];
  cardId ← z_string o.["cardId"];
  userId ← z_string o.["userId"];
  text ← z_string o.["text"];
  at_ ← stamps o;
  Some (Comment.mk id cardId userId text at_)).

Definition AttachmentSchema : Schema Attachment.t := z_object (λ o,
  id ← z_string o.["id"];
  cardId ← z_string o.["cardId"];
  creatorUserId ← z_optional z_string o.["creatorUserId"];
  name ← z_string o.["name"];
  url ← z_optional z_string o.["url"];
  at_ ← stamps o;
  Some (Attachment.mk id cardId creatorUserId name url at_)).

(** *** schemas/responses.ts *)

Definition SingleItemResponse {A} (itemSchema : Schema A) : Schema A :=
  z_object (λ o,
    item ← itemSchema o.["item"];
    _ ← z_optional z_record_any o.["included"];
    Some item).

Definition MultiItemResponse {A} (itemSchema : Schema A) : Schema (list A) :=
  z_object (λ o,
    items ← z_array itemSchema o.["items"];
    _ ← z_optional z_record_any o.["included"];
    Some items).

Definition ProjectsResponse := MultiItemResponse ProjectSchema.
Definition BoardResponse := SingleItemResponse BoardSchema.
Definition ListResponse := SingleItemResponse ListSchema.
Definition CardResponse := SingleItemResponse CardSchema.
Definition TaskListResponse := SingleItemResponse TaskListSchema.
Definition TaskResponse := SingleItemResponse TaskSchema.
Definition LabelResponse := SingleItemResponse LabelSchema.
Definition CardLabelResponse := SingleItemResponse CardLabelSchema.

Definition CommentResponse := SingleItemResponse CommentSchema.

Definition AuthResponse : Schema string :=
  z_object (λ o, z_string o.["item"]).

Record BoardIncluded := mkBoardIncluded {
  bi_lists : option (list BList.t);
  bi_cards : option (list Card.t);
  bi_labels : option (list Label.t);
  bi_cardLabels : option (list CardLabel.t);
  bi_taskLists : option (list TaskList.t);
  bi_tasks : option (list Task.t);
  bi_users : option (list User.t);
}.

Definition BoardIncludedSchema : Schema BoardIncluded := z_object (λ o,
  lists ← z_optional (z_array ListSchema) o.["lists"];
  cards ← z_optional (z_array CardSchema) o.["cards"];
  labels ← z_optional (z_array LabelSchema) o.["labels"];
  cardLabels ← z_optional (z_array CardLabelSchema) o.["cardLabels"];
  taskLists ← z_optional (z_array TaskListSchema) o.["taskLists"];
  tasks ← z_optional (z_array TaskSchema) o.["tasks"];
  users ← z_optional (z_array UserSchema) o.["users"];
  Some (mkBoardIncluded lists cards labels cardLabels taskLists tasks users)).

Record CardIncluded := mkCardIncluded {
  ci_taskLists : option (list TaskList.t);
  ci_tasks : option (list Task.t);
  ci_comments : option (list Comment.t);
  ci_labels : option (list Label.t);
  ci_cardLabels : option (list CardLabel.t);
  ci_attachments : option (list Attachment.t);
  ci_users : option (list User.t);
}.

Definition CardIncludedSchema : Schema CardIncluded := z_object (λ o,
  taskLists ← z_optional (z_array TaskListSchema) o.["taskLists"];
  tasks ← z_optional (z_array TaskSchema) o.["tasks"];
  comments ← z_optional (z_array CommentSchema) o.["comments"];
  labels ← z_optional (z_array LabelSchema) o.["labels"];
  cardLabels ← z_optional (z_array CardLabelSchema) o.["cardLabels"];
  attachments ← z_optional (z_array AttachmentSchema) o.["attachments"];
  users ← z_optional (z_array UserSchema) o.["users"];
  Some (mkCardIncluded taskLists tasks comments labels cardLabels
          attachments users)).

Record ProjectsIncluded := mkProjectsIncluded {
  pi_boards : option (list Board.t);
  pi_users : option (list User.t);
}.

Definition ProjectsIncludedSchema : Schema ProjectsIncluded :=
  z_object (λ o,
    boards ← z_optional (z_array BoardSchema) o.["boards"];
    users ← z_optional (z_array UserSchema) o.["users"];
    Some (mkProjectsIncluded boards users)).
End schemas.

(** *** schemas/requests.ts *)

Record CreateCard := mkCreateCard {
  cc_listId : string;
  cc_name : string;
  cc_description : option string;
  cc_position : Number;
  cc_type : CardType;
  cc_dueDate : option string;
}.

Definition CreateCardSchema : Schema CreateCard := z_object (λ o,
  listId ← z_string o.["listId"];
  name ← z_string_min1 o.["name"];
  description ← z_optional z_string o.["description"];
  position ← z_default z_number 65536%Q o.["position"];
  type ← z_default CardTypeSchema project o.["type"];
  dueDate ← z_optional z_string o.["dueDate"];
  Some (mkCreateCard listId name description position type dueDate)).

Record CreateTask := mkCreateTask {
  ct_cardId : string;
  ct_name : string;
  ct_position : Number;
}.

Definition CreateTaskSchema : Schema CreateTask := z_object (λ o,
  cardId ← z_string o.["cardId"];
  name ← z_string_min1 o.["name"];
  position ← z_default z_number 65536%Q o.["position"];
  Some (mkCreateTask cardId name position)).

Record TaskInput := mkTaskInput {
  ti_name : string;
  ti_position : option Number;
}.

Record BatchCreateTasks := mkBatchCreateTasks {
  bt_cardId : string;
  bt_tasks : list TaskInput;
}.

Definition BatchCreateTasksSchema : Schema BatchCreateTasks := z_object (λ o,
  cardId ← z_string o.["cardId"];
  tasks ← z_array (z_object (λ t,
             name ← z_string_min1 t.["name"];
             position ← z_optional z_number t.["position"];
             Some (mkTaskInput name position))) o.["tasks"];
  Some (mkBatchCreateTasks cardId tasks)).

Record CreateLabel := mkCreateLabel {
  cl_boardId : string;
  cl_name : string;
  cl_color : string;
  cl_position : Number;
}.

Definition CreateLabelSchema : Schema CreateLabel := z_object (λ o,
  boardId ← z_string o.["boardId"];
  name ← z_string_min1 o.["name"];
  color ← LabelColorSchema o.["color"];
  position ← z_default z_number 65536%Q o.["position"];
  Some (mkCreateLabel boardId name color position)).

Record UpdateLabel := mkUpdateLabel {
  ul_name : option string;
  ul_color : option string;
  ul_position : option Number;
}.

Definition UpdateLabelSchema : Schema UpdateLabel := z_object (λ o,
  name ← z_optional z_string_min1 o.["name"];
  color ← z_optional LabelColorSchema o.["color"];
  position ← z_optional z_number o.["position"];
  Some (mkUpdateLabel name color position)).

Record AddLabelToCard := mkAddLabelToCard {
  al_cardId : string;
  al_labelId : string;
}.

Definition AddLabelToCardSchema : Schema AddLabelToCard := z_object (λ o,
  cardId ← z_string o.["cardId"];
  labelId ← z_string o.["labelId"];
  Some (mkAddLabelToCard cardId labelId)).

Record UpdateCard := mkUpdateCard {
  uc_name : option string;
  uc_description : option (option string);
  uc_dueDate : option (option string);
  uc_isCompleted : option bool;
  uc_listId : option string;
  uc_boardId : option string;
  uc_position : option Number;
}.

Definition UpdateCardSchema : Schema UpdateCard := z_object (λ o,
  name ← z_optional z_string_min1 o.["name"];
  description ← z_optional (z_nullable z_string) o.["description"];
  dueDate ← z_optional (z_nullable z_string) o.["dueDate"];
  isCompleted ← z_optional z_boolean o.["isCompleted"];
  listId ← z_optional z_string o.["listId"];
  boardId ← z_optional z_string o.["boardId"];
  position ← z_optional z_number o.["position"];
  Some (mkUpdateCard name description dueDate isCompleted listId boardId
          position)).

Record MoveCard := mkMoveCard {
  mc_cardId : string;
  mc_listId : string;
  mc_position : Number;
  mc_boardId : option string;
}.

Definition MoveCardSchema : Schema MoveCard := z_object (λ o,
  cardId ← z_string o.["cardId"];
  listId ← z_string o.["listId"];
  position ← z_default z_number 65536%Q o.["position"];
  boardId ← z_optional z_string o.["boardId"];
  Some (mkMoveCard cardId listId position boardId)).

Record UpdateTask := mkUpdateTask {
  ut_name : option string;
  ut_isCompleted : option bool;
  ut_position : option Number;
}.

Definition UpdateTaskSchema : Schema UpdateTask := z_object (λ o,
  name ← z_optional z_string_min1 o.["name"];
  isCompleted ← z_optional z_boolean o.["isCompleted"];
  position ← z_optional z_number o.["position"];
  Some (mkUpdateTask name isCompleted position)).

Record CreateComment := mkCreateComment {
  cco_cardId : string;
  cco_text : string;
}.

Definition CreateCommentSchema : Schema CreateComment := z_object (λ o,
  cardId ← z_string o.["cardId"];
  text ← z_string_min1 o.["text"];
  Some (mkCreateComment cardId text)).

Definition UpdateCommentSchema : Schema string :=
  z_object (λ o, z_string_min1 o.["text"]).

Record CreateList := mkCreateList {
  cls_boardId : string;
  cls_name : string;
  cls_position : option Number;
}.

Definition CreateListSchema : Schema CreateList := z_object (λ o,
  boardId ← z_string o.["boardId"];
  name ← z_string_min1 o.["name"];
  position ← z_optional z_number o.["position"];
  Some (mkCreateList boardId name position)).

Record UpdateList := mkUpdateList {
  uls_name : option string;
  uls_position : option Number;
}.

Definition UpdateListSchema : Schema UpdateList := z_object (λ o,
  name ← z_optional z_string_min1 o.["name"];
  position ← z_optional z_number o.["position"];
  Some (mkUpdateList name position)).

(** ** Object literals

    A field whose value is [undefined] is left out, as [JSON.stringify]
    leaves it out of the request body. *)
Definition obj (fields : list (string * Value)) : Json :=
  JObj (omap (λ kv, pair kv.1 <$> kv.2) fields).

Definition str (s : string) : Value := Some (JStr s).
Definition num (n : Number) : Value := Some (JNum n).
Definition CardType_str (t : CardType) : string :=
  match t with project => "project" | story => "story" end.

(** ** The operations (operations/*.ts)

    The operations reach the service through [plankaClient] only.  A call
    through [get], [post], [patch] or [delete] is a [Req]; [sent] records
    the calls in the order they are made. *)
Inductive Method := GET | POST | PATCH | DELETE.

Record Req := mkReq {
  method : Method;
  path : string;
  body : Value;
}.

Record Sys (W : Type) := mkSys {
  remote : W;
  sent : list Req;
}.
Arguments mkSys {W} remote sent.
Arguments remote {W} s.
Arguments sent {W} s.

Record CardDetails := mkCardDetails {
  cd_card : Card.t;
  cd_taskLists : list TaskList.t;
  cd_tasks : list Task.t;
  cd_comments : list Comment.t;
  cd_labels : list Label.t;
  cd_cardLabels : list CardLabel.t;
  cd_attachments : list Attachment.t;
}.

Record BoardDetails := mkBoardDetails {
  bd_board : Board.t;
  bd_lists : list BList.t;
  bd_cards : list Card.t;
  bd_labels : list Label.t;
  bd_cardLabels : list CardLabel.t;
  bd_taskLists : list TaskList.t;
  bd_tasks : list Task.t;
}.

(** [{ ...card, taskCount, completedTaskCount }] *)
Record CardWithTaskCounts := mkCardWithTaskCounts {
  cw_card : Card.t;
  taskCount : nat;
  completedTaskCount : nat;
}.

Record BoardWithTaskCounts := mkBoardWithTaskCounts {
  bw_board : Board.t;
  bw_lists : list BList.t;
  bw_cards : list CardWithTaskCounts;
  bw_labels : list Label.t;
  bw_cardLabels : list CardLabel.t;
}.

Record Counts := mkCounts {
  total : nat;
  completed : nat;
}.

Record ProjectStructure := mkProjectStructure {
  ps_project : Project.t;
  ps_boards : list (Board.t * list BList.t);
}.

(** [(a, b) => key(a) - key(b)] *)
Definition ascending {A} (key : A → Num) : A → A → Num :=
  λ a b, num_sub (key a) (key b).

(** [position ?? d] *)
Definition position_or (d : Num) (p : option Number) : Num :=
  match p with Some n => num_of n | None => d end.

(** The map from the id of a task list to the id of its card. *)
Definition taskListToCard (taskLists : list TaskList.t) : gmap string string :=
  foldl (λ m taskList, <[TaskList.id taskList := TaskList.cardId taskList]> m)
    ∅ taskLists.

(** One turn of the loop over [details.tasks]. *)
Definition count_task (toCard : gmap string string)
    (byCard : gmap string Counts) (task : Task.t) : gmap string Counts :=
  match toCard !! Task.taskListId task with
  | None => byCard
  | Some cardId =>
      if String.eqb cardId "" then byCard
      else
        let counts := default (mkCounts 0 0) (byCard !! cardId) in
        <[cardId := mkCounts (S (total counts))
                      (if Task.isCompleted task then S (completed counts)
                       else completed counts)]> byCard
  end.

Definition taskCountsByCard (toCard : gmap string string)
    (tasks : list Task.t) : gmap string Counts :=
  foldl (count_task toCard) ∅ tasks.

Definition with_counts (byCard : gmap string Counts) (card : Card.t)
    : CardWithTaskCounts :=
  let counts := default (mkCounts 0 0) (byCard !! Card.id card) in
  mkCardWithTaskCounts card (total counts) (completed counts).

Definition DEFAULT_TASK_LIST_NAME : string := "Tasks".

Section operations.
Context {W : Type}.
(** [plankaClient]: what a call returns (the parsed body, [undefined]
    after a 204) or throws, and the state it leaves client and service in. *)
Context (client : Req → W → Res Value * W).
(** [z.string().email()], [new Date(s).getTime()] and the message of the
    ZodError that a schema throws on a value. *)
Context (is_email : string → bool).
Context (getTime : string → Num).
Context (zod_message : string → Value → string).

Abbreviation Async := (M (Sys W)).

Definition through_client (r : Req) : Async Value :=
  λ s, let '(res, w) := client r (remote s) in
       (res, mkSys w (sent s ++ [r])%list).

Definition client_get (path : string) : Async Value :=
  through_client (mkReq GET path None).
Definition client_post (path : string) (body : Json) : Async Value :=
  through_client (mkReq POST path (Some body)).
Definition client_patch (path : string) (body : Json) : Async Value :=
  through_client (mkReq PATCH path (Some body)).
Definition client_delete (path : string) : Async unit :=
  through_client (mkReq DELETE path None) ;;; ret tt.

(** [schema.parse(v)] *)
Definition parse {A} (name : string) (schema : Schema A) (v : Value)
    : Async A :=
  match schema v with
  | Some a => ret a
  | None => throw (mkErr ZodError (zod_message name v) None)
  end.

(** [v.k]: reading a property of [undefined] or [null] throws. *)
Definition member (v : Value) (k : string) : Async Value :=
  match v with
  | None => throw (mkErr TypeError
              ("Cannot read properties of undefined (reading '" +:+ k +:+ "')")
              None)
  | Some JNull => throw (mkErr TypeError
              ("Cannot read properties of null (reading '" +:+ k +:+ "')")
              None)
  | Some (JObj o) => ret o.[k]
  | Some _ => ret None
  end.

(** *** operations/cards.ts *)

Definition createCard (input : Value) : Async Card.t :=
  let* validated := parse "CreateCardSchema" CreateCardSchema input in
  let* response :=
    client_post ("/api/lists/" +:+ cc_listId validated +:+ "/cards")
      (obj [ ("name", str (cc_name validated));
             ("description", JStr <$> cc_description validated);
             ("position", num (cc_position validated));
             ("type", str (CardType_str (cc_type validated)));
             ("dueDate", JStr <$> cc_dueDate validated) ]) in
  let* parsed := parse "CardResponse" CardResponse response in
  ret parsed.

Definition getCard (cardId : string) : Async CardDetails :=
  let* response := client_get ("/api/cards/" +:+ cardId) in
  let* parsed := parse "CardResponse" CardResponse response in
  let* inc := member response "included" in
  let* included :=
    parse "CardIncludedSchema" (CardIncludedSchema is_email)
      (or_empty_object inc) in
  ret (mkCardDetails parsed
         (sort (ascending (λ t, num_of (TaskList.position t)))
            (default [] (ci_taskLists included)))
         (sort (ascending (λ t, num_of (Task.position t)))
            (default [] (ci_tasks included)))
         (sort (λ a b, num_sub (getTime (createdAt (Comment.at_ b)))
                               (getTime (createdAt (Comment.at_ a))))
            (default [] (ci_comments included)))
         (default [] (ci_labels included))
         (default [] (ci_cardLabels included))
         (default [] (ci_attachments included))).

(** The body is [validated]: the fields of the schema that the input has. *)
Definition updateCard (cardId : string) (input : Value) : Async Card.t :=
  let* validated := parse "UpdateCardSchema" UpdateCardSchema input in
  let* response :=
    client_patch ("/api/cards/" +:+ cardId)
      (obj [ ("name", JStr <$> uc_name validated);
             ("description",
              from_option JStr JNull <$> uc_description validated);
             ("dueDate", from_option JStr JNull <$> uc_dueDate validated);
             ("isCompleted", JBool <$> uc_isCompleted validated);
             ("listId", JStr <$> uc_listId validated);
             ("boardId", JStr <$> uc_boardId validated);
             ("position", JNum <$> uc_position validated) ]) in
  let* parsed := parse "CardResponse" CardResponse response in
  ret parsed.

Definition moveCard (input : Value) : Async Card.t :=
  let* validated := parse "MoveCardSchema" MoveCardSchema input in
  let updatePayload :=
    obj ([ ("listId", str (mc_listId validated));
           ("position", num (mc_position validated)) ]
         ++ (if truthy_str (mc_boardId validated)
             then [("boardId", JStr <$> mc_boardId validated)]
             else []))%list in
  let* response :=
    client_patch ("/api/cards/" +:+ mc_cardId validated) updatePayload in
  let* parsed := parse "CardResponse" CardResponse response in
  ret parsed.

Definition deleteCard (cardId : string) : Async unit :=
  client_delete ("/api/cards/" +:+ cardId).

(** *** operations/boards.ts *)

Definition getBoard (boardId : string) : Async BoardDetails :=
  let* response := client_get ("/api/boards/" +:+ boardId) in
  let* parsed := parse "BoardResponse" BoardResponse response in
  let* inc := member response "included" in
  let* included :=
    parse "BoardIncludedSchema" (BoardIncludedSchema is_email)
      (or_empty_object inc) in
  ret (mkBoardDetails parsed
         (sort (ascending (λ l, position_or PosInf (BList.position l)))
            (default [] (bi_lists included)))
         (default [] (bi_cards included))
         (sort (ascending (λ l, num_of (Label.position l)))
            (default [] (bi_labels included)))
         (default [] (bi_cardLabels included))
         (sort (ascending (λ t, num_of (TaskList.position t)))
            (default [] (bi_taskLists included)))
         (default [] (bi_tasks included))).

Definition getBoardWithTaskCounts (boardId : string)
    : Async BoardWithTaskCounts :=
  let* details := getBoard boardId in
  let toCard := taskListToCard (bd_taskLists details) in
  let byCard := taskCountsByCard toCard (bd_tasks details) in
  let cardsWithCounts := map (with_counts byCard) (bd_cards details) in
  ret (mkBoardWithTaskCounts (bd_board details) (bd_lists details)
         cardsWithCounts (bd_labels details) (bd_cardLabels details)).

Definition getCardsForList (boardId listId : string) : Async (list Card.t) :=
  let* details := getBoard boardId in
  ret (sort (ascending (λ card, num_of (Card.position card)))
         (filter (λ card, Card.listId card = listId) (bd_cards details))).

(** *** operations/tasks.ts *)

(** [taskLists.length > 0] holds exactly when the sorted array has a first
    element, which is then returned. *)
Definition getOrCreateDefaultTaskList (cardId : string) : Async TaskList.t :=
  let* cardDetails := getCard cardId in
  match sort (ascending (λ t, num_of (TaskList.position t)))
          (cd_taskLists cardDetails) with
  | first :: _ => ret first
  | [] =>
      let* response :=
        client_post ("/api/cards/" +:+ cardId +:+ "/task-lists")
          (obj [ ("name", str DEFAULT_TASK_LIST_NAME);
                 ("position", num 65536) ]) in
      let* parsed := parse "TaskListResponse" TaskListResponse response in
      ret parsed
  end.

Definition createTask (input : Value) : Async Task.t :=
  let* validated := parse "CreateTaskSchema" CreateTaskSchema input in
  let* taskList := getOrCreateDefaultTaskList (ct_cardId validated) in
  let* response :=
    client_post ("/api/task-lists/" +:+ TaskList.id taskList +:+ "/tasks")
      (obj [ ("name", str (ct_name validated));
             ("position", num (ct_position validated)) ]) in
  let* parsed := parse "TaskResponse" TaskResponse response in
  ret parsed.

(** The loop of [createTasks]: [position] and [tasks] are its variables. *)
Fixpoint createTasks_loop (taskListId : string) (inputs : list TaskInput)
    (position : Q) (tasks : list Task.t) : Async (list Task.t) :=
  match inputs with
  | [] => ret tasks
  | taskInput :: rest =>
      let* response :=
        client_post ("/api/task-lists/" +:+ taskListId +:+ "/tasks")
          (obj [ ("name", str (ti_name taskInput));
                 ("position",
                  num (default (Finite position)
                         (ti_position taskInput))) ]) in
      let* parsed := parse "TaskResponse" TaskResponse response in
      createTasks_loop taskListId rest (position + 65536)%Q
      (tasks ++ [parsed])%list
  end.

Definition createTasks (input : Value) : Async (list Task.t) :=
  let* validated :=
    parse "BatchCreateTasksSchema" BatchCreateTasksSchema input in
  let* taskList := getOrCreateDefaultTaskList (bt_cardId validated) in
  createTasks_loop (TaskList.id taskList) (bt_tasks validated) 65536 [].

Definition createTaskList (cardId name : string) (position : option Number)
    : Async TaskList.t :=
  let* response :=
    client_post ("/api/cards/" +:+ cardId +:+ "/task-lists")
      (obj [ ("name", str name);
             ("position", num (default (Finite 65536) position)) ]) in
  let* parsed := parse "TaskListResponse" TaskListResponse response in
  ret parsed.

Definition updateTask (taskId : string) (input : Value) : Async Task.t :=
  let* validated := parse "UpdateTaskSchema" UpdateTaskSchema input in
  let* response :=
    client_patch ("/api/tasks/" +:+ taskId)
      (obj [ ("name", JStr <$> ut_name validated);
             ("isCompleted", JBool <$> ut_isCompleted validated);
             ("position", JNum <$> ut_position validated) ]) in
  let* parsed := parse "TaskResponse" TaskResponse response in
  ret parsed.

Definition deleteTask (taskId : string) : Async unit :=
  client_delete ("/api/tasks/" +:+ taskId).

Definition deleteTaskList (taskListId : string) : Async unit :=
  client_delete ("/api/task-lists/" +:+ taskListId).

(** *** operations/labels.ts *)

Definition createLabel (input : Value) : Async Label.t :=
  let* validated := parse "CreateLabelSchema" CreateLabelSchema input in
  let* response :=
    client_post ("/api/boards/" +:+ cl_boardId validated +:+ "/labels")
      (obj [ ("name", str (cl_name validated));
             ("color", str (cl_color validated));
             ("position", num (cl_position validated)) ]) in
  let* parsed := parse "LabelResponse" LabelResponse response in
  ret parsed.

Definition updateLabel (labelId : string) (input : Value) : Async Label.t :=
  let* validated := parse "UpdateLabelSchema" UpdateLabelSchema input in
  let* response :=
    client_patch ("/api/labels/" +:+ labelId)
      (obj [ ("name", JStr <$> ul_name validated);
             ("color", JStr <$> ul_color validated);
             ("position", JNum <$> ul_position validated) ]) in
  let* parsed := parse "LabelResponse" LabelResponse response in
  ret parsed.

Definition addLabelToCard (input : Value) : Async CardLabel.t :=
  let* validated := parse "AddLabelToCardSchema" AddLabelToCardSchema input in
  let* response :=
    client_post ("/api/cards/" +:+ al_cardId validated +:+ "/card-labels")
      (obj [ ("labelId", str (al_labelId validated)) ]) in
  let* parsed := parse "CardLabelResponse" CardLabelResponse response in
  ret parsed.

Definition removeLabelFromCard (cardId labelId : string) : Async unit :=
  let* cardDetails := getCard cardId in
  match find (λ cl, String.eqb (CardLabel.labelId cl) labelId)
          (cd_cardLabels cardDetails) with
  | None => ret tt
  | Some cardLabel =>
      try_catch
        (client_delete ("/api/card-labels/" +:+ CardLabel.id cardLabel))
        (λ _, client_delete ("/api/cards/" +:+ cardId +:+ "/card-labels/"
                             +:+ CardLabel.id cardLabel))
  end.

(** One turn of the loop over [addLabelIds]. *)
Definition add_tolerant (cardId labelId : string) : Async unit :=
  try_catch
    (addLabelToCard (Some (obj [ ("cardId", str cardId);
                                 ("labelId", str labelId) ])) ;;; ret tt)
    (λ error, if includes "already" (message error) then ret tt
              else throw error).

Definition setCardLabels (cardId : string)
    (addLabelIds removeLabelIds : option (list string)) : Async unit :=
  match removeLabelIds with
  | Some ids =>
      if (0 <? length ids)%nat then for_of ids (removeLabelFromCard cardId)
      else ret tt
  | None => ret tt
  end ;;;
  match addLabelIds with
  | Some ids =>
      if (0 <? length ids)%nat then for_of ids (add_tolerant cardId)
      else ret tt
  | None => ret tt
  end.

Definition deleteLabel (labelId : string) : Async unit :=
  client_delete ("/api/labels/" +:+ labelId).

(** *** operations/lists.ts *)

Definition createList (input : Value) : Async BList.t :=
  let* validated := parse "CreateListSchema" CreateListSchema input in
  let body :=
    obj [ ("name", str (cls_name validated));
          ("position",
           num (default (Finite 65536) (cls_position validated))) ] in
  let* response :=
    client_post ("/api/boards/" +:+ cls_boardId validated +:+ "/lists") body in
  let* parsed := parse "ListResponse" ListResponse response in
  ret parsed.

Definition updateList (listId : string) (input : Value) : Async BList.t :=
  let* validated := parse "UpdateListSchema" UpdateListSchema input in
  let* response :=
    client_patch ("/api/lists/" +:+ listId)
      (obj [ ("name", JStr <$> uls_name validated);
             ("position", JNum <$> uls_position validated) ]) in
  let* parsed := parse "ListResponse" ListResponse response in
  ret parsed.

Definition deleteList (listId : string) : Async unit :=
  client_delete ("/api/lists/" +:+ listId).

(** *** operations/comments.ts *)

Definition createComment (input : Value) : Async Comment.t :=
  let* validated := parse "CreateCommentSchema" CreateCommentSchema input in
  let* response :=
    client_post ("/api/cards/" +:+ cco_cardId validated +:+ "/comments")
      (obj [ ("text", str (cco_text validated)) ]) in
  let* parsed := parse "CommentResponse" CommentResponse response in
  ret parsed.

Definition updateComment (commentId : string) (input : Value)
    : Async Comment.t :=
  let* validated := parse "UpdateCommentSchema" UpdateCommentSchema input in
  let* response :=
    client_patch ("/api/comments/" +:+ commentId)
      (obj [ ("text", str validated) ]) in
  let* parsed := parse "CommentResponse" CommentResponse response in
  ret parsed.

Definition deleteComment (commentId : string) : Async unit :=
  client_delete ("/api/comments/" +:+ commentId).

Definition getCommentsForCard (cardId : string) : Async (list Comment.t) :=
  let* cardDetails := getCard cardId in
  ret (cd_comments cardDetails).

(** *** operations/projects.ts *)

Definition getProjects : Async (list Project.t * list Board.t) :=
  let* response := client_get "/api/projects" in
  let* parsed := parse "ProjectsResponse" ProjectsResponse response in
  let* inc := member response "included" in
  let* included :=
    parse "ProjectsIncludedSchema" (ProjectsIncludedSchema is_email)
      (or_empty_object inc) in
  ret (parsed, default [] (pi_boards included)).

(** [for (const x of xs) { ...; results.push(await body x) }] *)
Fixpoint for_push {A B} (xs : list A) (body : A → Async B)
    : Async (list B) :=
  match xs with
  | [] => ret []
  | x :: xs' =>
      let* y := body x in
      let* ys := for_push xs' body in
      ret (y :: ys)
  end.

(** The body of the loop over the boards of a project.  The schema given
    in line there has the fields of [ListSchema]. *)
Definition board_with_lists (board : Board.t)
    : Async (Board.t * list BList.t) :=
  let* boardResponse := client_get ("/api/boards/" +:+ Board.id board) in
  let* included := member boardResponse "included" in
  let* lists_v :=
    match included with
    | None | Some JNull => ret None
    | _ => member included "lists"
    end in
  let* lists :=
    if truthy lists_v then parse "array" (z_array ListSchema) lists_v
    else ret [] in
  ret (board,
       sort (ascending (λ l, position_or (Fin 0) (BList.position l))) lists).

Definition getStructure (projectId : option string)
    : Async (list ProjectStructure) :=
  let* found := getProjects in
  let projects := found.1 in
  let boards := found.2 in
  let targetProjects :=
    match projectId with
    | Some pid =>
        if String.eqb pid "" then projects
        else filter (λ p, Project.id p = pid) projects
    | None => projects
    end in
  for_push targetProjects (λ project,
    let projectBoards :=
      filter (λ b, Board.projectId b = Project.id project) boards in
    let* boardsWithLists := for_push projectBoards board_with_lists in
    ret (mkProjectStructure project
           (sort (ascending (λ b, num_of (Board.position b.1)))
              boardsWithLists))).

(** *** tools/navigation.ts: the handler of [planka_get_structure]

    [formatted] is the value the handler serialises as its answer. *)
Definition format_structure (structure : list ProjectStructure) : Json :=
  JArr (map (λ project,
    obj [ ("project",
           Some (obj [ ("id", str (Project.id (ps_project project)));
                       ("name", str (Project.name (ps_project project))) ]));
          ("boards",
           Some (JArr (map (λ b : Board.t * list BList.t,
             obj [ ("id", str (Board.id b.1));
                   ("name", str (Board.name b.1));
                   ("lists",
                    Some (JArr (map (λ l,
                      obj [ ("id", str (BList.id l));
                            ("name", Some (from_option JStr JNull
                                             (BList.name l))) ])
                      (filter (λ l, BList.name l ≠ None) b.2)))) ])
             (ps_boards project)))) ])
    structure).

Definition getStructureTool_handler (projectId : option string)
    : Async Json :=
  let* structure := getStructure projectId in
  ret (format_structure structure).
End operations.

(** ** The client (client.ts) *)

Record ClientConfig := mkClientConfig {
  baseUrl : string;
  email : string;
  password : string;
}.

(** [process.env] *)
Record Env := mkEnv {
  PLANKA_BASE_URL : option string;
  PLANKA_AGENT_EMAIL : option string;
  PLANKA_AGENT_PASSWORD : option string;
}.

(** [s.replace(/\/$/, "")] *)
Fixpoint remove_trailing_slash (s : string) : string :=
  match s with
  | EmptyString => EmptyString
  | String c EmptyString => if String.eqb s "/" then EmptyString else s
  | String c s' => String c (remove_trailing_slash s')
  end.

Fixpoint join (sep : string) (l : list string) : string :=
  match l with
  | [] => ""
  | [x] => x
  | x :: l' => x +:+ sep +:+ join sep l'
  end.

(** A call of [fetch]: the URL and the options given; [f_body] is the
    value that [JSON.stringify] makes the body of ([undefined] when no body
    is given). *)
Record Fetch := mkFetch {
  f_url : string;
  f_method : Method;
  f_headers : list (string * string);
  f_body : Value;
}.

(** The response: [json] is what [response.json()] resolves with, or the
    error it rejects with, which is a SyntaxError for a body that is not
    JSON, a TypeError for a body that cannot be read, and the reason of the
    abort when the signal fires while the body is read. *)
Record Response := mkResponse {
  status : Z;
  statusText : string;
  json : Res Json;
}.

Definition ok (r : Response) : bool :=
  (200 <=? status r)%Z && (status r <=? 299)%Z.

(** [fetch] resolves with a response or rejects with an error of that name. *)
Inductive Outcome :=
  | Rejects (error_name : string)
  | Responds (r : Response).

(** The world outside: the clock ([Date.now()], in milliseconds) and the
    calls of [fetch] made so far. *)
Record Net := mkNet {
  now : Z;
  wire : list Fetch;
}.

Record PlankaClient := mkPlankaClient {
  config : option ClientConfig;
  token : option string;
  tokenExpiresAt : Z;
}.

Definition new_PlankaClient : PlankaClient := mkPlankaClient None None 0.

Record Proc := mkProc {
  this : PlankaClient;
  net : Net;
}.

Definition Method_str (m : Method) : string :=
  match m with
  | GET => "GET" | POST => "POST" | PATCH => "PATCH" | DELETE => "DELETE"
  end.

Section client.
(** The environment, [new URL(s)] succeeding, [String(v)], and the
    service: what a call of [fetch] yields in a given state of the world
    and the time that passes until it does. *)
Context (env : Env).
Context (valid_url : string → bool).
Context (js_String : Json → string).
Context (service : Net → Fetch → Outcome * Z).
Context (zod_message : string → Value → string).

Definition getConfig : Res ClientConfig :=
  let missing :=
    ((if truthy_str (PLANKA_BASE_URL env) then [] else ["PLANKA_BASE_URL"]) ++
     (if truthy_str (PLANKA_AGENT_EMAIL env) then []
      else ["PLANKA_AGENT_EMAIL"]) ++
     (if truthy_str (PLANKA_AGENT_PASSWORD env) then []
      else ["PLANKA_AGENT_PASSWORD"]))%list in
  match missing, PLANKA_BASE_URL env, PLANKA_AGENT_EMAIL env,
        PLANKA_AGENT_PASSWORD env with
  | [], Some url, Some mail, Some pass =>
      if valid_url url
      then Ok (mkClientConfig (remove_trailing_slash url) mail pass)
      else Throw (newPlankaConfigError ("Invalid PLANKA_BASE_URL: " +:+ url))
  | _, _, _, _ =>
      Throw (newPlankaConfigError
               ("Missing required environment variables: "
                +:+ join ", " missing))
  end.

Definition createPlankaError (status : Z) (body : Value)
    (context : option string) : Err :=
  let message :=
    match body with
    | Some (JObj o) =>
        match o.["message"] with
        | Some m => js_String m
        | None => "Unknown error"
        end
    | _ => "Unknown error"
    end in
  let contextSuffix :=
    if truthy_str context then " (" +:+ default "" context +:+ ")" else "" in
  if (status =? 401)%Z then newPlankaAuthError (message +:+ contextSuffix)
  else if (status =? 403)%Z
  then newPlankaPermissionError (message +:+ contextSuffix)
  else if (status =? 404)%Z
  then newPlankaNotFoundError "Resource"
         (if truthy_str context then default "" context else "unknown")
  else if (status =? 422)%Z
  then newPlankaValidationError (message +:+ contextSuffix)
  else newPlankaError (message +:+ contextSuffix) "API_ERROR" status.

Abbreviation Task_ := (M Proc).

(** [this.getConfig()] *)
Definition this_getConfig : Task_ ClientConfig :=
  λ s, match config (this s) with
       | Some c => (Ok c, s)
       | None =>
           match getConfig with
           | Ok c =>
               (Ok c, mkProc (mkPlankaClient (Some c) (token (this s))
                                (tokenExpiresAt (this s))) (net s))
           | Throw e => (Throw e, s)
           end
       end.

(** [await fetch(url, options)]: the call goes on the wire and the clock
    moves on. *)
Definition fetch (call : Fetch) : Task_ Outcome :=
  λ s, let '(outcome, elapsed) := service (net s) call in
       (Ok outcome,
        mkProc (this s) (mkNet (now (net s) + elapsed)
                           (wire (net s) ++ [call])%list)).

Definition access_tokens_call (cfg : ClientConfig) : Fetch :=
  mkFetch (baseUrl cfg +:+ "/api/access-tokens") POST
    [("Content-Type", "application/json")]
    (Some (obj [ ("emailOrUsername", str (email cfg));
                 ("password", str (password cfg)) ])).

Definition authenticate : Task_ string :=
  let* cfg := this_getConfig in
  let* outcome := fetch (access_tokens_call cfg) in
  match outcome with
  | Rejects error_name =>
      if String.eqb error_name "AbortError"
      then throw (newPlankaNetworkError
                    ("Request timeout connecting to PLANKA at "
                     +:+ baseUrl cfg))
      else throw (newPlankaNetworkError
                    ("Failed to connect to PLANKA at " +:+ baseUrl cfg))
  | Responds response =>
      if negb (ok response)
      then throw (newPlankaAuthError
                    ("Authentication failed: " +:+ pretty (status response)
                     +:+ " " +:+ statusText response))
      else
        match json response with
        | Throw error => throw error
        | Ok data =>
            match AuthResponse (Some data) with
            | None => throw (mkErr ZodError
                               (zod_message "AuthResponse" (Some data)) None)
            | Some item =>
                λ s, (Ok item,
                      mkProc (mkPlankaClient (config (this s))
                                (Some item) (now (net s) + 25 * 60 * 1000))
                        (net s))
            end
        end
  end.

Definition getToken : Task_ string :=
  λ s, match token (this s) with
       | Some t =>
           if negb (truthy_str (Some t))
              || (tokenExpiresAt (this s) <=? now (net s))%Z
           then authenticate s
           else (Ok t, s)
       | None => authenticate s
       end.

(** [safeParseJson]: [null] where [response.json()] rejects. *)
Definition safeParseJson (response : Response) : Json :=
  match json response with
  | Ok data => data
  | Throw _ => JNull
  end.

Definition api_call (cfg : ClientConfig) (method : Method) (path : string)
    (body : Value) (token : string) : Fetch :=
  mkFetch (baseUrl cfg +:+ path) method
    (("Authorization", "Bearer " +:+ token)
     :: match body with
        | Some _ => [("Content-Type", "application/json")]
        | None => []
        end)
    body.

(** What one run of the body of [request] comes to: the value returned, or
    the call of [request] on itself. *)
Inductive Attempt :=
  | Returns (data : Value)
  | Retry (isRetry : bool).

Definition clear_token : Task_ unit :=
  modify (λ s, mkProc (mkPlankaClient (config (this s)) None 0) (net s)).

(** The body of [request], up to its recursive call. *)
Definition attempt (method : Method) (path : string) (body : Value)
    (isRetry : bool) : Task_ Attempt :=
  let* cfg := this_getConfig in
  let* token_ := getToken in
  let* outcome := fetch (api_call cfg method path body token_) in
  match outcome with
  | Rejects error_name =>
      if String.eqb error_name "AbortError"
      then throw (newPlankaNetworkError
                    ("Request timeout: " +:+ Method_str method +:+ " "
                     +:+ path))
      else throw (newPlankaNetworkError
                    ("Network error: " +:+ Method_str method +:+ " "
                     +:+ path))
  | Responds response =>
      if (status response =? 204)%Z then ret (Returns None)
      else
        let data := safeParseJson response in
        if negb (ok response)
        then
          let* s := get_state in
          if (status response =? 401)%Z && truthy_str (token (this s))
             && negb isRetry
          then clear_token ;;; ret (Retry true)
          else throw (createPlankaError (status response) (Some data)
                        (Some (Method_str method +:+ " " +:+ path)))
        else ret (Returns (Some data))
  end.

(** [request]: [fuel] bounds the depth of the recursion; [None] is a run
    that needs more. *)
Fixpoint request (fuel : nat) (method : Method) (path : string)
    (body : Value) (isRetry : bool) (s : Proc) : option (Res Value * Proc) :=
  match fuel with
  | O => None
  | S fuel' =>
      match attempt method path body isRetry s with
      | (Ok (Returns data), s') => Some (Ok data, s')
      | (Ok (Retry again), s') => request fuel' method path body again s'
      | (Throw e, s') => Some (Throw e, s')
      end
  end.

(** [get], [post], [patch] and [delete] call [request] with [isRetry]
    left at its default. *)
Definition plankaClient (fuel : nat) (r : Req) (s : Proc)
    : option (Res Value * Proc) :=
  request fuel (method r) (path r) (body r) false s.
End client.

(** ** The handlers of the tools (tools/*.ts)

    A handler returns [{ content: [{ type: "text", text }] }], with
    [isError: true] beside it when it reports a failure.  [Answer formatted]
    is the result whose text is [JSON.stringify(formatted, null, 2)],
    [Failure text] the result with [isError: true].  The parameters of a
    handler have the types it declares.  A string is the sequence of its
    code units, which [length] counts and [substring] cuts. *)
Inductive ToolResult :=
  | Answer (formatted : Json)
  | Failure (text : string).

(** A length or a count as a number. *)
Definition count (n : nat) : Value := num (Finite (inject_Z (Z.of_nat n))).

(** [xs?.length || 0] *)
Definition length_or_0 {A} (xs : option (list A)) : Value :=
  count (length (default [] xs)).

Record CreateCardParams := mkCreateCardParams {
  ccp_listId : string;
  ccp_name : string;
  ccp_description : option string;
  ccp_tasks : option (list string);
  ccp_dueDate : option string;
  ccp_labelIds : option (list string);
}.

Record ManageLabelsParams := mkManageLabelsParams {
  mlp_action : string;
  mlp_boardId : option string;
  mlp_labelId : option string;
  mlp_name : option string;
  mlp_color : option string;
}.

(** [LabelColorSchema.options.join(", ")] *)
Definition validColors : string := join ", " LabelColors.

Definition comment_view (c : Comment.t) : Json :=
  obj [ ("id", str (Comment.id c));
        ("text", str (Comment.text c));
        ("createdAt", str (createdAt (Comment.at_ c))) ].

Definition task_view (t : Task.t) : Json :=
  obj [ ("id", str (Task.id t));
        ("name", str (Task.name t));
        ("isCompleted", Some (JBool (Task.isCompleted t))) ].

Definition label_view (l : Label.t) : Json :=
  obj [ ("id", str (Label.id l));
        ("name", Some (from_option JStr JNull (Label.name l)));
        ("color", str (Label.color l)) ].

Definition label_answer (l : Label.t) : ToolResult :=
  Answer (obj [ ("success", Some (JBool true));
                ("label", Some (label_view l)) ]).

Definition invalid_color (color : option string) : ToolResult :=
  Failure ("Error: Invalid color '" +:+ default "" color
           +:+ "'. Valid colors: " +:+ validColors).

(** *** tools/navigation.ts: what the handler of [planka_get_board] builds *)

(** One turn of the loop that groups the cards by list. *)
Definition group_card (cardsByList : gmap string (list CardWithTaskCounts))
    (card : CardWithTaskCounts) : gmap string (list CardWithTaskCounts) :=
  let listCards :=
    default [] (cardsByList !! Card.listId (cw_card card)) in
  <[Card.listId (cw_card card) := (listCards ++ [card])%list]> cardsByList.

(** [new Map(details.labels.map((l) => [l.id, l]))] *)
Definition labelById (labels : list Label.t) : gmap string Label.t :=
  foldl (λ m l, <[Label.id l := l]> m) ∅ labels.

(** [label.name || label.color] *)
Definition label_text (l : Label.t) : string :=
  if truthy_str (Label.name l) then default "" (Label.name l)
  else Label.color l.

(** One turn of the loop over [details.cardLabels]. *)
Definition note_label (byId : gmap string Label.t)
    (labelsByCard : gmap string (list string)) (cl : CardLabel.t)
    : gmap string (list string) :=
  let labels := default [] (labelsByCard !! CardLabel.cardId cl) in
  <[CardLabel.cardId cl :=
      match byId !! CardLabel.labelId cl with
      | Some label => (labels ++ [label_text label])%list
      | None => labels
      end]> labelsByCard.

(** [d.length > 100 ? d.substring(0, 100) + "..." : d] *)
Definition shorten (description : string) : string :=
  if (100 <? String.length description)%nat
  then String.substring 0 100 description +:+ "..."
  else description.

(** [cardData] *)
Definition card_view (includeTaskCounts : option bool)
    (labelsByCard : gmap string (list string)) (card : CardWithTaskCounts)
    : Json :=
  obj [ ("id", str (Card.id (cw_card card)));
        ("name", str (Card.name (cw_card card)));
        ("description",
         match Card.description (cw_card card) with
         | Some (Some d) =>
             if String.eqb d "" then None else Some (JStr (shorten d))
         | _ => None
         end);
        ("dueDate",
         match Card.dueDate (cw_card card) with
         | Some (Some d) => if String.eqb d "" then None else Some (JStr d)
         | _ => None
         end);
        ("isCompleted",
         match Card.isCompleted (cw_card card) with
         | Some true => Some (JBool true)
         | _ => None
         end);
        ("labels",
         match labelsByCard !! Card.id (cw_card card) with
         | Some cardLabels =>
             if (0 <? length cardLabels)%nat
             then Some (JArr (map JStr cardLabels))
             else None
         | None => None
         end);
        ("tasks",
         if negb (bool_decide (includeTaskCounts = Some false))
            && (0 <? taskCount card)%nat
         then Some (JStr (pretty (completedTaskCount card) +:+ "/"
                          +:+ pretty (taskCount card)))
         else None) ].

Definition list_view (l : BList.t) (cards : list Json) : Json :=
  obj [ ("id", str (BList.id l));
        ("name", Some (from_option JStr JNull (BList.name l)));
        ("cards", Some (JArr cards)) ].

(** The [map] over the lists: [sort] puts the array of the list in order
    where it is, in [cardsByList], and the lists that follow find it so. *)
Fixpoint list_views (view : CardWithTaskCounts → Json) (lists : list BList.t)
    (cardsByList : gmap string (list CardWithTaskCounts)) : list Json :=
  match lists with
  | [] => []
  | list :: rest =>
      let listCards :=
        sort (ascending (λ card, num_of (Card.position (cw_card card))))
          (default [] (cardsByList !! BList.id list)) in
      list_view list (map view listCards)
      :: list_views view rest
           (match cardsByList !! BList.id list with
            | Some _ => <[BList.id list := listCards]> cardsByList
            | None => cardsByList
            end)
  end.

Definition format_board (includeTaskCounts : option bool)
    (details : BoardWithTaskCounts) : Json :=
  let cardsByList := foldl group_card ∅ (bw_cards details) in
  let labelsByCard :=
    foldl (note_label (labelById (bw_labels details))) ∅
      (bw_cardLabels details) in
  obj [ ("board",
         Some (obj [ ("id", str (Board.id (bw_board details)));
                     ("name", str (Board.name (bw_board details))) ]));
        ("labels", Some (JArr (map label_view (bw_labels details))));
        ("lists",
         Some (JArr (list_views (card_view includeTaskCounts labelsByCard)
                       (filter (λ l, BList.name l ≠ None)
                          (bw_lists details))
                       cardsByList))) ].

Section tools.
Context {W : Type}.
Context (client : Req → W → Res Value * W).
Context (is_email : string → bool).
Context (getTime : string → Num).
Context (zod_message : string → Value → string).
(** [JSON.parse]: the value of a text, or the SyntaxError it throws. *)
Context (JSON_parse : string → Res Json).

Abbreviation Async := (M (Sys W)).

(** [try { m } catch (error) { if (error instanceof PlankaError) return
    { ..., isError: true }; throw error; }] *)
Definition reporting_PlankaError (m : Async ToolResult) : Async ToolResult :=
  try_catch m (λ error,
    if isPlankaError error then ret (Failure ("Error: " +:+ message error))
    else throw error).

(** *** tools/navigation.ts: [planka_get_board], which catches nothing *)

Definition getBoardTool_handler (boardId : string)
    (includeTaskCounts : option bool) : Async ToolResult :=
  let* details :=
    getBoardWithTaskCounts client is_email zod_message boardId in
  ret (Answer (format_board includeTaskCounts details)).

(** *** tools/comments.ts *)

Definition addCommentTool_handler (cardId text : string)
    : Async ToolResult :=
  reporting_PlankaError (
    let* comment :=
      createComment client zod_message
        (Some (obj [ ("cardId", str cardId); ("text", str text) ])) in
    ret (Answer (obj [ ("success", Some (JBool true));
                       ("comment", Some (comment_view comment)) ]))).

Definition getCommentsTool_handler (cardId : string) : Async ToolResult :=
  reporting_PlankaError (
    let* comments :=
      getCommentsForCard client is_email getTime zod_message cardId in
    ret (Answer (obj [ ("cardId", str cardId);
                       ("commentCount", count (length comments));
                       ("comments",
                        Some (JArr (map comment_view comments))) ]))).

(** *** tools/cards.ts: [planka_create_card] *)

(** The loop over [params.labelIds]; [labelsAttached] and [labelErrors]
    are its variables. *)
Fixpoint attach_labels (cardId : string) (labelIds : list string)
    (labelsAttached : nat) (labelErrors : list string)
    : Async (nat * list string) :=
  match labelIds with
  | [] => ret (labelsAttached, labelErrors)
  | labelId :: rest =>
      let* attached :=
        try_catch
          (addLabelToCard client zod_message
             (Some (obj [ ("cardId", str cardId);
                          ("labelId", str labelId) ])) ;;;
           ret true)
          (λ _, ret false) in
      if attached
      then attach_labels cardId rest (S labelsAttached) labelErrors
      else attach_labels cardId rest labelsAttached
             (labelErrors ++ [labelId])%list
  end.

(** The handler up to the labels: the card is created, then its tasks. *)
Definition create_card_and_tasks (params : CreateCardParams)
    : Async Card.t :=
  let* card :=
    createCard client zod_message
      (Some (obj [ ("listId", str (ccp_listId params));
                   ("name", str (ccp_name params));
                   ("description", JStr <$> ccp_description params);
                   ("dueDate", JStr <$> ccp_dueDate params) ])) in
  match ccp_tasks params with
  | Some tasks =>
      if (0 <? length tasks)%nat
      then
        createTasks client is_email getTime zod_message
          (Some (obj [ ("cardId", str (Card.id card));
                       ("tasks",
                        Some (JArr (map (λ name, obj [("name", str name)])
                                      tasks))) ])) ;;;
        ret tt
      else ret tt
  | None => ret tt
  end ;;;
  ret card.

(** The labels, from the card on. *)
Definition attach_labels_of (params : CreateCardParams) (card : Card.t)
    : Async (nat * list string) :=
  match ccp_labelIds params with
  | Some labelIds =>
      if (0 <? length labelIds)%nat
      then attach_labels (Card.id card) labelIds 0 []
      else ret (0%nat, [])
  | None => ret (0%nat, [])
  end.

Definition created_card_answer (params : CreateCardParams) (card : Card.t)
    (labelsAttached : nat) (labelErrors : list string) : ToolResult :=
  Answer
    (obj [ ("success", Some (JBool true));
           ("card",
            Some (obj [ ("id", str (Card.id card));
                        ("name", str (Card.name card));
                        ("listId", str (Card.listId card)) ]));
           ("tasksCreated", length_or_0 (ccp_tasks params));
           ("labelsAttached", count labelsAttached);
           ("labelErrors",
            if (0 <? length labelErrors)%nat
            then Some (JArr (map JStr labelErrors))
            else None) ]).

Definition createCardTool_handler (params : CreateCardParams)
    : Async ToolResult :=
  reporting_PlankaError (
    let* card := create_card_and_tasks params in
    let* labels := attach_labels_of params card in
    ret (created_card_answer params card labels.1 labels.2)).

(** *** tools/tasks.ts: [planka_create_tasks]

    [params.tasks] is an array of names or a string, which is parsed. *)

(** [tasksArray.map((name) => ({ name }))] *)
Definition named_tasks (tasksArray : Json) : Async Json :=
  match tasksArray with
  | JArr names => ret (JArr (map (λ name, obj [("name", Some name)]) names))
  | JNull => throw (mkErr TypeError
                      "Cannot read properties of null (reading 'map')" None)
  | _ => throw (mkErr TypeError "tasksArray.map is not a function" None)
  end.

Definition createTasksTool_handler (cardId : string)
    (tasks : list string + string) : Async ToolResult :=
  reporting_PlankaError (
    let* tasksArray :=
      match tasks with
      | inr text =>
          match JSON_parse text with
          | Ok v => ret v
          | Throw error => throw error
          end
      | inl names => ret (JArr (map JStr names))
      end in
    let* named := named_tasks tasksArray in
    let* tasks :=
      createTasks client is_email getTime zod_message
        (Some (obj [ ("cardId", str cardId); ("tasks", Some named) ])) in
    ret (Answer (obj [ ("success", Some (JBool true));
                       ("tasksCreated", count (length tasks));
                       ("tasks", Some (JArr (map task_view tasks))) ]))).

(** *** tools/labels.ts *)

Definition manageLabelsTool_handler (params : ManageLabelsParams)
    : Async ToolResult :=
  reporting_PlankaError (
    if String.eqb (mlp_action params) "create" then
      if negb (truthy_str (mlp_boardId params))
      then ret (Failure "Error: boardId is required for create action")
      else if negb (truthy_str (mlp_name params))
      then ret (Failure "Error: name is required for create action")
      else if negb (truthy_str (mlp_color params))
      then ret (Failure "Error: color is required for create action")
      else
        match LabelColorSchema (JStr <$> mlp_color params) with
        | None => ret (invalid_color (mlp_color params))
        | Some data =>
            let* label :=
              createLabel client zod_message
                (Some (obj [ ("boardId", JStr <$> mlp_boardId params);
                             ("name", JStr <$> mlp_name params);
                             ("color", str data) ])) in
            ret (label_answer label)
        end
    else if String.eqb (mlp_action params) "update" then
      if negb (truthy_str (mlp_labelId params))
      then ret (Failure "Error: labelId is required for update action")
      else
        match mlp_color params with
        | None =>
            let* label :=
              updateLabel client zod_message
                (default "" (mlp_labelId params))
                (Some (obj [ ("name", JStr <$> mlp_name params) ])) in
            ret (label_answer label)
        | Some color =>
            match LabelColorSchema (Some (JStr color)) with
            | None => ret (invalid_color (mlp_color params))
            | Some data =>
                let* label :=
                  updateLabel client zod_message
                    (default "" (mlp_labelId params))
                    (Some (obj [ ("name", JStr <$> mlp_name params);
                                 ("color", str data) ])) in
                ret (label_answer label)
            end
        end
    else if String.eqb (mlp_action params) "delete" then
      if negb (truthy_str (mlp_labelId params))
      then ret (Failure "Error: labelId is required for delete action")
      else
        deleteLabel client (default "" (mlp_labelId params)) ;;;
        ret (Answer (obj [ ("success", Some (JBool true));
                           ("message",
                            str ("Label " +:+ default "" (mlp_labelId params)
                                 +:+ " deleted")) ]))
    else ret (Failure ("Error: Unknown action '" +:+ mlp_action params
                       +:+ "'"))).

Definition setCardLabelsTool_handler (cardId : string)
    (addLabelIds removeLabelIds : option (list string)) : Async ToolResult :=
  reporting_PlankaError (
    setCardLabels client is_email getTime zod_message cardId addLabelIds
      removeLabelIds ;;;
    ret (Answer (obj [ ("success", Some (JBool true));
                       ("cardId", str cardId);
                       ("labelsAdded", length_or_0 addLabelIds);
                       ("labelsRemoved", length_or_0 removeLabelIds) ]))).
End tools.

(** The request that [createCard] makes for a validated input. *)
Definition createCard_request (v : CreateCard) : Req :=
  mkReq POST ("/api/lists/" +:+ cc_listId v +:+ "/cards")
    (Some (obj [ ("name", str (cc_name v));
                 ("description", JStr <$> cc_description v);
                 ("position", num (cc_position v));
                 ("type", str (CardType_str (cc_type v)));
                 ("dueDate", JStr <$> cc_dueDate v) ])).

(** The requests of the label operations. *)
Definition getCard_request (cardId : string) : Req :=
  mkReq GET ("/api/cards/" +:+ cardId) None.
Definition delete_direct_request (cardLabelId : string) : Req :=
  mkReq DELETE ("/api/card-labels/" +:+ cardLabelId) None.
Definition delete_nested_request (cardId cardLabelId : string) : Req :=
  mkReq DELETE ("/api/cards/" +:+ cardId +:+ "/card-labels/" +:+ cardLabelId)
    None.
Definition add_label_request (cardId labelId : string) : Req :=
  mkReq POST ("/api/cards/" +:+ cardId +:+ "/card-labels")
    (Some (JObj [("labelId", JStr labelId)])).

(** ** A reference service for the labels of one card

    The card-label endpoints of the service as the README describes them: the
    card is read with the card-label records attached to it, a record is
    deleted by its own id (through the direct path, or through the path
    nested under the card where the direct one is not served), and attaching
    a label that the card has already is refused with a message that says so.
    The errors are the ones [plankaClient] throws for the statuses 404, 400
    and 409. *)
Record LabelService := mkLabelService {
  attached : list (string * string);  (* id of the record, id of the label *)
  next_id : nat;
}.

Fixpoint strip_prefix (p s : string) : option string :=
  match p, s with
  | EmptyString, _ => Some s
  | String a p', String b s' =>
      if Ascii.eqb a b then strip_prefix p' s' else None
  | String _ _, EmptyString => None
  end.

Definition cardLabel_json (card : string) (j : string * string) : Json :=
  JObj [ ("id", JStr j.1); ("cardId", JStr card); ("labelId", JStr j.2);
         ("createdAt", JStr "2024-05-01T09:00:00.000Z") ].

Definition card_json (card : string) : Json :=
  JObj [ ("id", JStr card); ("boardId", JStr "3"); ("listId", JStr "12");
         ("name", JStr "Write report"); ("position", JNum 65536);
         ("type", JStr "project");
         ("createdAt", JStr "2024-05-01T09:00:00.000Z") ].

Definition card_reply (card : string) (w : LabelService) : Json :=
  JObj [ ("item", card_json card);
         ("included",
          JObj [ ("cardLabels",
                  JArr (map (cardLabel_json card) (attached w))) ]) ].

Definition not_found (r : Req) : Err :=
  newPlankaNotFoundError "Resource" (Method_str (method r) +:+ " " +:+ path r).

Definition delete_record (id : string) (r : Req) (w : LabelService)
    : Res Value * LabelService :=
  if existsb (λ j, String.eqb j.1 id) (attached w)
  then (Ok None,
        mkLabelService (filter (λ j, j.1 ≠ id) (attached w)) (next_id w))
  else (Throw (not_found r), w).

Definition label_service (direct : bool) (card : string) (r : Req)
    (w : LabelService) : Res Value * LabelService :=
  match method r with
  | GET =>
      if String.eqb (path r) ("/api/cards/" +:+ card)
      then (Ok (Some (card_reply card w)), w)
      else (Throw (not_found r), w)
  | DELETE =>
      match strip_prefix "/api/card-labels/" (path r),
            strip_prefix ("/api/cards/" +:+ card +:+ "/card-labels/") (path r)
      with
      | Some id, _ =>
          if direct then delete_record id r w else (Throw (not_found r), w)
      | None, Some id => delete_record id r w
      | None, None => (Throw (not_found r), w)
      end
  | POST =>
      if String.eqb (path r) ("/api/cards/" +:+ card +:+ "/card-labels")
      then
        match body r with
        | Some (JObj [("labelId", JStr label)]) =>
            if existsb (λ j, String.eqb j.2 label) (attached w)
            then (Throw (newPlankaError
                           ("Label already in card (POST " +:+ path r +:+ ")")
                           "API_ERROR" 409), w)
            else (Ok (Some (JObj [ ("item",
                                    cardLabel_json card
                                      (pretty (next_id w), label)) ])),
                  mkLabelService
                    (attached w ++ [(pretty (next_id w), label)])%list
                    (S (next_id w)))
        | _ => (Throw (newPlankaError
                         ("Invalid parameters (POST " +:+ path r +:+ ")")
                         "API_ERROR" 400), w)
        end
      else (Throw (not_found r), w)
  | PATCH => (Throw (not_found r), w)
  end.

(** The labels the card has. *)
Definition labels_of (w : LabelService) : list string := (attached w).*2.

(** What the schemas read from the answers of the reference service. *)
Definition stamp0 : Stamps := mkStamps "2024-05-01T09:00:00.000Z" None.

Definition card_record (card : string) : Card.t :=
  Card.mk card "3" "12" None "Write report" None 65536 project None None None
    stamp0.

Definition cardLabel_record (card : string) (j : string * string)
    : CardLabel.t :=
  CardLabel.mk j.1 card j.2 stamp0.

(** ** What an operation sends

    [sends P m]: every request that [m] makes satisfies [P], and the
    requests made before are kept. *)
Definition sends {W A} (P : Req → Prop) (m : M (Sys W) A) : Prop :=
  ∀ s, ∃ l, sent (m s).2 = (sent s ++ l)%list ∧ Forall P l.

(** The requests of a removal: reading the card, deleting a record. *)
Definition is_removal (cardId : string) (r : Req) : Prop :=
  r = getCard_request cardId ∨
  ∃ cardLabelId, r = delete_direct_request cardLabelId ∨
                 r = delete_nested_request cardId cardLabelId.

(** The request of an addition. *)
Definition is_addition (cardId : string) (r : Req) : Prop :=
  ∃ labelId, r = add_label_request cardId labelId.

(** ** Orders

    [number_le a b]: the number [a] is at most the number [b];
    [number_eqb a b]: they are equal.  [precedes a b]: the list [a] may
    stand before the list [b] in a board, that is, the position of [a] is at
    most that of [b], a position of [null] counting as [Infinity]. *)
Definition number_le (a b : Number) : Prop :=
  match a, b with
  | MinusInfinity, _ | _, Infinity => True
  | Finite x, Finite y => (x <= y)%Q
  | _, _ => False
  end.

Definition number_eqb (a b : Number) : bool :=
  match a, b with
  | Finite x, Finite y => Qeq_bool x y
  | Infinity, Infinity | MinusInfinity, MinusInfinity => true
  | _, _ => false
  end.

Definition position_le (p q : option Number) : Prop :=
  number_le (default Infinity p) (default Infinity q).

Definition precedes (a b : BList.t) : Prop :=
  position_le (BList.position a) (BList.position b).

(** [response.included] of a response that is an object. *)
Definition included_of (response : Value) : Value :=
  match response with
  | Some (JObj o) => o.["included"]
  | _ => None
  end.

Definition getBoard_request (boardId : string) : Req :=
  mkReq GET ("/api/boards/" +:+ boardId) None.

(** ** Counting tasks

    [counted_for taskLists cardId task]: the task list that the task names
    is among [taskLists] and belongs to the card. *)
Definition counted_for (taskLists : list TaskList.t) (cardId : string)
    (task : Task.t) : bool :=
  existsb (λ tl, String.eqb (TaskList.id tl) (Task.taskListId task)
                 && String.eqb (TaskList.cardId tl) cardId) taskLists.

Definition tasks_of (taskLists : list TaskList.t) (tasks : list Task.t)
    (cardId : string) : list Task.t :=
  filter (λ t, counted_for taskLists cardId t = true) tasks.

(** [owner taskLists taskListId]: the card of the task list of that id, of
    the last of them when several task lists have the id.
    [tasks_counted taskLists tasks cardId]: the tasks whose task list is of
    the card, none when the id of the card is empty. *)
Definition owner (taskLists : list TaskList.t) (taskListId : string)
    : option string :=
  TaskList.cardId <$> last (filter (λ tl, TaskList.id tl = taskListId)
                              taskLists).

Definition tasks_counted (taskLists : list TaskList.t) (tasks : list Task.t)
    (cardId : string) : list Task.t :=
  if String.eqb cardId "" then []
  else filter (λ t, owner taskLists (Task.taskListId t) = Some cardId) tasks.

(** The requests of the task operations: creating the default task list
    of a card, creating a task in a task list, and the requests of
    [createTasks] for its inputs when none fails. *)
Definition create_default_task_list_request (cardId : string) : Req :=
  mkReq POST ("/api/cards/" +:+ cardId +:+ "/task-lists")
    (Some (JObj [("name", JStr "Tasks"); ("position", JNum 65536)])).

Definition task_request (taskListId name : string) (position : Number)
    : Req :=
  mkReq POST ("/api/task-lists/" +:+ taskListId +:+ "/tasks")
    (Some (JObj [("name", JStr name); ("position", JNum position)])).

Fixpoint task_requests (taskListId : string) (inputs : list TaskInput)
    (position : Q) : list Req :=
  match inputs with
  | [] => []
  | taskInput :: rest =>
      task_request taskListId (ti_name taskInput)
        (default (Finite position) (ti_position taskInput))
      :: task_requests taskListId rest (position + 65536)%Q
  end.

(** [sent_in_order run before requests]: the run sent, after what was sent
    [before], the [requests] in order up to one that failed, and all of them
    if it returned. *)
Definition sent_in_order {W A} (run : Res A * Sys W) (before : list Req)
    (requests : list Req) : Prop :=
  ∃ k, (k ≤ length requests)%nat ∧
       sent run.2 = (before ++ take k requests)%list ∧
       ∀ a, run.1 = Ok a → k = length requests.

(** [served client requests w tasks w']: from [w] the service answers each
    of the requests, made in order, with a task; these are the [tasks], and
    [w'] is the state it is left in. *)
Inductive served {W} (client : Req → W → Res Value * W)
    : list Req → W → list Task.t → W → Prop :=
  | served_nil w : served client [] w [] w
  | served_cons r requests w response w1 task tasks w' :
      client r w = (Ok response, w1) →
      TaskResponse response = Some task →
      served client requests w1 tasks w' →
      served client (r :: requests) w (task :: tasks) w'.

(** What an operation makes of the answer to its request: the value that
    the schema reads from it, the ZodError where the schema rejects it, or
    the error that the client threw. *)
Definition parsed_reply {A} (zod_message : string → Value → string)
    (name : string) (schema : Schema A) (reply : Res Value) : Res A :=
  match reply with
  | Ok response =>
      match schema response with
      | Some a => Ok a
      | None => Throw (mkErr ZodError (zod_message name response) None)
      end
  | Throw e => Throw e
  end.

(** ** The structure view

    The entries of the lists in the value that the handler of
    [planka_get_structure] serialises, and the lists of the structure it was
    made from, both in order. *)
Definition elements (v : Value) : list Json :=
  match v with
  | Some (JArr items) => items
  | _ => []
  end.

Definition property (k : string) (v : Json) : Value :=
  match v with
  | JObj o => o.[k]
  | _ => None
  end.

Definition lists_of_view (view : Json) : list Json :=
  project ← elements (Some view);
  board ← elements (property "boards" project);
  elements (property "lists" board).

Definition lists_of_structure (structure : list ProjectStructure)
    : list BList.t :=
  project ← structure;
  board ← ps_boards project;
  board.2.

Definition list_entry (id name : string) : Json :=
  JObj [("id", JStr id); ("name", JStr name)].

(** [plankaClient] as the operations take it: a call is a run of [request]
    that is not a retry.  Two units of fuel are all a run uses
    ([plankaClient_returns] below), so the default is never taken. *)
Definition plankaClient_call (env : Env) (valid_url : string → bool)
    (js_String : Json → string) (service : Net → Fetch → Outcome * Z)
    (zod_message : string → Value → string) (r : Req) (s : Proc)
    : Res Value * Proc :=
  default (Ok None, s)
    (plankaClient env valid_url js_String service zod_message 2 r s).

(** What a call of [fetch] leaves: the call is on the wire and the clock has
    moved by the time the service took. *)
Definition fetched (service : Net → Fetch → Outcome * Z) (s : Proc)
    (call : Fetch) : Proc :=
  mkProc (this s)
    (mkNet (now (net s) + (service (net s) call).2)
       (wire (net s) ++ [call])%list).

(** The client after [this.token = null; this.tokenExpiresAt = 0]. *)
Definition cleared (s : Proc) : Proc :=
  mkProc (mkPlankaClient (config (this s)) None 0) (net s).

(** [this.token] is truthy: a token is cached (the empty string is none). *)
Definition has_token (s : Proc) : Prop := truthy_str (token (this s)) = true.

(** The cached token is within its validity. *)
Definition token_valid (s : Proc) : Prop :=
  has_token s ∧ (now (net s) < tokenExpiresAt (this s))%Z.

(** ** The calls of one request

    [request_call cfg method path body call]: the call is the one of the
    token endpoint, or the API call of the request with some bearer token. *)
Definition request_call (cfg : ClientConfig) (method : Method) (path : string)
    (body : Value) (call : Fetch) : Prop :=
  call = access_tokens_call cfg ∨ ∃ t, call = api_call cfg method path body t.

(** [makes_calls_of cfg r s s']: from [s] to [s'] the client, configured
    with [cfg], has made at most four calls, all calls of the request [r]. *)
Definition makes_calls_of (cfg : ClientConfig) (r : Req) (s s' : Proc)
    : Prop :=
  config (this s') = Some cfg ∧
  ∃ l, wire (net s') = (wire (net s) ++ l)%list ∧
       Forall (request_call cfg (method r) (path r) (body r)) l ∧
       (length l ≤ 4)%nat.

(** [token_reply_error service zod_message e s']: the error [e] comes of a
    reply of the token endpoint with a success status, to the call that the
    client, configured as it is in [s'], made last: it is the error with
    which reading the body of the reply rejected, or the ZodError of a body
    that is not of the shape of [AuthResponse]. *)
Definition token_reply_error (service : Net → Fetch → Outcome * Z)
    (zod_message : string → Value → string) (e : Err) (s' : Proc) : Prop :=
  ∃ cfg w r,
    config (this s') = Some cfg ∧
    (service w (access_tokens_call cfg)).1 = Responds r ∧ ok r = true ∧
    wire (net s') = (wire w ++ [access_tokens_call cfg])%list ∧
    (json r = Throw e ∨
     ∃ data, json r = Ok data ∧ AuthResponse (Some data) = None ∧
             e = mkErr ZodError (zod_message "AuthResponse" (Some data)) None).

(** ** More orders

    [in_order key a b]: [a] may stand before [b] in a list that ascends in
    [key]; [not_older getTime a b]: both comments have a time stamp that is
    a date, and that of [a] is not before that of [b]. *)
Definition in_order {A} (key : A → Number) (a b : A) : Prop :=
  number_le (key a) (key b).

Definition not_older (getTime : string → Num) (a b : Comment.t) : Prop :=
  match getTime (createdAt (Comment.at_ a)),
        getTime (createdAt (Comment.at_ b)) with
  | Fin x, Fin y => (y <= x)%Q
  | _, _ => False
  end.

(** A request that reads: a GET, which has no body. *)
Definition is_read (r : Req) : Prop := method r = GET ∧ body r = None.

Definition getProjects_request : Req := mkReq GET "/api/projects" None.

(** The projects that [getStructure] goes through, and the boards of a
    project among the boards read. *)
Definition target_projects (projectId : option string)
    (projects : list Project.t) : list Project.t :=
  match projectId with
  | Some pid =>
      if String.eqb pid "" then projects
      else filter (λ p, Project.id p = pid) projects
  | None => projects
  end.

Definition boards_of (project : Project.t) (boards : list Board.t)
    : list Board.t :=
  filter (λ b, Board.projectId b = Project.id project) boards.

(** The requests for the boards of a structure. *)
Definition board_requests (structure : list ProjectStructure) : list Req :=
  ps ← structure;
  b ← ps_boards ps;
  [getBoard_request (Board.id b.1)].

(** The position that the loop of [createTasks] has reached at its turn
    [k] (the first is turn 0) when it set out from [start]. *)
Definition position_at (k : nat) (start : Q) : Q :=
  Nat.iter k (λ position, (position + 65536)%Q) start.

(** ** Request bodies

    [restrict o keys]: the object with the fields of [o] that [keys] names,
    in the order of [keys]. *)
Definition restrict (o : list (string * Json)) (keys : list string) : Json :=
  obj ((λ key, (key, o.[key])) <$> keys).

(** ** The board view

    The cards of a list of the board, in the order of the view. *)
Definition cards_in_list (details : BoardWithTaskCounts) (listId : string)
    : list CardWithTaskCounts :=
  sort (ascending (λ card, num_of (Card.position (cw_card card))))
    (filter (λ card, Card.listId (cw_card card) = listId) (bw_cards details)).

(** [at_position key q x]: the position of [x] is the number [q]. *)
Definition at_position {A} (key : A → Number) (q : Number) (x : A) : Prop :=
  number_eqb (key x) q = true.

#[global] Instance at_position_dec {A} (key : A → Number) (q : Number)
    (x : A) : Decision (at_position key q x) :=
  decide (number_eqb (key x) q = true).

(** ** Sample data

    Concrete values on which the definitions are run. *)

Definition no_message : string → Value → string := λ _ _, "".

(** A client whose every call returns the same value. *)
Definition constant_client (v : Value) : Req → unit → Res Value * unit :=
  λ _ w, (Ok v, w).

Definition fresh : Sys unit := mkSys tt [].

Definition sample_stamp : string := "2024-05-01T09:00:00.000Z".

(** A label as a response has it, with the given colour. *)
Definition sample_label (color : string) : list (string * Json) :=
  [ ("id", JStr "7"); ("boardId", JStr "3"); ("name", JNull);
    ("color", JStr color); ("position", JNum 65536);
    ("createdAt", JStr sample_stamp) ].

Definition sample_card : Card.t :=
  Card.mk "41" "3" "12" None "Write report" None 65536 project None None None
    (mkStamps sample_stamp None).

Definition sample_card_json : Json :=
  JObj [ ("id", JStr "41"); ("boardId", JStr "3"); ("listId", JStr "12");
         ("name", JStr "Write report"); ("position", JNum 65536);
         ("type", JStr "project"); ("createdAt", JStr sample_stamp) ].

Definition any_email : string → bool := λ _, true.
Definition no_clock : string → Num := λ _, NaN.

(** A card with the labels "5" and "8". *)
Definition two_labels : LabelService :=
  mkLabelService [("900", "5"); ("901", "8")] 0.

(** A board with an archive list (no name, no position) given first, two
    lists out of order, two cards, two task lists and three tasks. *)
Definition list_json (id : string) (name position : Json) : Json :=
  JObj [ ("id", JStr id); ("boardId", JStr "3"); ("name", name);
         ("position", position); ("createdAt", JStr sample_stamp) ].

Definition task_json (id taskListId : string) (done : bool) : Json :=
  JObj [ ("id", JStr id); ("taskListId", JStr taskListId);
         ("name", JStr "Step"); ("position", JNum 65536);
         ("isCompleted", JBool done); ("createdAt", JStr sample_stamp) ].

Definition taskList_json (id cardId : string) : Json :=
  JObj [ ("id", JStr id); ("cardId", JStr cardId); ("name", JStr "Tasks");
         ("position", JNum 65536); ("createdAt", JStr sample_stamp) ].

Definition sample_board_reply : Json :=
  JObj [ ("item", JObj [ ("id", JStr "3"); ("projectId", JStr "1");
                         ("name", JStr "Sprint"); ("position", JNum 65536);
                         ("createdAt", JStr sample_stamp) ]);
         ("included",
          JObj [ ("lists", JArr [ list_json "10" JNull JNull;
                                  list_json "12" (JStr "Doing") (JNum 131072);
                                  list_json "11" (JStr "To do") (JNum 65536) ]);
                 ("cards", JArr [ card_json "41"; card_json "42" ]);
                 ("taskLists", JArr [ taskList_json "71" "41";
                                      taskList_json "72" "42" ]);
                 ("tasks", JArr [ task_json "81" "71" true;
                                  task_json "82" "72" false;
                                  task_json "83" "71" false;
                                  task_json "84" "79" true ]) ]) ].

(** A service for the tasks of the card "41", which has the task list "71"
    or none: it answers the card, the task list created, the task created. *)
Definition task_client (has_list : bool) (r : Req) (w : unit)
    : Res Value * unit :=
  match method r with
  | GET =>
      (Ok (Some (JObj [ ("item", card_json "41");
                        ("included",
                         JObj [ ("taskLists",
                                 JArr (if has_list
                                       then [taskList_json "71" "41"]
                                       else [])) ]) ])), w)
  | POST =>
      if String.eqb (path r) "/api/cards/41/task-lists"
      then (Ok (Some (JObj [("item", taskList_json "72" "41")])), w)
      else (Ok (Some (JObj [("item", task_json "81" "71" false)])), w)
  | _ => (Throw (not_found r), w)
  end.

(** The task and the task list that the schemas read from its answers. *)
Definition sample_task : Task.t :=
  Task.mk "81" "71" "Step" 65536 false None (mkStamps sample_stamp None).

Definition sample_task_list : TaskList.t :=
  TaskList.mk "71" "41" "Tasks" 65536 None (mkStamps sample_stamp None).

Definition two_tasks : Value :=
  Some (JObj [ ("cardId", JStr "41");
               ("tasks", JArr [ JObj [("name", JStr "Draft")];
                                JObj [("name", JStr "Review")] ]) ]).

(** A service with one project and two boards; the board "3" is the sample
    board, the board "4" has no lists. *)
Definition board_json (id : string) (position : Q) : Json :=
  JObj [ ("id", JStr id); ("projectId", JStr "1"); ("name", JStr "Sprint");
         ("position", JNum position); ("createdAt", JStr sample_stamp) ].

Definition structure_client (r : Req) (w : unit) : Res Value * unit :=
  if String.eqb (path r) "/api/projects"
  then (Ok (Some (JObj [ ("items",
                          JArr [ JObj [ ("id", JStr "1");
                                        ("name", JStr "Platform");
                                        ("createdAt", JStr sample_stamp) ] ]);
                         ("included",
                          JObj [ ("boards", JArr [ board_json "3" 131072;
                                                   board_json "4" 65536 ]) ])
                       ])), w)
  else if String.eqb (path r) "/api/boards/3"
  then (Ok (Some sample_board_reply), w)
  else (Ok (Some (JObj [("item", board_json "4" 65536)])), w).

(** A board whose archive list, of position [null], comes before a list
    whose position the response gives as [1e999], which [JSON.parse] reads
    as [Infinity]. *)
Definition infinite_board_reply : Json :=
  JObj [ ("item", board_json "3" 65536);
         ("included",
          JObj [ ("lists", JArr [ list_json "10" JNull JNull;
                                  list_json "13" (JStr "Later")
                                    (JNum Infinity);
                                  list_json "11" (JStr "To do")
                                    (JNum 65536) ]) ]) ].

(** A client of the service at planka.example whose cached token "stale"
    the service no longer accepts although its expiry is ahead, and a
    service that issues the token "fresh" and answers a call with 401 unless
    [accepts] its bearer token. *)
Definition sample_env : Env :=
  mkEnv (Some "https://planka.example/") (Some "agent@example.org")
    (Some "secret").

Definition any_url : string → bool := λ _, true.

Definition text_of (v : Json) : string :=
  match v with JStr s => s | _ => "" end.

Definition sample_service (accepts : string → bool) (w : Net) (call : Fetch)
    : Outcome * Z :=
  match f_headers call with
  | ("Authorization", bearer) :: _ =>
      if accepts bearer
      then (Responds (mkResponse 200 "OK" (Ok (JObj [("items", JArr [])]))),
            10)
      else (Responds (mkResponse 401 "Unauthorized"
                        (Ok (JObj [("message", JStr "Token expired")]))), 10)
  | _ => (Responds (mkResponse 200 "OK" (Ok (JObj [("item", JStr "fresh")]))),
          20)
  end.

Definition sample_config : ClientConfig :=
  mkClientConfig "https://planka.example" "agent@example.org" "secret".

Definition stale_client : Proc :=
  mkProc (mkPlankaClient (Some sample_config) (Some "stale") 900000)
    (mkNet 1000 []).

(** An environment without password, one whose URL ends in two slashes, and a
    client that has not resolved its configuration. *)
Definition env_without_password : Env :=
  mkEnv (Some "https://planka.example/") (Some "agent@example.org") None.

Definition env_two_slashes : Env :=
  mkEnv (Some "https://planka.example//") (Some "agent@example.org")
    (Some "secret").

Definition new_process : Proc := mkProc new_PlankaClient (mkNet 1000 []).

(** A client whose token has expired, and services that answer every API
    call with the given response, or reject every call. *)
Definition expired_client : Proc :=
  mkProc (mkPlankaClient (Some sample_config) (Some "old") 900)
    (mkNet 1000 []).

Definition answering (r : Response) (w : Net) (call : Fetch) : Outcome * Z :=
  match f_headers call with
  | ("Authorization", _) :: _ => (Responds r, 10)
  | _ => (Responds (mkResponse 200 "OK" (Ok (JObj [("item", JStr "fresh")]))),
          20)
  end.

Definition unreachable (w : Net) (call : Fetch) : Outcome * Z :=
  (Rejects "TypeError", 5).

(** A service that answers every call, that of the token endpoint too, with
    401, and a service whose token endpoint issues the empty string as the
    token. *)
Definition refusing (w : Net) (call : Fetch) : Outcome * Z :=
  (Responds (mkResponse 401 "Unauthorized"
               (Ok (JObj [("message", JStr "Token expired")]))), 10).

Definition empty_token_service (w : Net) (call : Fetch) : Outcome * Z :=
  (Responds (mkResponse 200 "OK" (Ok (JObj [("item", JStr "")]))), 20).

(** A service whose token endpoint answers with a success status and a body
    that is lost while it is read. *)
Definition body_lost : Err := mkErr TypeError "terminated" None.

Definition unreadable_token_reply (w : Net) (call : Fetch) : Outcome * Z :=
  (Responds (mkResponse 200 "OK" (Throw body_lost)), 20).

(** A card whose task lists, tasks and comments come out of order. *)
Definition taskList_at (id cardId : string) (position : Q) : Json :=
  JObj [ ("id", JStr id); ("cardId", JStr cardId); ("name", JStr "Tasks");
         ("position", JNum position); ("createdAt", JStr sample_stamp) ].

Definition task_at (id taskListId : string) (position : Q) : Json :=
  JObj [ ("id", JStr id); ("taskListId", JStr taskListId);
         ("name", JStr "Step"); ("position", JNum position);
         ("isCompleted", JBool false); ("createdAt", JStr sample_stamp) ].

Definition comment_json (id created : string) : Json :=
  JObj [ ("id", JStr id); ("cardId", JStr "41"); ("userId", JStr "1");
         ("text", JStr "Done"); ("createdAt", JStr created) ].

Definition sample_card_reply : Json :=
  JObj [ ("item", card_json "41");
         ("included",
          JObj [ ("taskLists", JArr [ taskList_at "72" "41" 131072;
                                      taskList_at "71" "41" 65536 ]);
                 ("tasks", JArr [ task_at "83" "71" 196608;
                                  task_at "81" "71" 65536;
                                  task_at "82" "71" 131072 ]);
                 ("comments",
                  JArr [ comment_json "91" "2024-05-01T09:00:00.000Z";
                         comment_json "93" "2024-05-03T09:00:00.000Z";
                         comment_json "92" "2024-05-02T09:00:00.000Z" ]) ]) ].

(** A board in which two task lists have the id "71", one of the card "41"
    and one of the card "42", and the task list "73" is of a card whose id
    is empty. *)
Definition duplicate_board_reply : Json :=
  JObj [ ("item", board_json "3" 65536);
         ("included",
          JObj [ ("cards", JArr [ card_json "41"; card_json "42";
                                  card_json "" ]);
                 ("taskLists", JArr [ taskList_at "71" "41" 65536;
                                      taskList_at "71" "42" 131072;
                                      taskList_at "73" "" 196608 ]);
                 ("tasks", JArr [ task_at "81" "71" 65536;
                                  task_at "82" "73" 65536 ]) ]) ].

(** [new Date(s).getTime()] on the three time stamps above. *)
Definition sample_clock (s : string) : Num :=
  if String.eqb s "2024-05-01T09:00:00.000Z" then Fin 1714554000000
  else if String.eqb s "2024-05-02T09:00:00.000Z" then Fin 1714640400000
  else if String.eqb s "2024-05-03T09:00:00.000Z" then Fin 1714726800000
  else NaN.

(** A board with two labels out of order and three cards in two lists. *)
Definition label_at (id : string) (position : Q) : Json :=
  JObj [ ("id", JStr id); ("boardId", JStr "3"); ("name", JNull);
         ("color", JStr "berry-red"); ("position", JNum position);
         ("createdAt", JStr sample_stamp) ].

Definition card_at (id listId : string) (position : Q) : Json :=
  JObj [ ("id", JStr id); ("boardId", JStr "3"); ("listId", JStr listId);
         ("name", JStr "Write report"); ("position", JNum position);
         ("type", JStr "project"); ("createdAt", JStr sample_stamp) ].

Definition sample_labels_reply : Json :=
  JObj [ ("item", board_json "3" 65536);
         ("included",
          JObj [ ("labels", JArr [ label_at "5" 131072; label_at "8" 65536 ]);
                 ("cards", JArr [ card_at "41" "12" 131072;
                                  card_at "42" "11" 65536;
                                  card_at "43" "12" 65536 ]) ]) ].

(** Three tasks, the second with a position of its own. *)
Definition three_tasks : Value :=
  Some (JObj [ ("cardId", JStr "41");
               ("tasks", JArr [ JObj [("name", JStr "Draft")];
                                JObj [("name", JStr "Review");
                                      ("position", JNum 1000)];
                                JObj [("name", JStr "Publish")] ]) ]).

(** A service for [planka_create_card]: it creates the card "41" in the
    list "12", knows the label "5" only, and answers the task requests as
    [task_client] does. *)
Definition card_tool_client (r : Req) (w : unit) : Res Value * unit :=
  match method r with
  | POST =>
      if String.eqb (path r) "/api/lists/12/cards"
      then (Ok (Some (JObj [("item", sample_card_json)])), w)
      else if String.eqb (path r) "/api/cards/41/card-labels"
      then
        match body r with
        | Some (JObj [("labelId", JStr "5")]) =>
            (Ok (Some (JObj [("item", cardLabel_json "41" ("900", "5"))])), w)
        | _ => (Throw (not_found r), w)
        end
      else task_client true r w
  | _ => task_client true r w
  end.

(** The error of [JSON.parse] and of [response.json()] on a text that is
    not JSON. *)
Definition not_JSON : Err :=
  mkErr SyntaxError "Unexpected token < in JSON at position 0" None.

Definition no_JSON : string → Res Json := λ _, Throw not_JSON.

(** A board with the lists of the sample board and the cards "41", "42"
    and "43", of which the first and the last are in the list "12" and the
    second in the archive list "10". *)
Definition sample_view_reply : Json :=
  JObj [ ("item", board_json "3" 65536);
         ("included",
          JObj [ ("lists", JArr [ list_json "10" JNull JNull;
                                  list_json "12" (JStr "Doing") (JNum 131072);
                                  list_json "11" (JStr "To do") (JNum 65536) ]);
                 ("cards", JArr [ card_at "41" "12" 131072;
                                  card_at "42" "10" 65536;
                                  card_at "43" "12" 65536 ]);
                 ("taskLists", JArr [ taskList_json "71" "41" ]);
                 ("tasks", JArr [ task_json "81" "71" true;
                                  task_json "83" "71" false ]) ]) ].

(** The JSON text of the array of the names "Draft" and "Review", the
    double quote written by its code, and [JSON.parse] on the texts of the
    samples: it gives the array for this text and throws for the text
    "Draft, Review", which is not JSON (no other text is asked for). *)
Definition double_quote : string := String (Ascii.ascii_of_nat 34) "".

Definition names_text : string :=
  "[" +:+ double_quote +:+ "Draft" +:+ double_quote +:+ ", "
  +:+ double_quote +:+ "Review" +:+ double_quote +:+ "]".

Definition parse_sample (text : string) : Res Json :=
  if String.eqb text names_text then Ok (JArr [JStr "Draft"; JStr "Review"])
  else Throw not_JSON.

(** * Properties *)

(** ** Schemas *)

Lemma z_enum_Some values v s : z_enum values v = Some s → s ∈ values.
Proof.
  unfold z_enum. intros H. destruct (z_string v) as [s'|]; simpl in H; [|done].
  destruct (bool_decide_reflect (s' ∈ values)); congruence.
Qed.

Lemma z_enum_unknown values c :
  c ∉ values → z_enum values (Some (JStr c)) = None.
Proof.
  intros H. unfold z_enum; simpl.
  destruct (bool_decide_reflect (c ∈ values)); done.
Qed.

Lemma CreateLabelSchema_color v a :
  CreateLabelSchema v = Some a → cl_color a ∈ LabelColors.
Proof.
  unfold CreateLabelSchema, z_object. intros H.
  destruct v as [[]|]; try done.
  simplify_option_eq. simpl. eapply z_enum_Some; eassumption.
Qed.

Lemma UpdateLabelSchema_color v a c :
  UpdateLabelSchema v = Some a → ul_color a = Some c → c ∈ LabelColors.
Proof.
  unfold UpdateLabelSchema, z_object. intros H Hc.
  destruct v as [[]|]; try done.
  simplify_option_eq.
  match goal with
  | H : z_optional LabelColorSchema _ = Some _ |- _ =>
      unfold z_optional in H; destruct (_.["color"]) eqn:E;
      simplify_option_eq
  end.
  eapply z_enum_Some; eassumption.
Qed.

Lemma CreateLabelSchema_unknown o c :
  o.["color"] = Some (JStr c) → c ∉ LabelColors →
  CreateLabelSchema (Some (JObj o)) = None.
Proof.
  intros Ho Hc. unfold CreateLabelSchema, z_object.
  destruct (z_string o.["boardId"]); simpl; [|done].
  destruct (z_string_min1 o.["name"]); simpl; [|done].
  rewrite Ho. unfold LabelColorSchema. by rewrite z_enum_unknown.
Qed.

Lemma UpdateLabelSchema_unknown o c :
  o.["color"] = Some (JStr c) → c ∉ LabelColors →
  UpdateLabelSchema (Some (JObj o)) = None.
Proof.
  intros Ho Hc. unfold UpdateLabelSchema, z_object.
  destruct (z_optional z_string_min1 o.["name"]); simpl; [|done].
  rewrite Ho. unfold LabelColorSchema, z_optional. by rewrite z_enum_unknown.
Qed.

(** The colour of a label that is read is the string the object has, and
    whether the object is accepted does not depend on that string: an
    object that differs from an accepted one in its colour only is accepted
    too. *)
Lemma LabelSchema_any_color o o' c c' l :
  (∀ k, k ≠ "color" → o.[k] = o'.[k]) →
  o.["color"] = Some (JStr c) → o'.["color"] = Some (JStr c') →
  LabelSchema (Some (JObj o)) = Some l →
  Label.color l = c ∧
  LabelSchema (Some (JObj o'))
  = Some (Label.mk (Label.id l) (Label.boardId l) (Label.name l) c'
            (Label.position l) (Label.at_ l)).
Proof.
  intros Hk Hc Hc'. unfold LabelSchema, z_object, stamps.
  rewrite <- (Hk "id"), <- (Hk "boardId"), <- (Hk "name"),
    <- (Hk "position"), <- (Hk "createdAt"), <- (Hk "updatedAt")
    by discriminate.
  rewrite Hc, Hc'. simpl. intros H. simplify_option_eq. by split.
Qed.

(** A value that a schema rejects makes the operation throw before it
    reaches the client: nothing is sent. *)
Lemma parse_None {W A} zod_message name (schema : Schema A) v (s : Sys W) :
  schema v = None →
  parse zod_message name schema v s
  = (Throw (mkErr ZodError (zod_message name v) None), s).
Proof. intros H. unfold parse. by rewrite H. Qed.

Lemma parse_Some {W A} zod_message name (schema : Schema A) v a (s : Sys W) :
  schema v = Some a → parse zod_message name schema v s = (Ok a, s).
Proof. intros H. unfold parse. by rewrite H. Qed.

Lemma createLabel_rejected {W} client zod_message input (s : Sys W) :
  CreateLabelSchema input = None →
  createLabel client zod_message input s
  = (Throw (mkErr ZodError (zod_message "CreateLabelSchema" input) None), s).
Proof. intros H. unfold createLabel, bind. by rewrite parse_None. Qed.

Lemma updateLabel_rejected {W} client zod_message labelId input (s : Sys W) :
  UpdateLabelSchema input = None →
  updateLabel client zod_message labelId input s
  = (Throw (mkErr ZodError (zod_message "UpdateLabelSchema" input) None), s).
Proof. intros H. unfold updateLabel, bind. by rewrite parse_None. Qed.

(** C9. The colour of a label is checked against the closed palette when a
    label is created or updated: what the write schemas accept has a colour
    of the palette, and a colour outside it makes [createLabel] and
    [updateLabel] throw the validation error with nothing sent.  A label
    that is read may have any string as its colour: the colour read is the
    string the object has, and an object that differs from an accepted one
    in the string of its colour only is accepted too. *)
Theorem label_color_closed_on_write_open_on_read :
  (∀ v a, CreateLabelSchema v = Some a → cl_color a ∈ LabelColors) ∧
  (∀ v a c, UpdateLabelSchema v = Some a → ul_color a = Some c →
            c ∈ LabelColors) ∧
  (∀ W client zod_message labelId o c (s : Sys W),
     o.["color"] = Some (JStr c) → c ∉ LabelColors →
     createLabel client zod_message (Some (JObj o)) s
     = (Throw (mkErr ZodError
                 (zod_message "CreateLabelSchema" (Some (JObj o))) None), s) ∧
     updateLabel client zod_message labelId (Some (JObj o)) s
     = (Throw (mkErr ZodError
                 (zod_message "UpdateLabelSchema" (Some (JObj o))) None), s)) ∧
  (∀ o o' c c' l,
     (∀ k, k ≠ "color" → o.[k] = o'.[k]) →
     o.["color"] = Some (JStr c) → o'.["color"] = Some (JStr c') →
     LabelSchema (Some (JObj o)) = Some l →
     Label.color l = c ∧
     LabelSchema (Some (JObj o'))
     = Some (Label.mk (Label.id l) (Label.boardId l) (Label.name l) c'
               (Label.position l) (Label.at_ l))).
Proof.
  split; [exact CreateLabelSchema_color|].
  split; [exact UpdateLabelSchema_color|].
  split; [|exact LabelSchema_any_color].
  intros W client zod_message labelId o c s Ho Hc. split.
  - apply createLabel_rejected. by eapply CreateLabelSchema_unknown.
  - apply updateLabel_rejected. by eapply UpdateLabelSchema_unknown.
Qed.

(** The colour "summer-sky" is not of the palette: a label cannot be created
    with it, and the label of a response that has it is read, as the same
    label with the colour "berry-red" is. *)
Lemma label_color_witness :
  createLabel (constant_client None) no_message
    (Some (JObj [ ("boardId", JStr "3"); ("name", JStr "Later");
                  ("color", JStr "summer-sky") ])) fresh
  = (Throw (mkErr ZodError "" None), fresh) ∧
  LabelSchema (Some (JObj (sample_label "summer-sky")))
  = Some (Label.mk "7" "3" None "summer-sky" 65536
            (mkStamps sample_stamp None)).
Proof.
  destruct label_color_closed_on_write_open_on_read as (_ & _ & Hw & Hr).
  split.
  - refine (proj1 (Hw unit _ _ "" _ "summer-sky" _ _ _)); [reflexivity|].
    apply (proj1 (bool_decide_eq_false _)). vm_compute. reflexivity.
  - refine (proj2 (Hr (sample_label "berry-red") (sample_label "summer-sky")
                     "berry-red" "summer-sky"
                     (Label.mk "7" "3" None "berry-red" 65536
                        (mkStamps sample_stamp None)) _ eq_refl eq_refl
                     eq_refl)).
    intros k Hk. simpl. by destruct (String.eqb_spec k "color").
Defined.

(** ** Sequencing *)

Lemma bind_Ok {S A B} (m : M S A) (k : A → M S B) s a s' :
  m s = (Ok a, s') → bind m k s = k a s'.
Proof. intros H. unfold bind. by rewrite H. Qed.

Lemma bind_Throw {S A B} (m : M S A) (k : A → M S B) s e s' :
  m s = (Throw e, s') → bind m k s = (Throw e, s').
Proof. intros H. unfold bind. by rewrite H. Qed.

(** A call through the client is recorded, whatever it returns. *)
Lemma through_client_sent {W} client r (s : Sys W) :
  sent (through_client client r s).2 = (sent s ++ [r])%list.
Proof. unfold through_client. by destruct (client r (remote s)). Qed.

Lemma parse_state {W A} zod_message name (schema : Schema A) v (s : Sys W) :
  (parse zod_message name schema v s).2 = s.
Proof. unfold parse. by destruct (schema v). Qed.

(** ** Card creation *)

Lemma CreateCardSchema_type_default o :
  o.["type"] = None →
  CreateCardSchema (Some (JObj o))
  = CreateCardSchema (Some (JObj (("type", JStr "project") :: o))).
Proof.
  intros H. unfold CreateCardSchema, z_object. simpl. by rewrite H.
Qed.

Lemma CreateCardSchema_type_invalid o t :
  o.["type"] = Some t → t ≠ JStr "project" → t ≠ JStr "story" →
  CreateCardSchema (Some (JObj o)) = None.
Proof.
  intros H H1 H2. unfold CreateCardSchema, z_object.
  destruct (z_string o.["listId"]); simpl; [|done].
  destruct (z_string_min1 o.["name"]); simpl; [|done].
  destruct (z_optional z_string o.["description"]); simpl; [|done].
  destruct (z_default z_number 65536%Q o.["position"]); simpl; [|done].
  rewrite H. unfold z_default, CardTypeSchema, z_enum.
  destruct t as [| | |c| |]; simpl; try done.
  destruct (bool_decide_reflect (c ∈ ["project"; "story"])) as [Hin|]; [|done].
  set_unfold in Hin. destruct Hin as [->|[->|[]]]; congruence.
Qed.

Lemma createCard_rejected {W} client zod_message input (s : Sys W) :
  CreateCardSchema input = None →
  createCard client zod_message input s
  = (Throw (mkErr ZodError (zod_message "CreateCardSchema" input) None), s).
Proof. intros H. unfold createCard, bind. by rewrite parse_None. Qed.

Lemma CreateCardSchema_without_type o listId name description position
    dueDate :
  o.["type"] = None →
  z_string o.["listId"] = Some listId →
  z_string_min1 o.["name"] = Some name →
  z_optional z_string o.["description"] = Some description →
  z_default z_number 65536%Q o.["position"] = Some position →
  z_optional z_string o.["dueDate"] = Some dueDate →
  CreateCardSchema (Some (JObj o))
  = Some (mkCreateCard listId name description position project dueDate).
Proof.
  intros Ht H1 H2 H3 H4 H5. unfold CreateCardSchema, z_object.
  by rewrite H1, H2, H3, H4, H5, Ht.
Qed.

Lemma CreateCardSchema_field_invalid o :
  z_string o.["listId"] = None ∨ z_string_min1 o.["name"] = None ∨
  z_optional z_string o.["description"] = None ∨
  z_default z_number 65536%Q o.["position"] = None ∨
  z_optional z_string o.["dueDate"] = None →
  CreateCardSchema (Some (JObj o)) = None.
Proof.
  unfold CreateCardSchema, z_object.
  intros [H|[H|[H|[H|H]]]];
    repeat match goal with
           | |- context [?f ≫= _] => destruct f; simpl; try done
           | |- (?x ≫= _) = None => destruct x; simpl; try done
           end.
Qed.

(** What [createCard] does with an input that passes the validation: the
    request is made and the card is read from the answer. *)
Lemma createCard_run {W} client zod_message input v (s : Sys W) :
  CreateCardSchema input = Some v →
  createCard client zod_message input s
  = (parsed_reply zod_message "CardResponse" CardResponse
       (client (createCard_request v) (remote s)).1,
     mkSys (client (createCard_request v) (remote s)).2
       (sent s ++ [createCard_request v])%list).
Proof.
  intros Hv. unfold createCard.
  rewrite (bind_Ok _ _ _ _ _ (parse_Some _ _ _ _ _ _ Hv)).
  unfold bind, client_post, through_client.
  fold (createCard_request v).
  destruct (client (createCard_request v) (remote s)) as [[response|e] w];
    [|done].
  unfold parse. simpl. by destruct (CardResponse response).
Qed.

(** C3, as the code has it.  An input without [type] is validated as the
    input with [type: "project"].  When its other fields are valid, the
    card is requested with the type "project" and what the service answers
    is the outcome: no validation error is raised for the missing type.
    When another field is invalid, whether [type] is given or not, or when
    a [type] is given that is neither "project" nor "story", [createCard]
    throws the validation error and nothing is sent. *)
Theorem createCard_type_defaults_to_project :
  ∀ W client zod_message o (s : Sys W),
    (o.["type"] = None →
     CreateCardSchema (Some (JObj o))
     = CreateCardSchema (Some (JObj (("type", JStr "project") :: o))) ∧
     ∀ listId name description position dueDate,
       z_string o.["listId"] = Some listId →
       z_string_min1 o.["name"] = Some name →
       z_optional z_string o.["description"] = Some description →
       z_default z_number 65536%Q o.["position"] = Some position →
       z_optional z_string o.["dueDate"] = Some dueDate →
       let request :=
         createCard_request
           (mkCreateCard listId name description position project dueDate) in
       property "type" (default JNull (body request))
       = Some (JStr "project") ∧
       createCard client zod_message (Some (JObj o)) s
       = (parsed_reply zod_message "CardResponse" CardResponse
            (client request (remote s)).1,
          mkSys (client request (remote s)).2 (sent s ++ [request])%list)) ∧
    (z_string o.["listId"] = None ∨ z_string_min1 o.["name"] = None ∨
     z_optional z_string o.["description"] = None ∨
     z_default z_number 65536%Q o.["position"] = None ∨
     z_optional z_string o.["dueDate"] = None →
     createCard client zod_message (Some (JObj o)) s
     = (Throw (mkErr ZodError
                 (zod_message "CreateCardSchema" (Some (JObj o))) None), s)) ∧
    (∀ t, o.["type"] = Some t → t ≠ JStr "project" → t ≠ JStr "story" →
          createCard client zod_message (Some (JObj o)) s
          = (Throw (mkErr ZodError
                      (zod_message "CreateCardSchema" (Some (JObj o))) None),
             s)).
Proof.
  intros W client zod_message o s. split; [|split].
  - intros H. split; [by apply CreateCardSchema_type_default|].
    intros listId name description position dueDate H1 H2 H3 H4 H5 request.
    split.
    + subst request. unfold createCard_request, obj. simpl.
      by destruct description, dueDate.
    + apply createCard_run. by apply CreateCardSchema_without_type.
  - intros H. apply createCard_rejected.
    by apply CreateCardSchema_field_invalid.
  - intros t H H1 H2. apply createCard_rejected.
    by eapply CreateCardSchema_type_invalid.
Qed.

(** An input without [type] is sent with the type "project" and the card of
    the answer is returned; without [type] and with an empty name, and with
    the type "epic", nothing is sent. *)
Lemma createCard_type_witness :
  createCard (constant_client (Some (JObj [("item", sample_card_json)])))
    no_message
    (Some (JObj [ ("listId", JStr "12"); ("name", JStr "Write report") ]))
    fresh
  = (Ok sample_card,
     mkSys tt
       [ mkReq POST "/api/lists/12/cards"
           (Some (JObj [ ("name", JStr "Write report");
                         ("position", JNum 65536);
                         ("type", JStr "project") ])) ]) ∧
  createCard (constant_client None) no_message
    (Some (JObj [ ("listId", JStr "12"); ("name", JStr "") ])) fresh
  = (Throw (mkErr ZodError "" None), fresh) ∧
  createCard (constant_client None) no_message
    (Some (JObj [ ("listId", JStr "12"); ("name", JStr "Write report");
                  ("type", JStr "epic") ])) fresh
  = (Throw (mkErr ZodError "" None), fresh).
Proof.
  split; [|split].
  - exact (proj2 (proj2 (proj1 (createCard_type_defaults_to_project unit
              (constant_client (Some (JObj [("item", sample_card_json)])))
              no_message
              [ ("listId", JStr "12"); ("name", JStr "Write report") ] fresh)
              eq_refl) "12" "Write report" None 65536%Q None
              eq_refl eq_refl eq_refl eq_refl eq_refl)).
  - refine (proj1 (proj2 (createCard_type_defaults_to_project unit _ _
              [ ("listId", JStr "12"); ("name", JStr "") ] fresh)) _).
    right. by left.
  - refine (proj2 (proj2 (createCard_type_defaults_to_project unit _ _ _
              fresh)) (JStr "epic") _ _ _);
      [reflexivity|discriminate|discriminate].
Defined.

(** C3 as stated fails: this input has no [type], passes the validation and
    is sent, and the card the service answers with is returned. *)
Lemma createCard_without_type_is_sent :
  [ ("listId", JStr "12"); ("name", JStr "Write report") ].["type"] = None ∧
  createCard (constant_client (Some (JObj [("item", sample_card_json)])))
    no_message
    (Some (JObj [ ("listId", JStr "12"); ("name", JStr "Write report") ]))
    fresh
  = (Ok sample_card,
     mkSys tt
       [ mkReq POST "/api/lists/12/cards"
           (Some (JObj [ ("name", JStr "Write report");
                         ("position", JNum 65536);
                         ("type", JStr "project") ])) ]).
Proof. split; reflexivity. Qed.

(** ** Reading a card *)

Lemma member_state {W} v k (s : Sys W) : (member v k s).2 = s.
Proof. unfold member. by destruct v as [[]|]. Qed.

Section getCard_facts.
Context {W : Type} (client : Req → W → Res Value * W).
Context (is_email : string → bool) (getTime : string → Num).
Context (zod_message : string → Value → string).

(** [getCard] makes one call, whatever comes of it. *)
Lemma getCard_state cardId (s : Sys W) :
  (getCard client is_email getTime zod_message cardId s).2
  = (through_client client (getCard_request cardId) s).2.
Proof.
  unfold getCard, bind, client_get, getCard_request.
  destruct (through_client _ _ s) as [[r|e] s1]; simpl; [|done].
  pose proof (parse_state zod_message "CardResponse" CardResponse r s1) as Hp.
  destruct (parse _ _ _ r s1) as [[c|e] s2]; simpl in *; subst; [|done].
  pose proof (member_state r "included" s1) as Hm.
  destruct (member r "included" s1) as [[inc|e] s3]; simpl in *; subst; [|done].
  pose proof (parse_state zod_message "CardIncludedSchema"
                (CardIncludedSchema is_email) (or_empty_object inc) s1) as Hq.
  by destruct (parse _ _ _ (or_empty_object inc) s1) as [[i|e] s4];
    simpl in *; subst.
Qed.

Lemma getCard_sent cardId (s : Sys W) :
  sent (getCard client is_email getTime zod_message cardId s).2
  = (sent s ++ [getCard_request cardId])%list.
Proof. rewrite getCard_state. apply through_client_sent. Qed.
End getCard_facts.

(** ** Removing a label from a card *)

Lemma find_label_None (labelId : string) (l : list CardLabel.t) :
  (∀ cl, cl ∈ l → CardLabel.labelId cl ≠ labelId) →
  find (λ cl, String.eqb (CardLabel.labelId cl) labelId) l = None.
Proof.
  induction l as [|x l IH]; intros H; simpl; [done|].
  destruct (String.eqb_spec (CardLabel.labelId x) labelId) as [E|_].
  - exfalso. eapply H; [|exact E]. by left.
  - apply IH. intros cl Hcl. apply H. by right.
Qed.

Lemma find_label_Some (labelId : string) (l : list CardLabel.t) :
  (∃ cl, cl ∈ l ∧ CardLabel.labelId cl = labelId) →
  ∃ cl, find (λ cl, String.eqb (CardLabel.labelId cl) labelId) l = Some cl ∧
        cl ∈ l ∧ CardLabel.labelId cl = labelId.
Proof.
  induction l as [|x l IH]; intros (cl & Hin & Hcl).
  - by apply not_elem_of_nil in Hin.
  - simpl. destruct (String.eqb_spec (CardLabel.labelId x) labelId) as [E|N].
    + exists x. split; [done|]. split; [by left|done].
    + apply elem_of_cons in Hin as [->|Hin]; [done|].
      destruct IH as (cl' & Hf & Hin' & Hl'); [by exists cl|].
      exists cl'. split; [done|]. split; [by right|done].
Qed.

Section removeLabelFromCard_facts.
Context {W : Type} (client : Req → W → Res Value * W).
Context (is_email : string → bool) (getTime : string → Num).
Context (zod_message : string → Value → string).

Lemma client_delete_run path (s : Sys W) r w :
  client (mkReq DELETE path None) (remote s) = (r, w) →
  client_delete client path s
  = (match r with Ok _ => Ok tt | Throw e => Throw e end,
     mkSys w (sent s ++ [mkReq DELETE path None])%list).
Proof.
  intros H. unfold client_delete, bind, through_client. rewrite H.
  by destruct r.
Qed.

(** C7. After the card is fetched: when none of its card labels has the
    label id asked for, the operation returns with the fetch as its only
    request; when one has, the direct delete of that record is requested
    first, its success ends the operation, its failure (whatever the error)
    is followed by the nested delete, and the operation throws only what the
    nested delete throws. *)
Theorem removeLabelFromCard_no_match_or_fallback :
  ∀ cardId labelId (s s1 : Sys W) details,
    getCard client is_email getTime zod_message cardId s = (Ok details, s1) →
    ((∀ cl, cl ∈ cd_cardLabels details → CardLabel.labelId cl ≠ labelId) →
     removeLabelFromCard client is_email getTime zod_message cardId labelId s
     = (Ok tt, s1) ∧
     sent s1 = (sent s ++ [getCard_request cardId])%list) ∧
    ((∃ cl, cl ∈ cd_cardLabels details ∧ CardLabel.labelId cl = labelId) →
     ∃ cl, cl ∈ cd_cardLabels details ∧ CardLabel.labelId cl = labelId ∧
       let direct := delete_direct_request (CardLabel.id cl) in
       let nested := delete_nested_request cardId (CardLabel.id cl) in
       ∀ r1 w1, client direct (remote s1) = (r1, w1) →
         match r1 with
         | Ok _ =>
             removeLabelFromCard client is_email getTime zod_message
               cardId labelId s
             = (Ok tt, mkSys w1 (sent s1 ++ [direct])%list)
         | Throw _ =>
             ∀ r2 w2, client nested w1 = (r2, w2) →
               removeLabelFromCard client is_email getTime zod_message
                 cardId labelId s
               = (match r2 with Ok _ => Ok tt | Throw e => Throw e end,
                  mkSys w2 (sent s1 ++ [direct; nested])%list)
         end).
Proof.
  intros cardId labelId s s1 details Hget. split.
  - intros Hnone. split.
    + unfold removeLabelFromCard. rewrite (bind_Ok _ _ _ _ _ Hget).
      by rewrite find_label_None.
    + pose proof (getCard_sent client is_email getTime zod_message cardId s)
        as Hs. by rewrite Hget in Hs.
  - intros Hex. destruct (find_label_Some _ _ Hex) as (cl & Hf & Hin & Hl).
    exists cl. split; [done|]. split; [done|].
    intros direct nested r1 w1 H1.
    unfold removeLabelFromCard. rewrite (bind_Ok _ _ _ _ _ Hget), Hf.
    unfold try_catch.
    rewrite (client_delete_run _ s1 r1 w1 H1).
    destruct r1 as [v|e]; [done|].
    intros r2 w2 H2.
    rewrite (client_delete_run _ (mkSys w1 _) r2 w2 H2).
    simpl. by rewrite <- app_assoc.
Qed.
End removeLabelFromCard_facts.

(** On the reference service that serves the nested path only: the label
    "6" is not on the card and only the card is fetched; the label "5" is
    removed by the nested delete after the direct one failed. *)
Lemma removeLabelFromCard_witness :
  removeLabelFromCard (label_service false "41") any_email no_clock no_message
    "41" "6" (mkSys two_labels [])
  = (Ok tt, mkSys two_labels [getCard_request "41"]) ∧
  removeLabelFromCard (label_service false "41") any_email no_clock no_message
    "41" "5" (mkSys two_labels [])
  = (Ok tt,
     mkSys (mkLabelService [("901", "8")] 0)
       [ getCard_request "41"; delete_direct_request "900";
         delete_nested_request "41" "900" ]).
Proof.
  pose (s1 := mkSys two_labels [getCard_request "41"]).
  pose (stamp := mkStamps "2024-05-01T09:00:00.000Z" None).
  pose (details :=
    mkCardDetails
      (Card.mk "41" "3" "12" None "Write report" None 65536 project None None
         None stamp)
      [] [] [] []
      [CardLabel.mk "900" "41" "5" stamp; CardLabel.mk "901" "41" "8" stamp]
      []).
  assert (Hget : getCard (label_service false "41") any_email no_clock
                   no_message "41" (mkSys two_labels []) = (Ok details, s1))
    by reflexivity.
  split.
  - refine (proj1 (proj1 (removeLabelFromCard_no_match_or_fallback
              _ _ _ _ "41" "6" _ s1 details Hget) _)).
    intros cl Hcl. simpl in Hcl.
    repeat (apply elem_of_cons in Hcl as [->|Hcl]; [discriminate|]).
    by apply not_elem_of_nil in Hcl.
  - destruct (proj2 (removeLabelFromCard_no_match_or_fallback
              _ _ _ _ "41" "5" _ s1 details Hget)) as (cl & Hin & Hl & Hrun).
    { exists (CardLabel.mk "900" "41" "5" stamp). split; [by left|done]. }
    simpl in Hin.
    apply elem_of_cons in Hin as [->|Hin].
    + exact (Hrun _ _ eq_refl _ _ eq_refl).
    + apply elem_of_cons in Hin as [->|Hin]; [discriminate|].
      by apply not_elem_of_nil in Hin.
Defined.

(** ** The reference service *)

Lemma z_array_map {A B} (schema : Schema B) (to_json : A → Json)
    (read : A → B) (l : list A) :
  (∀ x, schema (Some (to_json x)) = Some (read x)) →
  z_array schema (Some (JArr (map to_json l))) = Some (map read l).
Proof.
  intros H. unfold z_array. induction l as [|x l IH]; [done|].
  simpl. rewrite H. simpl. by rewrite IH.
Qed.

Lemma CardResponse_card_reply card w :
  CardResponse (Some (card_reply card w)) = Some (card_record card).
Proof. reflexivity. Qed.

Lemma CardIncludedSchema_card_reply is_email card w :
  CardIncludedSchema is_email
    (Some (JObj [ ("cardLabels",
                   JArr (map (cardLabel_json card) (attached w))) ]))
  = Some (mkCardIncluded None None None None
            (Some (map (cardLabel_record card) (attached w))) None None).
Proof.
  unfold CardIncludedSchema, z_object. cbn [assoc String.eqb Ascii.eqb Bool.eqb].
  unfold z_optional.
  rewrite (z_array_map CardLabelSchema (cardLabel_json card)
             (cardLabel_record card)); [reflexivity|].
  intros j. reflexivity.
Qed.

Lemma label_service_GET direct card w :
  label_service direct card (getCard_request card) w
  = (Ok (Some (card_reply card w)), w).
Proof. unfold label_service. simpl. by rewrite String.eqb_refl. Qed.

Lemma label_service_getCard direct card is_email getTime zod_message w log :
  getCard (label_service direct card) is_email getTime zod_message card
    (mkSys w log)
  = (Ok (mkCardDetails (card_record card) [] [] [] []
           (map (cardLabel_record card) (attached w)) []),
     mkSys w (log ++ [getCard_request card])%list).
Proof.
  unfold getCard, client_get.
  erewrite bind_Ok; cycle 1.
  { unfold through_client. fold (getCard_request card).
    by rewrite label_service_GET. }
  erewrite bind_Ok; [|by apply parse_Some, CardResponse_card_reply].
  erewrite bind_Ok; [|reflexivity].
  erewrite bind_Ok;
    [|by apply parse_Some, (CardIncludedSchema_card_reply is_email card w)].
  reflexivity.
Qed.

(** ** What the operations send *)

Section sends_facts.
Context {W : Type} (P : Req → Prop).
Implicit Types s : Sys W.

Lemma sends_ret {A} (a : A) : sends (W:=W) P (ret a).
Proof. intros s. exists []. by rewrite app_nil_r. Qed.

Lemma sends_throw {A} e : sends (W:=W) (A:=A) P (throw e).
Proof. intros s. exists []. by rewrite app_nil_r. Qed.

Lemma sends_bind {A B} (m : M (Sys W) A) (k : A → M (Sys W) B) :
  sends P m → (∀ a, sends P (k a)) → sends P (bind m k).
Proof.
  intros Hm Hk s. destruct (Hm s) as (l1 & E1 & F1).
  unfold bind. destruct (m s) as [[a|e] s1]; simpl in *.
  - destruct (Hk a s1) as (l2 & E2 & F2). exists (l1 ++ l2)%list.
    rewrite E2, E1, <- app_assoc. split; [done|]. by apply Forall_app.
  - by exists l1.
Qed.

Lemma sends_try_catch {A} (m : M (Sys W) A) (h : Err → M (Sys W) A) :
  sends P m → (∀ e, sends P (h e)) → sends P (try_catch m h).
Proof.
  intros Hm Hh s. destruct (Hm s) as (l1 & E1 & F1).
  unfold try_catch. destruct (m s) as [[a|e] s1]; simpl in *.
  - by exists l1.
  - destruct (Hh e s1) as (l2 & E2 & F2). exists (l1 ++ l2)%list.
    rewrite E2, E1, <- app_assoc. split; [done|]. by apply Forall_app.
Qed.

Lemma sends_through_client client r :
  P r → sends P (through_client (W:=W) client r).
Proof.
  intros Hr s. exists [r]. rewrite through_client_sent.
  split; [done|]. by constructor.
Qed.

Lemma sends_parse {A} zod_message name (schema : Schema A) v :
  sends (W:=W) P (parse zod_message name schema v).
Proof. intros s. exists []. by rewrite parse_state, app_nil_r. Qed.

Lemma sends_member v k : sends (W:=W) P (member v k).
Proof. intros s. exists []. by rewrite member_state, app_nil_r. Qed.

Lemma sends_for_of {A} (xs : list A) (body : A → M (Sys W) unit) :
  (∀ x, x ∈ xs → sends P (body x)) → sends P (for_of xs body).
Proof.
  induction xs as [|x xs IH]; intros H; simpl.
  - apply sends_ret.
  - apply sends_bind; [apply H; by left|].
    intros _. apply IH. intros y Hy. apply H. by right.
Qed.
End sends_facts.


Section label_operations.
Context {W : Type} (client : Req → W → Res Value * W).
Context (is_email : string → bool) (getTime : string → Num).
Context (zod_message : string → Value → string).

Lemma sends_getCard (P : Req → Prop) cardId :
  P (getCard_request cardId) →
  sends P (getCard client is_email getTime zod_message cardId).
Proof.
  intros H. unfold getCard, client_get.
  apply sends_bind; [by apply sends_through_client|]. intros response.
  apply sends_bind; [apply sends_parse|]. intros parsed.
  apply sends_bind; [apply sends_member|]. intros inc.
  apply sends_bind; [apply sends_parse|]. intros included.
  apply sends_ret.
Qed.

Lemma sends_client_delete (P : Req → Prop) path :
  P (mkReq DELETE path None) → sends P (client_delete client path).
Proof.
  intros H. unfold client_delete.
  apply sends_bind; [by apply sends_through_client|]. intros _.
  apply sends_ret.
Qed.

Lemma sends_removeLabelFromCard cardId labelId :
  sends (is_removal cardId)
    (removeLabelFromCard client is_email getTime zod_message cardId labelId).
Proof.
  unfold removeLabelFromCard.
  apply sends_bind; [apply sends_getCard; by left|]. intros details.
  destruct (find _ _) as [cl|]; [|apply sends_ret].
  apply sends_try_catch; [|intros _]; apply sends_client_delete;
    right; exists (CardLabel.id cl); [by left|by right].
Qed.

Lemma AddLabelToCardSchema_pair cardId labelId :
  AddLabelToCardSchema
    (Some (obj [("cardId", str cardId); ("labelId", str labelId)]))
  = Some (mkAddLabelToCard cardId labelId).
Proof. reflexivity. Qed.

(** Attaching a label makes one request, whatever comes of it. *)
Lemma addLabelToCard_state cardId labelId (s : Sys W) :
  (addLabelToCard client zod_message
     (Some (obj [("cardId", str cardId); ("labelId", str labelId)])) s).2
  = (through_client client (add_label_request cardId labelId) s).2.
Proof.
  unfold addLabelToCard.
  rewrite (bind_Ok _ _ _ _ _
             (parse_Some _ _ _ _ _ _ (AddLabelToCardSchema_pair _ _))).
  unfold bind, client_post. simpl. fold (add_label_request cardId labelId).
  destruct (through_client _ _ s) as [[r|e] s1]; simpl; [|done].
  pose proof (parse_state zod_message "CardLabelResponse" CardLabelResponse
                r s1) as Hp.
  by destruct (parse _ _ _ r s1) as [[c|e] s2]; simpl in *; subst.
Qed.

(** One turn of the loop of additions: the error of an addition is
    swallowed when its message has the word "already", and thrown on
    otherwise. *)
Lemma add_tolerant_run cardId labelId (s : Sys W) :
  add_tolerant client zod_message cardId labelId s
  = match addLabelToCard client zod_message
            (Some (obj [("cardId", str cardId); ("labelId", str labelId)])) s
    with
    | (Ok _, s') => (Ok tt, s')
    | (Throw e, s') =>
        (if includes "already" (message e) then Ok tt else Throw e, s')
    end.
Proof.
  unfold add_tolerant, try_catch, bind.
  destruct (addLabelToCard _ _ _ s) as [[c|e] s']; [done|].
  by destruct (includes "already" (message e)).
Qed.

Lemma add_tolerant_state cardId labelId (s : Sys W) :
  (add_tolerant client zod_message cardId labelId s).2
  = (through_client client (add_label_request cardId labelId) s).2.
Proof.
  rewrite add_tolerant_run, <- addLabelToCard_state.
  destruct (addLabelToCard _ _ _ s) as [[c|e] s']; [done|].
  by destruct (includes "already" (message e)).
Qed.

Lemma sends_add_tolerant cardId labelId :
  sends (is_addition cardId) (add_tolerant client zod_message cardId labelId).
Proof.
  intros s. exists [add_label_request cardId labelId].
  rewrite add_tolerant_state, through_client_sent. split; [done|].
  constructor; [by exists labelId|done].
Qed.

(** The two guarded loops of [setCardLabels] are the loops over the lists,
    an absent list counting as an empty one. *)
Lemma guarded_for_of {A} (ids : option (list A)) (body : A → M (Sys W) unit) :
  match ids with
  | Some ids => if (0 <? length ids)%nat then for_of ids body else ret tt
  | None => ret tt
  end = for_of (default [] ids) body.
Proof. by destruct ids as [[|x l]|]. Qed.

Lemma setCardLabels_phases cardId addLabelIds removeLabelIds :
  setCardLabels client is_email getTime zod_message cardId addLabelIds
    removeLabelIds
  = bind (for_of (default [] removeLabelIds)
            (removeLabelFromCard client is_email getTime zod_message cardId))
      (λ _, for_of (default [] addLabelIds)
              (add_tolerant client zod_message cardId)).
Proof. unfold setCardLabels. by rewrite !guarded_for_of. Qed.
End label_operations.

(** ** Labels on the reference service *)

Lemma strip_prefix_both a b c :
  strip_prefix (a +:+ b) (a +:+ c) = strip_prefix b c.
Proof.
  induction a as [|x a IH]; simpl; [done|]. by rewrite Ascii.eqb_refl.
Qed.

Lemma strip_prefix_app p s : strip_prefix p (p +:+ s) = Some s.
Proof.
  induction p as [|x p IH]; simpl; [by destruct s|].
  by rewrite Ascii.eqb_refl.
Qed.

Lemma find_map_elem {A B} (f : B → bool) (g : A → B) (l : list A) y :
  find f (map g l) = Some y → ∃ x, x ∈ l ∧ y = g x.
Proof.
  induction l as [|x l IH]; simpl; [done|].
  destruct (f (g x)).
  - intros [= <-]. exists x. split; [by left|done].
  - intros H. destruct (IH H) as (x' & Hin & ->). exists x'.
    split; [by right|done].
Qed.

Lemma existsb_record_id (j : string * string) l :
  j ∈ l → existsb (λ j', String.eqb j'.1 j.1) l = true.
Proof.
  intros H. apply existsb_exists. exists j. split.
  - by apply list_elem_of_In.
  - apply String.eqb_refl.
Qed.

Section label_service_facts.
Context (direct : bool) (card : string).
Context (is_email : string → bool) (getTime : string → Num).
Context (zod_message : string → Value → string).

Lemma label_service_delete_direct j w :
  j ∈ attached w →
  label_service direct card (delete_direct_request j.1) w
  = if direct
    then (Ok None, mkLabelService (filter (λ j', j'.1 ≠ j.1) (attached w))
                     (next_id w))
    else (Throw (not_found (delete_direct_request j.1)), w).
Proof.
  intros H. unfold label_service, delete_direct_request. simpl method.
  simpl path. rewrite strip_prefix_app. destruct direct; [|done].
  unfold delete_record. by rewrite existsb_record_id.
Qed.

Lemma label_service_delete_nested j w :
  j ∈ attached w →
  label_service direct card (delete_nested_request card j.1) w
  = (Ok None, mkLabelService (filter (λ j', j'.1 ≠ j.1) (attached w))
                (next_id w)).
Proof.
  intros H. unfold label_service, delete_nested_request. simpl method.
  simpl path.
  replace (strip_prefix "/api/card-labels/"
             ("/api/cards/" +:+ card +:+ "/card-labels/" +:+ j.1))
    with (@None string) by reflexivity.
  rewrite strip_prefix_both, strip_prefix_both, strip_prefix_app.
  unfold delete_record. by rewrite existsb_record_id.
Qed.

(** A removal never fails on the reference service. *)
Lemma label_service_remove labelId w log :
  ∃ w' log',
    removeLabelFromCard (label_service direct card) is_email getTime
      zod_message card labelId (mkSys w log)
    = (Ok tt, mkSys w' log').
Proof.
  unfold removeLabelFromCard.
  rewrite (bind_Ok _ _ _ _ _ (label_service_getCard _ _ _ _ _ _ _)).
  simpl cd_cardLabels.
  destruct (find _ _) as [cl|] eqn:Hf; [|by eexists _, _].
  apply find_map_elem in Hf as (j & Hj & ->).
  unfold try_catch. simpl CardLabel.id.
  pose proof (label_service_delete_direct j w Hj) as Hd.
  pose proof (label_service_delete_nested j w Hj) as Hn.
  destruct direct.
  - erewrite (client_delete_run _ _ (mkSys w _) _ _ Hd). by eexists _, _.
  - erewrite (client_delete_run _ _ (mkSys w _) _ _ Hd).
    erewrite (client_delete_run _ _ (mkSys w _) _ _ Hn). by eexists _, _.
Qed.

Lemma label_service_removals labelIds w log :
  ∃ w' log',
    for_of labelIds
      (removeLabelFromCard (label_service direct card) is_email getTime
         zod_message card) (mkSys w log)
    = (Ok tt, mkSys w' log').
Proof.
  revert w log. induction labelIds as [|l ls IH]; intros w log; simpl.
  - by eexists _, _.
  - destruct (label_service_remove l w log) as (w1 & log1 & H1).
    rewrite (bind_Ok _ _ _ _ _ H1). apply IH.
Qed.

(** An addition never fails there, and the card has the label after it. *)
Lemma label_service_add labelId w log :
  ∃ w' log',
    add_tolerant (label_service direct card) zod_message card labelId
      (mkSys w log)
    = (Ok tt, mkSys w' log') ∧
    labelId ∈ labels_of w' ∧ labels_of w ⊆ labels_of w'.
Proof.
  rewrite add_tolerant_run. unfold addLabelToCard.
  rewrite (bind_Ok _ _ _ _ _
             (parse_Some _ _ _ _ _ _ (AddLabelToCardSchema_pair _ _))).
  unfold client_post, through_client, bind, label_service. simpl.
  rewrite String.eqb_refl.
  destruct (existsb _ (attached w)) eqn:Hex.
  - eexists _, _. split; [reflexivity|]. split; [|done].
    apply existsb_exists in Hex as (j & Hj & Heq).
    apply String.eqb_eq in Heq as <-.
    apply list_elem_of_fmap. exists j. split; [done|]. by apply list_elem_of_In.
  - eexists _, _. split; [reflexivity|]. unfold labels_of. simpl.
    rewrite fmap_app. split.
    + apply elem_of_app. right. by left.
    + intros x Hx. apply elem_of_app. by left.
Qed.

Lemma label_service_additions labelIds w log :
  ∃ w' log',
    for_of labelIds (add_tolerant (label_service direct card) zod_message card)
      (mkSys w log)
    = (Ok tt, mkSys w' log') ∧
    (∀ l, l ∈ labelIds → l ∈ labels_of w') ∧ labels_of w ⊆ labels_of w'.
Proof.
  revert w log. induction labelIds as [|l ls IH]; intros w log; simpl.
  - eexists _, _. split; [reflexivity|]. split; [|done].
    intros l Hl. by apply not_elem_of_nil in Hl.
  - destruct (label_service_add l w log) as (w1 & log1 & H1 & Hl & Hsub).
    rewrite (bind_Ok _ _ _ _ _ H1).
    destruct (IH w1 log1) as (w2 & log2 & H2 & Hall & Hsub2).
    exists w2, log2. split; [done|]. split.
    + intros l' [->|Hl']%elem_of_cons; [by apply Hsub2|by apply Hall].
    + intros x Hx. by apply Hsub2, Hsub.
Qed.
End label_service_facts.

(** ** Setting the labels of a card *)

Lemma removal_is_no_addition cardId r :
  is_removal cardId r → ¬ is_addition cardId r.
Proof.
  intros [->|(id & [->| ->])] (l & Hl); discriminate.
Qed.




(** ** Sorting *)

Section sort_facts.
Context {A : Type} (cmp : A → A → Num).

Lemma sort_insert_Permutation x l : sort_insert cmp x l ≡ₚ x :: l.
Proof.
  induction l as [|y l IH]; simpl; [done|].
  destruct (positive_num (cmp x y)); [|done].
  rewrite IH. apply perm_swap.
Qed.

Lemma sort_Permutation l : sort cmp l ≡ₚ l.
Proof.
  induction l as [|x l IH]; simpl; [done|].
  fold (sort cmp l). by rewrite sort_insert_Permutation, IH.
Qed.

(** The comparator is positive exactly where its first argument must come
    after its second in a total preorder [le]: the result is sorted. *)
Context (le : A → A → Prop).
Context (le_trans : ∀ a b c, le a b → le b c → le a c).
Context (le_total : ∀ a b, le a b ∨ le b a).
Context (cmp_le : ∀ a b, positive_num (cmp a b) = false ↔ le a b).

Lemma sort_insert_StronglySorted x l :
  StronglySorted le l → StronglySorted le (sort_insert cmp x l).
Proof.
  induction 1 as [|y l Hl IH Hy]; simpl.
  - repeat constructor.
  - destruct (positive_num (cmp x y)) eqn:E.
    + constructor; [done|].
      assert (le y x) as Hyx.
      { destruct (le_total x y) as [Hxy|]; [|done].
        apply cmp_le in Hxy. congruence. }
      rewrite sort_insert_Permutation. by constructor.
    + apply cmp_le in E. constructor; [by constructor|].
      constructor; [done|].
      eapply Forall_impl; [exact Hy|]. intros z Hz. by eapply le_trans.
Qed.

Lemma sort_StronglySorted l : StronglySorted le (sort cmp l).
Proof.
  induction l as [|x l IH]; simpl; [constructor|].
  by apply sort_insert_StronglySorted.
Qed.
End sort_facts.

Lemma number_le_refl a : number_le a a.
Proof. destruct a; simpl; [apply Qle_refl|done|done]. Qed.

Lemma number_le_trans a b c : number_le a b → number_le b c → number_le a c.
Proof. destruct a, b, c; simpl; try done. apply Qle_trans. Qed.

Lemma number_le_total a b : number_le a b ∨ number_le b a.
Proof. destruct a, b; simpl; try tauto. lra. Qed.

(** The comparator [a - b] is positive exactly where [a] is greater. *)
Lemma positive_num_sub a b :
  positive_num (num_sub (num_of a) (num_of b)) = false ↔ number_le a b.
Proof.
  destruct a, b; simpl; try done.
  rewrite negb_false_iff, Qle_bool_iff. split; lra.
Qed.

Lemma ascending_num_of {A} (key : A → Number) a b :
  positive_num (ascending (λ t, num_of (key t)) a b) = false
  ↔ number_le (key a) (key b).
Proof. apply positive_num_sub. Qed.

Lemma sort_in_order {A} (key : A → Number) (l : list A) :
  StronglySorted (in_order key) (sort (ascending (λ t, num_of (key t))) l).
Proof.
  apply sort_StronglySorted.
  - intros a b c. apply number_le_trans.
  - intros a b. apply number_le_total.
  - intros a b. apply ascending_num_of.
Qed.

(** [position ?? d] is the number [position], or [d]. *)
Lemma position_or_default d p :
  position_or (num_of d) p = num_of (default d p).
Proof. by destruct p. Qed.

Lemma position_le_trans p q r :
  position_le p q → position_le q r → position_le p r.
Proof. apply number_le_trans. Qed.

Lemma position_le_total p q : position_le p q ∨ position_le q p.
Proof. apply number_le_total. Qed.

Lemma ascending_position_or_PosInf a b :
  positive_num
    (ascending (λ l, position_or PosInf (BList.position l)) a b) = false
  ↔ precedes a b.
Proof.
  unfold ascending, precedes, position_le.
  rewrite !(position_or_default Infinity). apply positive_num_sub.
Qed.

Lemma sort_ext {A} (cmp cmp' : A → A → Num) l :
  (∀ a b, cmp a b = cmp' a b) → sort cmp l = sort cmp' l.
Proof.
  intros H. induction l as [|x l IH]; [done|].
  cbn [sort foldr]. fold (sort cmp l) (sort cmp' l). rewrite IH.
  generalize (sort cmp' l). intros l'.
  induction l' as [|y l' IH']; [done|]. cbn [sort_insert].
  by rewrite H, IH'.
Qed.

Lemma number_eqb_le a b q :
  number_eqb a q = true → number_eqb b q = true → number_le a b.
Proof.
  destruct a, b, q; simpl; try done. rewrite !Qeq_bool_iff. lra.
Qed.

Section stable.
Context {A : Type} (key : A → Number).

Lemma sort_insert_at_position q x l :
  filter (at_position key q)
    (sort_insert (ascending (λ t, num_of (key t))) x l)
  = filter (at_position key q) (x :: l).
Proof.
  induction l as [|y l IH]; [done|]. cbn [sort_insert].
  destruct (positive_num (ascending (λ t, num_of (key t)) x y)) eqn:Hpos;
    [|done].
  assert (at_position key q x → at_position key q y → False) as Hxy.
  { intros Hx Hy. apply (number_eqb_le _ _ _ Hx), ascending_num_of in Hy.
    congruence. }
  destruct (decide (at_position key q y)) as [Hy|Hy].
  - rewrite (filter_cons_True _ y) by done. rewrite IH.
    rewrite !(filter_cons_False _ x) by (intros Hx; by apply Hxy).
    by rewrite filter_cons_True.
  - rewrite (filter_cons_False _ y) by done. rewrite IH.
    destruct (decide (at_position key q x)) as [Hx|Hx].
    + rewrite !(filter_cons_True _ x) by done.
      by rewrite filter_cons_False.
    + rewrite !(filter_cons_False _ x) by done.
      by rewrite filter_cons_False.
Qed.

(** Sorting is stable: the elements at one position keep their order. *)
Lemma sort_at_position q l :
  filter (at_position key q) (sort (ascending (λ t, num_of (key t))) l)
  = filter (at_position key q) l.
Proof.
  induction l as [|x l IH]; [done|].
  cbn [sort foldr]. fold (sort (ascending (λ t, num_of (key t))) l).
  rewrite sort_insert_at_position.
  destruct (decide (at_position key q x)).
  - rewrite !filter_cons_True by done. by rewrite IH.
  - rewrite !filter_cons_False by done. by rewrite IH.
Qed.
End stable.

(** ** Reading a board *)

Lemma StronglySorted_lookup {A} (R : A → A → Prop) l i j a b :
  StronglySorted R l → (i < j)%nat → l !! i = Some a → l !! j = Some b →
  R a b.
Proof.
  intros H. revert i j. induction H as [|x l Hl IH Hx]; intros i j Hij Ha Hb.
  - done.
  - destruct j as [|j]; [lia|]. destruct i as [|i]; simpl in *.
    + injection Ha as ->. rewrite Forall_forall in Hx. apply Hx.
      by eapply list_elem_of_lookup_2.
    + eapply (IH i j); [lia|done|done].
Qed.

Lemma member_Ok {W} v k (s s' : Sys W) r :
  member v k s = (Ok r, s') → s' = s ∧ ∃ o, v = Some o ∧ o ≠ JNull ∧
    r = match o with JObj f => f.[k] | _ => None end.
Proof.
  unfold member. destruct v as [[]|]; intros [= <- <-]; split; try done;
    eexists; (split; [reflexivity|]); by split.
Qed.

Lemma parse_Ok {W A} zod_message name (schema : Schema A) v a (s s' : Sys W) :
  parse zod_message name schema v s = (Ok a, s') → s' = s ∧ schema v = Some a.
Proof. unfold parse. destruct (schema v); by intros [= <- <-]. Qed.

Section getBoard_facts.
Context {W : Type} (client : Req → W → Res Value * W).
Context (is_email : string → bool).
Context (zod_message : string → Value → string).

(** What a board that is returned was made from. *)
Lemma getBoard_Ok boardId (s s' : Sys W) d :
  getBoard client is_email zod_message boardId s = (Ok d, s') →
  ∃ response inc,
    through_client client (getBoard_request boardId) s = (Ok response, s') ∧
    BoardResponse response = Some (bd_board d) ∧
    BoardIncludedSchema is_email (or_empty_object (included_of response))
    = Some inc ∧
    bd_lists d
    = sort (ascending (λ l, position_or PosInf (BList.position l)))
        (default [] (bi_lists inc)) ∧
    bd_cards d = default [] (bi_cards inc) ∧
    bd_taskLists d
    = sort (ascending (λ t, num_of (TaskList.position t)))
        (default [] (bi_taskLists inc)) ∧
    bd_tasks d = default [] (bi_tasks inc).
Proof.
  unfold getBoard, client_get, bind. fold (getBoard_request boardId).
  destruct (through_client _ _ s) as [[response|e] s1]; [|done].
  destruct (parse _ _ _ response s1) as [[parsed|e] s2] eqn:Hp; [|done].
  apply parse_Ok in Hp as [-> Hp].
  destruct (member response "included" s1) as [[inc|e] s3] eqn:Hm; [|done].
  apply member_Ok in Hm as (-> & o & -> & _ & ->).
  destruct (parse _ _ _ _ s1) as [[included|e] s4] eqn:Hq; [|done].
  apply parse_Ok in Hq as [-> Hq].
  intros [= <- <-]. exists (Some o), included. simpl.
  repeat split; done.
Qed.
End getBoard_facts.

(** C10, as the code has it.  The lists of the board that [getBoard]
    returns are the lists read from the response in ascending order of
    position, a position of [null] counting as [Infinity]: a list of
    position [null] comes after every list whose position is a number other
    than [Infinity], and the lists of one position, those of position [null]
    and of position [Infinity] among them, keep the order of the response.
    They are the lists of the view that [getBoardWithTaskCounts] returns. *)
Theorem getBoard_lists_sorted_nulls_last :
  ∀ W client is_email zod_message boardId (s s' : Sys W),
    (∀ d, getBoard client is_email zod_message boardId s = (Ok d, s') →
       StronglySorted precedes (bd_lists d) ∧
       (∀ i j a b n, bd_lists d !! i = Some a → bd_lists d !! j = Some b →
          BList.position a = None → BList.position b = Some n →
          n ≠ Infinity → (j < i)%nat) ∧
       ∃ response inc,
         through_client client (getBoard_request boardId) s
         = (Ok response, s') ∧
         BoardIncludedSchema is_email (or_empty_object (included_of response))
         = Some inc ∧
         bd_lists d ≡ₚ default [] (bi_lists inc) ∧
         ∀ q,
           filter (at_position (λ l, default Infinity (BList.position l)) q)
             (bd_lists d)
           = filter (at_position (λ l, default Infinity (BList.position l)) q)
               (default [] (bi_lists inc))) ∧
    (∀ v, getBoardWithTaskCounts client is_email zod_message boardId s
          = (Ok v, s') →
       ∃ d, getBoard client is_email zod_message boardId s = (Ok d, s') ∧
            bw_lists v = bd_lists d).
Proof.
  intros W client is_email zod_message boardId s s'. split.
  - intros d Hd.
    destruct (getBoard_Ok _ _ _ _ _ _ _ Hd)
      as (response & inc & Hr & _ & Hi & Hl & _).
    assert (StronglySorted precedes (bd_lists d)) as Hs.
    { rewrite Hl. apply sort_StronglySorted.
      - intros a b c. apply position_le_trans.
      - intros a b. apply position_le_total.
      - apply ascending_position_or_PosInf. }
    split; [done|]. split.
    + intros i j a b n Ha Hb Hna Hnb Hn.
      destruct (Nat.lt_trichotomy i j) as [Hij|[->|Hji]]; [|congruence|done].
      pose proof (StronglySorted_lookup _ _ _ _ _ _ Hs Hij Ha Hb) as Hab.
      unfold precedes, position_le in Hab. rewrite Hna, Hnb in Hab.
      by destruct n.
    + exists response, inc. split; [done|]. split; [done|].
      rewrite Hl. split; [apply sort_Permutation|]. intros q.
      rewrite (sort_ext _
                 (ascending
                    (λ l, num_of (default Infinity (BList.position l)))))
        by (intros a b; unfold ascending;
            by rewrite !(position_or_default Infinity)).
      apply sort_at_position.
  - intros v. unfold getBoardWithTaskCounts, bind.
    destruct (getBoard _ _ _ _ s) as [[d|e] s1]; [|done].
    intros [= <- <-]. by exists d.
Qed.

(** The sample board: the archive list comes first in the response and last
    in the board. *)
Lemma getBoard_lists_witness :
  ∃ d, getBoard (constant_client (Some sample_board_reply)) any_email
         no_message "3" fresh
       = (Ok d, mkSys tt [getBoard_request "3"]) ∧
       BList.id <$> bd_lists d = ["11"; "12"; "10"] ∧
       StronglySorted precedes (bd_lists d).
Proof.
  eexists. split; [reflexivity|]. split; [reflexivity|].
  eapply (proj1 (getBoard_lists_sorted_nulls_last unit
                   (constant_client (Some sample_board_reply)) any_email
                   no_message "3" fresh (mkSys tt [getBoard_request "3"]))).
  reflexivity.
Defined.

(** C10 as stated fails: in this board the archive list "10", of position
    [null], stands before the list "13", whose position is a number. *)
Lemma getBoard_null_position_before_a_number :
  ∃ d a b,
    getBoard (constant_client (Some infinite_board_reply)) any_email
      no_message "3" fresh
    = (Ok d, mkSys tt [getBoard_request "3"]) ∧
    BList.id <$> bd_lists d = ["11"; "10"; "13"] ∧
    bd_lists d !! 1%nat = Some a ∧ bd_lists d !! 2%nat = Some b ∧
    BList.position a = None ∧ BList.position b = Some Infinity.
Proof. eexists _, _, _. repeat split; reflexivity. Qed.

(** ** Counting tasks *)

Lemma filter_none {A} (P : A → Prop) `{∀ x, Decision (P x)} (l : list A) :
  (∀ x, x ∈ l → ¬ P x) → filter P l = [].
Proof.
  induction l as [|x l IH]; intros Hl; [done|].
  rewrite filter_cons_False by (apply Hl; by left).
  apply IH. intros y Hy. apply Hl. by right.
Qed.

(** The map has for an id the card of the last task list of that id. *)
Lemma taskListToCard_owner taskLists k :
  taskListToCard taskLists !! k = owner taskLists k.
Proof.
  unfold taskListToCard, owner.
  induction taskLists as [|tl l IH] using rev_ind; [done|].
  rewrite foldl_app, filter_app. cbn [foldl].
  destruct (decide (TaskList.id tl = k)) as [<-|Hne].
  - rewrite lookup_insert_eq, filter_cons_True by done.
    rewrite filter_nil. by rewrite last_snoc.
  - rewrite lookup_insert_ne, filter_cons_False by done.
    by rewrite filter_nil, IH, app_nil_r.
Qed.

Lemma owner_no_task_list taskLists k :
  k ∉ TaskList.id <$> taskLists → owner taskLists k = None.
Proof.
  intros Hk. unfold owner.
  destruct (last _) as [tl|] eqn:Hlast; [|done]. exfalso. apply Hk.
  apply last_Some_elem_of, list_elem_of_filter in Hlast as [<- Hin].
  by apply list_elem_of_fmap_2.
Qed.

(** With task lists of distinct ids, the card of an id is the card of the
    one task list that has the id. *)
Lemma owner_counted_for taskLists cardId task :
  NoDup (TaskList.id <$> taskLists) →
  owner taskLists (Task.taskListId task) = Some cardId
  ↔ counted_for taskLists cardId task = true.
Proof.
  intros Hnd. unfold counted_for. rewrite existsb_exists. split.
  - unfold owner. destruct (last _) as [tl|] eqn:Hlast; [|done].
    intros [= <-].
    apply last_Some_elem_of, list_elem_of_filter in Hlast as [Hid Hin].
    exists tl. split; [by apply list_elem_of_In|].
    by rewrite Hid, !String.eqb_refl.
  - intros (tl & Hin%list_elem_of_In & Heq).
    apply andb_true_iff in Heq as [H1%String.eqb_eq H2%String.eqb_eq].
    subst cardId. rewrite <- H1. clear H1 task.
    induction taskLists as [|x l IH]; [by apply not_elem_of_nil in Hin|].
    rewrite fmap_cons in Hnd. apply NoDup_cons in Hnd as [Hx Hnd].
    apply elem_of_cons in Hin as [->|Hin].
    + unfold owner. rewrite filter_cons_True by done.
      assert (filter (λ tl, TaskList.id tl = TaskList.id x) l = []) as ->;
        [|done].
      apply filter_none. intros y Hy Heq. apply Hx.
      rewrite <- Heq. by apply list_elem_of_fmap_2.
    + unfold owner in *. rewrite filter_cons_False; [by apply IH|].
      intros Heq. apply Hx. rewrite Heq. by apply list_elem_of_fmap_2.
Qed.

Lemma taskCountsByCard_foldl (toCard : gmap string string) cardId tasks
    (byCard : gmap string Counts) :
  cardId ≠ "" →
  default (mkCounts 0 0) (foldl (count_task toCard) byCard tasks !! cardId)
  = mkCounts
      (total (default (mkCounts 0 0) (byCard !! cardId))
       + length (filter (λ t, toCard !! Task.taskListId t = Some cardId)
                   tasks))%nat
      (completed (default (mkCounts 0 0) (byCard !! cardId))
       + length (filter (λ t, Task.isCompleted t = true)
                   (filter (λ t, toCard !! Task.taskListId t = Some cardId)
                      tasks)))%nat.
Proof.
  intros Hne. revert byCard.
  induction tasks as [|t tasks IH]; intros byCard; simpl.
  - rewrite !Nat.add_0_r. by destruct (default _ _).
  - rewrite IH. unfold count_task.
    destruct (toCard !! Task.taskListId t) as [c|] eqn:Hc.
    + destruct (String.eqb_spec c "") as [->|Hc'].
      * rewrite filter_cons_False by congruence. done.
      * destruct (decide (c = cardId)) as [->|Hcc].
        -- rewrite lookup_insert_eq. rewrite filter_cons_True by done. simpl.
           destruct (Task.isCompleted t) eqn:Hd.
           ++ rewrite filter_cons_True by done. simpl. f_equal; lia.
           ++ rewrite filter_cons_False by congruence. f_equal; lia.
        -- rewrite lookup_insert_ne by done.
           rewrite filter_cons_False by congruence. done.
    + rewrite filter_cons_False by congruence. done.
Qed.

(** Nothing is counted under the empty id. *)
Lemma taskCountsByCard_foldl_empty (toCard : gmap string string) tasks
    (byCard : gmap string Counts) :
  foldl (count_task toCard) byCard tasks !! "" = byCard !! "".
Proof.
  revert byCard. induction tasks as [|t tasks IH]; intros byCard; [done|].
  cbn [foldl]. rewrite IH. unfold count_task.
  destruct (toCard !! Task.taskListId t) as [c|]; [|done].
  destruct (String.eqb_spec c "") as [->|Hc]; [done|].
  by rewrite lookup_insert_ne.
Qed.

(** The counts that a card gets. *)
Lemma with_counts_counted taskLists tasks card :
  let cw := with_counts (taskCountsByCard (taskListToCard taskLists) tasks)
              card in
  taskCount cw = length (tasks_counted taskLists tasks (Card.id card)) ∧
  completedTaskCount cw
  = length (filter (λ t, Task.isCompleted t = true)
              (tasks_counted taskLists tasks (Card.id card))).
Proof.
  unfold with_counts, taskCountsByCard, tasks_counted. cbn zeta. simpl.
  destruct (String.eqb_spec (Card.id card) "") as [->|Hne].
  - by rewrite taskCountsByCard_foldl_empty, lookup_empty.
  - rewrite (taskCountsByCard_foldl _ _ _ _ Hne), lookup_empty. simpl.
    assert (filter (λ t, taskListToCard taskLists !! Task.taskListId t
                         = Some (Card.id card)) tasks
            = filter (λ t, owner taskLists (Task.taskListId t)
                           = Some (Card.id card)) tasks) as ->; [|done].
    apply list_filter_iff. intros t. by rewrite taskListToCard_owner.
Qed.

(** C4, as the code has it.  The cards of the view are the cards of the
    board, each with two counts added; cards, task lists and tasks of the
    board are those read from [included] in the response, the task lists in
    ascending order of position.  A card of a non-empty id gets as
    [taskCount] the number of the tasks whose task list belongs to the card,
    where the card of a task list id is that of the last task list of the
    board with the id, and as [completedTaskCount] the number of the
    completed ones among them; a card whose id is empty gets 0 and 0.  A
    task whose task list is not among the task lists of the board leaves
    the counts as they are and is counted for no card; the turn of the loop
    for a task changes the counts of no card but the card of its task list,
    and no task is counted for two cards of different ids.  Where the task
    lists have distinct ids, the tasks counted for a card are those whose
    task list is among the task lists of the board and belongs to the
    card. *)
Theorem getBoardWithTaskCounts_counts :
  ∀ W client is_email zod_message boardId (s s' : Sys W) v,
    getBoardWithTaskCounts client is_email zod_message boardId s
    = (Ok v, s') →
    ∃ d, getBoard client is_email zod_message boardId s = (Ok d, s') ∧
      cw_card <$> bw_cards v = bd_cards d ∧
      (∃ response inc,
         through_client client (getBoard_request boardId) s
         = (Ok response, s') ∧
         BoardIncludedSchema is_email (or_empty_object (included_of response))
         = Some inc ∧
         bd_cards d = default [] (bi_cards inc) ∧
         bd_taskLists d
         = sort (ascending (λ t, num_of (TaskList.position t)))
             (default [] (bi_taskLists inc)) ∧
         bd_tasks d = default [] (bi_tasks inc)) ∧
      (∀ cw, cw ∈ bw_cards v →
         let counted :=
           tasks_counted (bd_taskLists d) (bd_tasks d)
             (Card.id (cw_card cw)) in
         taskCount cw = length counted ∧
         completedTaskCount cw
         = length (filter (λ t, Task.isCompleted t = true) counted) ∧
         (Card.id (cw_card cw) = "" → counted = [])) ∧
      (∀ task,
         Task.taskListId task ∉ TaskList.id <$> bd_taskLists d →
         (∀ byCard,
            count_task (taskListToCard (bd_taskLists d)) byCard task
            = byCard) ∧
         ∀ cardId,
           task ∉ tasks_counted (bd_taskLists d) (bd_tasks d) cardId) ∧
      (∀ task,
         (∀ byCard other,
            owner (bd_taskLists d) (Task.taskListId task) ≠ Some other →
            count_task (taskListToCard (bd_taskLists d)) byCard task
              !! other
            = byCard !! other) ∧
         ∀ c1 c2,
           task ∈ tasks_counted (bd_taskLists d) (bd_tasks d) c1 →
           task ∈ tasks_counted (bd_taskLists d) (bd_tasks d) c2 →
           c1 = c2) ∧
      (NoDup (TaskList.id <$> bd_taskLists d) →
       ∀ cardId, cardId ≠ "" →
         tasks_counted (bd_taskLists d) (bd_tasks d) cardId
         = tasks_of (bd_taskLists d) (bd_tasks d) cardId).
Proof.
  intros W client is_email zod_message boardId s s' v.
  unfold getBoardWithTaskCounts, bind.
  destruct (getBoard _ _ _ _ s) as [[d|e] s1] eqn:Hd; [|done].
  intros [= <- <-]. exists d. split; [done|]. simpl.
  split; [|split; [|split; [|split; [|split]]]].
  - rewrite <- list_fmap_compose. apply list_fmap_id.
  - destruct (getBoard_Ok _ _ _ _ _ _ _ Hd)
      as (response & inc & Hr & _ & Hi & _ & Hc & Ht & Htasks).
    by exists response, inc.
  - intros cw Hcw.
    apply list_elem_of_fmap in Hcw as (c & -> & Hc).
    destruct (with_counts_counted (bd_taskLists d) (bd_tasks d) c)
      as [H1 H2].
    split; [done|]. split; [done|]. intros Hid. simpl in Hid.
    unfold tasks_counted. simpl. by rewrite Hid.
  - intros task Hno. split.
    + intros byCard. unfold count_task.
      by rewrite taskListToCard_owner, (owner_no_task_list _ _ Hno).
    + intros cardId. unfold tasks_counted.
      destruct (String.eqb cardId ""); [apply not_elem_of_nil|].
      intros [Ho _]%list_elem_of_filter.
      by rewrite (owner_no_task_list _ _ Hno) in Ho.
  - intros task. split.
    + intros byCard other Hother. unfold count_task.
      rewrite taskListToCard_owner.
      destruct (owner _ _) as [c|]; [|done].
      destruct (String.eqb c ""); [done|].
      rewrite lookup_insert_ne; [done|congruence].
    + intros c1 c2. unfold tasks_counted.
      destruct (String.eqb c1 ""); [by intros ?%not_elem_of_nil|].
      destruct (String.eqb c2 ""); [by intros _ ?%not_elem_of_nil|].
      intros [H1 _]%list_elem_of_filter [H2 _]%list_elem_of_filter.
      congruence.
  - intros Hnd cardId Hne. unfold tasks_counted, tasks_of.
    destruct (String.eqb_spec cardId ""); [done|].
    apply list_filter_iff. intros t. by apply owner_counted_for.
Qed.

(** The sample board: of the two tasks of the card "41" one is completed;
    the task "82" belongs to the other card and the task "84" to no task
    list of the board. *)
Lemma getBoardWithTaskCounts_witness :
  ∃ v d,
    getBoardWithTaskCounts (constant_client (Some sample_board_reply))
      any_email no_message "3" fresh
    = (Ok v, mkSys tt [getBoard_request "3"]) ∧
    (λ cw, (Card.id (cw_card cw), taskCount cw, completedTaskCount cw))
      <$> bw_cards v
    = [("41", 2%nat, 1%nat); ("42", 1%nat, 0%nat)] ∧
    Task.id <$> tasks_counted (bd_taskLists d) (bd_tasks d) "41"
    = ["81"; "83"] ∧
    taskCount (mkCardWithTaskCounts (card_record "41") 2 1)
    = length (tasks_counted (bd_taskLists d) (bd_tasks d) "41").
Proof.
  eexists.
  destruct (getBoardWithTaskCounts_counts unit
              (constant_client (Some sample_board_reply)) any_email no_message
              "3" fresh (mkSys tt [getBoard_request "3"]) _ eq_refl)
    as (d & Hd & _ & _ & Hcount & _).
  exists d. split; [reflexivity|]. split; [reflexivity|].
  vm_compute in Hd. injection Hd as <-. split; [reflexivity|].
  by destruct (Hcount (mkCardWithTaskCounts (card_record "41") 2 1))
    as [H1 _]; [left|].
Defined.

(** C4 as stated fails: in this board two task lists have the id "71", the
    first of the card "41" and the last of the card "42", and the task list
    "73" is of a card whose id is empty.  The task "81" of the task list
    "71" is counted for the card "42" and not for the card "41", and the
    task "82" of the task list "73" for no card, while each of the three
    cards has one task whose task list is among the task lists of the board
    and belongs to the card. *)
Lemma getBoardWithTaskCounts_counts_differ :
  ∃ v d,
    getBoardWithTaskCounts (constant_client (Some duplicate_board_reply))
      any_email no_message "3" fresh
    = (Ok v, mkSys tt [getBoard_request "3"]) ∧
    getBoard (constant_client (Some duplicate_board_reply)) any_email
      no_message "3" fresh
    = (Ok d, mkSys tt [getBoard_request "3"]) ∧
    (λ cw, (Card.id (cw_card cw), taskCount cw)) <$> bw_cards v
    = [("41", 0%nat); ("42", 1%nat); ("", 0%nat)] ∧
    (λ c, (Card.id c,
           length (tasks_of (bd_taskLists d) (bd_tasks d) (Card.id c))))
      <$> bd_cards d
    = [("41", 1%nat); ("42", 1%nat); ("", 1%nat)].
Proof. eexists _, _. repeat split; reflexivity. Qed.

(** ** Creating tasks *)

Lemma sort_head {A} (key : A → Number) (l : list A) :
  l ≠ [] →
  ∃ first rest,
    sort (ascending (λ t, num_of (key t))) l = first :: rest ∧
    first ∈ l ∧ ∀ other, other ∈ l → in_order key first other.
Proof.
  intros Hne.
  pose proof (sort_Permutation (ascending (λ t, num_of (key t))) l) as Hperm.
  pose proof (sort_in_order key l) as Hsorted.
  destruct (sort _ l) as [|first rest].
  - apply Permutation_nil_l in Hperm. congruence.
  - exists first, rest. split; [done|]. split.
    + rewrite <- Hperm. by left.
    + intros other Hother. rewrite <- Hperm in Hother.
      apply StronglySorted_inv in Hsorted as [_ Hall].
      apply elem_of_cons in Hother as [->|Hother]; [apply number_le_refl|].
      rewrite Forall_forall in Hall. by apply Hall.
Qed.

(** A request for a task is no request for a task list. *)
Lemma task_request_is_no_task_list_request taskListId name position cardId :
  task_request taskListId name position
  ≠ create_default_task_list_request cardId.
Proof. discriminate. Qed.

Section task_operations.
Context {W : Type} (client : Req → W → Res Value * W).
Context (is_email : string → bool) (getTime : string → Num).
Context (zod_message : string → Value → string).

Lemma client_post_default_task_list cardId :
  client_post client ("/api/cards/" +:+ cardId +:+ "/task-lists")
    (obj [ ("name", str DEFAULT_TASK_LIST_NAME); ("position", num 65536) ])
  = through_client client (create_default_task_list_request cardId).
Proof. reflexivity. Qed.

(** A card without task lists: the default task list is requested, and the
    answer to that request is the outcome. *)
Lemma getOrCreateDefaultTaskList_none cardId (s s1 : Sys W) details :
  getCard client is_email getTime zod_message cardId s = (Ok details, s1) →
  cd_taskLists details = [] →
  ∀ reply w2,
    client (create_default_task_list_request cardId) (remote s1)
    = (reply, w2) →
    getOrCreateDefaultTaskList client is_email getTime zod_message cardId s
    = (parsed_reply zod_message "TaskListResponse" TaskListResponse reply,
       mkSys w2 (sent s ++ [ getCard_request cardId;
                             create_default_task_list_request cardId ])%list).
Proof.
  intros Hget Hnil reply w2 Hreply.
  pose proof (getCard_sent client is_email getTime zod_message cardId s) as Hs.
  rewrite Hget in Hs. simpl in Hs.
  unfold getOrCreateDefaultTaskList. rewrite (bind_Ok _ _ _ _ _ Hget), Hnil.
  change (sort _ []) with (@nil TaskList.t).
  rewrite client_post_default_task_list.
  unfold bind, through_client. rewrite Hreply, Hs.
  rewrite <- app_assoc. simpl.
  destruct reply as [response|e]; [|done]. unfold parse. simpl.
  by destruct (TaskListResponse response).
Qed.

(** A card with task lists: one of them is returned, one of the least
    position, and nothing is requested but the card. *)
Lemma getOrCreateDefaultTaskList_some cardId (s s1 : Sys W) details :
  getCard client is_email getTime zod_message cardId s = (Ok details, s1) →
  cd_taskLists details ≠ [] →
  ∃ taskList,
    taskList ∈ cd_taskLists details ∧
    (∀ other, other ∈ cd_taskLists details →
       in_order TaskList.position taskList other) ∧
    getOrCreateDefaultTaskList client is_email getTime zod_message cardId s
    = (Ok taskList, s1) ∧
    sent s1 = (sent s ++ [getCard_request cardId])%list.
Proof.
  intros Hget Hne.
  pose proof (getCard_sent client is_email getTime zod_message cardId s) as Hs.
  rewrite Hget in Hs. simpl in Hs.
  unfold getOrCreateDefaultTaskList. rewrite (bind_Ok _ _ _ _ _ Hget).
  destruct (sort_head TaskList.position _ Hne)
    as (first & rest & -> & Hin & Hmin).
  by exists first.
Qed.

(** One turn of the loop of [createTasks], and the one request of
    [createTask]: the request is made, a task is read from the answer, and
    [k] goes on with it. *)
Lemma post_task_then {B} taskListId name position
    (k : Task.t → M (Sys W) B) (s : Sys W) :
  bind (client_post client ("/api/task-lists/" +:+ taskListId +:+ "/tasks")
          (obj [ ("name", str name); ("position", num position) ]))
    (λ response,
       bind (parse zod_message "TaskResponse" TaskResponse response) k) s
  = let request := task_request taskListId name position in
    let reply := client request (remote s) in
    let s1 := mkSys reply.2 (sent s ++ [request])%list in
    match reply.1 with
    | Ok response =>
        match TaskResponse response with
        | Some task => k task s1
        | None => (Throw (mkErr ZodError
                            (zod_message "TaskResponse" response) None), s1)
        end
    | Throw e => (Throw e, s1)
    end.
Proof.
  unfold bind at 1. unfold client_post, through_client.
  change (obj _) with (JObj [("name", JStr name); ("position", JNum position)]).
  fold (task_request taskListId name position).
  destruct (client _ (remote s)) as [[response|e] w1]; [|done].
  cbn [fst snd]. unfold bind, parse.
  by destruct (TaskResponse response).
Qed.

(** The loop of [createTasks] sends the requests of its inputs in order, up
    to the first that fails; when it returns, all were sent and a task was
    read from the answer to each. *)
Lemma createTasks_loop_sent taskListId inputs position tasks (s s' : Sys W) r :
  createTasks_loop client zod_message taskListId inputs position tasks s
  = (r, s') →
  ∃ k, (k ≤ length inputs)%nat ∧
    sent s' = (sent s ++ take k (task_requests taskListId inputs position))%list
    ∧ ∀ created, r = Ok created →
        k = length inputs ∧
        length created = (length tasks + length inputs)%nat.
Proof.
  revert position tasks s.
  induction inputs as [|taskInput rest IH]; intros position tasks s.
  - intros [= <- <-]. exists 0%nat. split; [done|]. rewrite app_nil_r.
    split; [done|]. intros created [= <-]. split; [done|]. simpl. lia.
  - cbn [createTasks_loop task_requests]. rewrite post_task_then. cbv zeta.
    destruct (client _ (remote s)) as [[response|e] w1]; cbn [fst snd].
    + destruct (TaskResponse response) as [parsed|].
      * intros Hrun.
        destruct (IH (position + 65536)%Q (tasks ++ [parsed])%list _ Hrun)
          as (k & Hk & Hsent & Hok).
        exists (S k). split; [simpl; lia|]. simpl in *.
        rewrite Hsent, <- app_assoc. split; [done|].
        intros created Hc. destruct (Hok created Hc) as [-> Hlen].
        split; [done|]. rewrite length_app in Hlen. simpl in Hlen. lia.
      * intros [= <- <-]. exists 1%nat. split; [simpl; lia|]. simpl.
        rewrite take_0. by split.
    + intros [= <- <-]. exists 1%nat. split; [simpl; lia|]. simpl.
      rewrite take_0. by split.
Qed.

(** The loop returns exactly when every request of its inputs is answered
    with a task; it returns these tasks after the ones it had. *)
Lemma createTasks_loop_served taskListId inputs position tasks (s : Sys W)
    result w' :
  createTasks_loop client zod_message taskListId inputs position tasks s
  = (Ok result,
     mkSys w' (sent s ++ task_requests taskListId inputs position)%list)
  ↔ ∃ created,
      result = (tasks ++ created)%list ∧
      served client (task_requests taskListId inputs position) (remote s)
        created w'.
Proof.
  revert position tasks s.
  induction inputs as [|taskInput rest IH]; intros position tasks s.
  - cbn [createTasks_loop task_requests]. rewrite app_nil_r. split.
    + intros [= <- Hs]. exists []. rewrite app_nil_r. split; [done|].
      destruct s as [w log]. simpl in *. injection Hs as <-. constructor.
    + intros (created & -> & Hserved). inversion Hserved; subst.
      rewrite app_nil_r. by destruct s.
  - cbn [createTasks_loop task_requests]. rewrite post_task_then. cbv zeta.
    destruct (client _ (remote s)) as [[response|e] w1] eqn:Hreply;
      cbn [fst snd].
    + destruct (TaskResponse response) as [parsed|] eqn:Hparsed.
      * specialize (IH (position + 65536)%Q (tasks ++ [parsed])%list
                      (mkSys w1 (sent s ++ [task_request taskListId
                                              (ti_name taskInput)
                                              (default (Finite position)
                                                 (ti_position taskInput))]))).
        cbn [sent remote] in IH. rewrite <- app_assoc in IH. simpl in IH.
        rewrite IH. split.
        -- intros (created & -> & Hserved). exists (parsed :: created).
           rewrite <- app_assoc. split; [done|]. by econstructor.
        -- intros (created & -> & Hserved).
           inversion Hserved as [|? ? ? ? ? task created' ? H1 H2 H3]; subst.
           rewrite Hreply in H1. injection H1 as <- <-.
           rewrite Hparsed in H2. injection H2 as <-.
           exists created'. by rewrite <- app_assoc.
      * split; [done|]. intros (created & _ & Hserved).
        inversion Hserved as [|? ? ? ? ? task created' ? H1 H2 H3]; subst.
        rewrite Hreply in H1. injection H1 as <- <-. congruence.
    + split; [done|]. intros (created & _ & Hserved).
      inversion Hserved as [|? ? ? ? ? task created' ? H1 H2 H3]; subst.
      rewrite Hreply in H1. done.
Qed.

Lemma task_requests_sent_in_order {A} taskListId inputs position
    (run : Res A * Sys W) before k :
  (k ≤ length inputs)%nat →
  sent run.2
  = (before ++ take k (task_requests taskListId inputs position))%list →
  (∀ a, run.1 = Ok a → k = length inputs) →
  sent_in_order run before (task_requests taskListId inputs position).
Proof.
  intros Hk Hs Hok. exists k.
  assert (length (task_requests taskListId inputs position) = length inputs)
    as Hlen.
  { clear. revert position.
    induction inputs as [|x l IH]; intros p; [done|]. simpl. by rewrite IH. }
  rewrite Hlen. by repeat split.
Qed.

Lemma createTasks_after input v (s s2 : Sys W) r :
  BatchCreateTasksSchema input = Some v →
  getOrCreateDefaultTaskList client is_email getTime zod_message
    (bt_cardId v) s = (r, s2) →
  let run := createTasks client is_email getTime zod_message input s in
  match r with
  | Ok taskList =>
      let requests :=
        task_requests (TaskList.id taskList) (bt_tasks v) 65536 in
      sent_in_order run (sent s2) requests ∧
      ∀ created w',
        served client requests (remote s2) created w'
        ↔ run = (Ok created, mkSys w' (sent s2 ++ requests)%list)
  | Throw e => run = (Throw e, s2)
  end.
Proof.
  intros Hv Hr run. subst run. unfold createTasks.
  rewrite (bind_Ok _ _ _ _ _ (parse_Some _ _ _ _ _ _ Hv)).
  destruct r as [taskList|e]; [|by rewrite (bind_Throw _ _ _ _ _ Hr)].
  rewrite (bind_Ok _ _ _ _ _ Hr). split.
  - destruct (createTasks_loop _ _ _ _ _ _ s2) as [r' s'] eqn:Hrun.
    destruct (createTasks_loop_sent _ _ _ _ _ _ _ Hrun) as (k & Hk & Hs & Hok).
    eapply task_requests_sent_in_order; [exact Hk|exact Hs|].
    intros a Ha. simpl in Ha. by destruct (Hok a Ha).
  - intros created w'. rewrite createTasks_loop_served. split.
    + intros Hserved. by exists created.
    + by intros (created' & -> & Hserved).
Qed.

Lemma createTask_after input v (s s2 : Sys W) r :
  CreateTaskSchema input = Some v →
  getOrCreateDefaultTaskList client is_email getTime zod_message
    (ct_cardId v) s = (r, s2) →
  let run := createTask client is_email getTime zod_message input s in
  match r with
  | Ok taskList =>
      let request :=
        task_request (TaskList.id taskList) (ct_name v) (ct_position v) in
      sent run.2 = (sent s2 ++ [request])%list ∧
      ∀ task w',
        served client [request] (remote s2) [task] w'
        ↔ run = (Ok task, mkSys w' (sent s2 ++ [request])%list)
  | Throw e => run = (Throw e, s2)
  end.
Proof.
  intros Hv Hr run. subst run. unfold createTask.
  rewrite (bind_Ok _ _ _ _ _ (parse_Some _ _ _ _ _ _ Hv)).
  destruct r as [taskList|e]; [|by rewrite (bind_Throw _ _ _ _ _ Hr)].
  rewrite (bind_Ok _ _ _ _ _ Hr), post_task_then. cbv zeta.
  destruct (client _ (remote s2)) as [[response|e] w1] eqn:Hreply;
    cbn [fst snd].
  - destruct (TaskResponse response) as [parsed|] eqn:Hparsed.
    + split; [done|]. intros task w'. split.
      * intros Hserved.
        inversion Hserved as [|? ? ? ? ? ? ? ? H1 H2 H3]; subst.
        rewrite Hreply in H1. injection H1 as <- <-.
        rewrite Hparsed in H2. injection H2 as <-. by inversion H3; subst.
      * intros [= <- <-]. econstructor; [exact Hreply|exact Hparsed|].
        constructor.
    + split; [done|]. intros task w'. split; [|done]. intros Hserved.
      inversion Hserved as [|? ? ? ? ? ? ? ? H1 H2 H3]; subst.
      rewrite Hreply in H1. injection H1 as <- <-. congruence.
  - split; [done|]. intros task w'. split; [|done]. intros Hserved.
    inversion Hserved as [|? ? ? ? ? ? ? ? H1 H2 H3]; subst.
    rewrite Hreply in H1. done.
Qed.
End task_operations.

(** C5. After the card is fetched.  When it has no task list, the request
    that creates the task list "Tasks" is the next request, and the only
    one for a task list: when it fails, or its answer is no task list, the
    operation throws that error and nothing more is sent; otherwise the
    tasks asked for are requested in the task list read from its answer, in
    order and up to the first request that fails, and the operation returns
    exactly when every request is answered with a task, with all the
    requests made and these tasks as its value.  When the card has task
    lists, no task list is requested, and the same holds of the requests for
    the tasks in the first of the task lists of the card, one of the least
    position.  This holds for [createTasks] and for [createTask]. *)
Theorem task_creation_default_task_list :
  ∀ W client is_email getTime zod_message cardId (s s1 : Sys W) details,
    getCard client is_email getTime zod_message cardId s = (Ok details, s1) →
    (cd_taskLists details = [] →
     ∀ reply w2,
       client (create_default_task_list_request cardId) (remote s1)
       = (reply, w2) →
       let before :=
         (sent s ++ [ getCard_request cardId;
                      create_default_task_list_request cardId ])%list in
       (∀ input v,
          BatchCreateTasksSchema input = Some v → bt_cardId v = cardId →
          let run := createTasks client is_email getTime zod_message input s in
          match parsed_reply zod_message "TaskListResponse" TaskListResponse
                  reply with
          | Ok taskList =>
              let requests :=
                task_requests (TaskList.id taskList) (bt_tasks v) 65536 in
              sent_in_order run before requests ∧
              ∀ created w',
                served client requests w2 created w'
                ↔ run = (Ok created, mkSys w' (before ++ requests)%list)
          | Throw e => run = (Throw e, mkSys w2 before)
          end) ∧
       (∀ input v,
          CreateTaskSchema input = Some v → ct_cardId v = cardId →
          let run := createTask client is_email getTime zod_message input s in
          match parsed_reply zod_message "TaskListResponse" TaskListResponse
                  reply with
          | Ok taskList =>
              let request :=
                task_request (TaskList.id taskList) (ct_name v)
                  (ct_position v) in
              sent run.2 = (before ++ [request])%list ∧
              ∀ task w',
                served client [request] w2 [task] w'
                ↔ run = (Ok task, mkSys w' (before ++ [request])%list)
          | Throw e => run = (Throw e, mkSys w2 before)
          end)) ∧
    (cd_taskLists details ≠ [] →
     ∃ taskList,
       taskList ∈ cd_taskLists details ∧
       (∀ other, other ∈ cd_taskLists details →
          in_order TaskList.position taskList other) ∧
       let before := (sent s ++ [getCard_request cardId])%list in
       (∀ input v,
          BatchCreateTasksSchema input = Some v → bt_cardId v = cardId →
          let run := createTasks client is_email getTime zod_message input s in
          let requests :=
            task_requests (TaskList.id taskList) (bt_tasks v) 65536 in
          sent_in_order run before requests ∧
          ∀ created w',
            served client requests (remote s1) created w'
            ↔ run = (Ok created, mkSys w' (before ++ requests)%list)) ∧
       (∀ input v,
          CreateTaskSchema input = Some v → ct_cardId v = cardId →
          let run := createTask client is_email getTime zod_message input s in
          let request :=
            task_request (TaskList.id taskList) (ct_name v) (ct_position v) in
          sent run.2 = (before ++ [request])%list ∧
          ∀ task w',
            served client [request] (remote s1) [task] w'
            ↔ run = (Ok task, mkSys w' (before ++ [request])%list))) ∧
    (∀ taskListId name position cardId',
       task_request taskListId name position
       ≠ create_default_task_list_request cardId').
Proof.
  intros W client is_email getTime zod_message cardId s s1 details Hget.
  split; [|split; [|apply task_request_is_no_task_list_request]].
  - intros Hnil reply w2 Hreply before.
    pose proof (getOrCreateDefaultTaskList_none client is_email getTime
                  zod_message cardId s s1 details Hget Hnil reply w2 Hreply)
      as Hdef.
    fold before in Hdef.
    split; intros input v Hv <-.
    + pose proof (createTasks_after client is_email getTime zod_message
                    input v s _ _ Hv Hdef) as H.
      by destruct (parsed_reply zod_message "TaskListResponse"
                     TaskListResponse reply).
    + pose proof (createTask_after client is_email getTime zod_message
                    input v s _ _ Hv Hdef) as H.
      by destruct (parsed_reply zod_message "TaskListResponse"
                     TaskListResponse reply).
  - intros Hne.
    destruct (getOrCreateDefaultTaskList_some client is_email getTime
                zod_message cardId s s1 details Hget Hne)
      as (taskList & Hin & Hmin & Hdef & Hs).
    exists taskList. split; [done|]. split; [done|]. intros before.
    split; intros input v Hv <-.
    + pose proof (createTasks_after client is_email getTime zod_message
                    input v s _ _ Hv Hdef) as H. simpl in H.
      by rewrite Hs in H.
    + pose proof (createTask_after client is_email getTime zod_message
                    input v s _ _ Hv Hdef) as H. simpl in H.
      by rewrite Hs in H.
Qed.

(** Two tasks for the card "41".  When it has no task list, the card is
    fetched, "Tasks" is created and answered as the task list "72", the two
    tasks are requested there and the two tasks of the answers are returned.
    When it has the task list "71", the tasks are requested there and no
    task list is created. *)
Lemma task_creation_witness :
  createTasks (task_client false) any_email no_clock no_message two_tasks
    fresh
  = (Ok [sample_task; sample_task],
     mkSys tt [ getCard_request "41"; create_default_task_list_request "41";
                task_request "72" "Draft" 65536;
                task_request "72" "Review" 131072 ]) ∧
  createTasks (task_client true) any_email no_clock no_message two_tasks
    fresh
  = (Ok [sample_task; sample_task],
     mkSys tt [ getCard_request "41"; task_request "71" "Draft" 65536;
                task_request "71" "Review" 131072 ]).
Proof.
  split.
  - apply (proj2 (proj1 (proj1 (task_creation_default_task_list unit
                         (task_client false) any_email no_clock no_message
                         "41" fresh (mkSys tt [getCard_request "41"])
                         (mkCardDetails (card_record "41") [] [] [] [] [] [])
                         eq_refl)
                  eq_refl
                  (Ok (Some (JObj [("item", taskList_json "72" "41")]))) tt
                  eq_refl)
           two_tasks
           (mkBatchCreateTasks "41"
              [mkTaskInput "Draft" None; mkTaskInput "Review" None])
           eq_refl eq_refl) [sample_task; sample_task] tt).
    repeat (econstructor; try reflexivity).
  - destruct (proj1 (proj2 (task_creation_default_task_list unit
                         (task_client true) any_email no_clock no_message
                         "41" fresh (mkSys tt [getCard_request "41"])
                         (mkCardDetails (card_record "41")
                            [sample_task_list] [] [] [] [] [])
                         eq_refl)) ltac:(discriminate))
      as (taskList & Hin & _ & Hrun & _).
    apply list_elem_of_singleton in Hin as ->.
    apply (proj2 (Hrun two_tasks
                    (mkBatchCreateTasks "41"
                       [mkTaskInput "Draft" None; mkTaskInput "Review" None])
                    eq_refl eq_refl) [sample_task; sample_task] tt).
    repeat (econstructor; try reflexivity).
Defined.

(** ** The structure view *)

Lemma named_lists_entries (lists : list BList.t) :
  map (λ l, obj [ ("id", str (BList.id l));
                  ("name", Some (from_option JStr JNull (BList.name l))) ])
    (filter (λ l, BList.name l ≠ None) lists)
  = omap (λ l, list_entry (BList.id l) <$> BList.name l) lists.
Proof.
  induction lists as [|l lists IH]; [done|].
  destruct (BList.name l) as [n|] eqn:Hn.
  - rewrite filter_cons_True by congruence. simpl. by rewrite Hn, IH.
  - rewrite filter_cons_False by (rewrite Hn; tauto). simpl. by rewrite Hn.
Qed.

Lemma lists_of_view_format_structure structure :
  lists_of_view (format_structure structure)
  = omap (λ l, list_entry (BList.id l) <$> BList.name l)
      (lists_of_structure structure).
Proof.
  unfold lists_of_view, lists_of_structure, format_structure.
  simpl elements.
  induction structure as [|project structure IH]; [done|].
  cbn [map]. rewrite !bind_cons, omap_app, <- IH. f_equal. clear IH.
  match goal with
  | |- elements (property "boards"
                   (obj [_; ("boards", Some (JArr ?boards))])) ≫= _ = _ =>
      change (elements (property "boards" (obj _))) with boards
  end.
  induction (ps_boards project) as [|board boards IHb]; [done|].
  cbn [map]. rewrite !bind_cons, omap_app, <- IHb. f_equal.
  match goal with
  | |- elements (property "lists"
                   (obj [_; _; ("lists", Some (JArr ?lists))])) = _ =>
      change (elements (property "lists" (obj _))) with lists
  end.
  apply named_lists_entries.
Qed.

(** C8. The value that the handler of [planka_get_structure] serialises is
    made from the structure that [getStructure] returns; the entries of its
    lists are, in order, the id and the name of each list of the structure
    that has a name: a list whose name is [null] has no entry. *)
Theorem getStructure_view_omits_unnamed_lists :
  ∀ W client is_email zod_message projectId (s s' : Sys W) view,
    getStructureTool_handler client is_email zod_message projectId s
    = (Ok view, s') →
    ∃ structure,
      getStructure client is_email zod_message projectId s
      = (Ok structure, s') ∧
      lists_of_view view
      = omap (λ l, list_entry (BList.id l) <$> BList.name l)
          (lists_of_structure structure) ∧
      ∀ entry, entry ∈ lists_of_view view →
        ∃ l name, l ∈ lists_of_structure structure ∧
                  BList.name l = Some name ∧
                  entry = list_entry (BList.id l) name.
Proof.
  intros W client is_email zod_message projectId s s' view.
  unfold getStructureTool_handler, bind.
  destruct (getStructure _ _ _ _ s) as [[structure|e] s1]; [|done].
  intros [= <- <-]. exists structure. split; [done|].
  split; [apply lists_of_view_format_structure|].
  intros entry. rewrite lists_of_view_format_structure.
  intros (l & Hl & Hentry)%list_elem_of_omap.
  destruct (BList.name l) as [name|] eqn:Hn; [|done].
  injection Hentry as <-. by exists l, name.
Qed.

(** The sample service: the archive list "10" of the board "3" is in the
    structure and not in the view. *)
Lemma getStructure_view_witness :
  ∃ view structure,
    getStructureTool_handler structure_client any_email no_message None fresh
    = (Ok view,
       mkSys tt [ mkReq GET "/api/projects" None; getBoard_request "3";
                  getBoard_request "4" ]) ∧
    BList.id <$> lists_of_structure structure = ["10"; "11"; "12"] ∧
    lists_of_view view = [list_entry "11" "To do"; list_entry "12" "Doing"].
Proof.
  eexists.
  destruct (getStructure_view_omits_unnamed_lists unit structure_client
              any_email no_message None fresh _ _ eq_refl)
    as (structure & Hs & Hview & _).
  exists structure. split; [reflexivity|].
  vm_compute in Hs. injection Hs as <-.
  split; [reflexivity|]. rewrite Hview. reflexivity.
Defined.

(** ** The client *)

Section client_facts.
Context (env : Env) (valid_url : string → bool) (js_String : Json → string).
Context (service : Net → Fetch → Outcome * Z).
Context (zod_message : string → Value → string).

Local Abbreviation resolve := (this_getConfig env valid_url).
Local Abbreviation auth := (authenticate env valid_url service zod_message).
Local Abbreviation get_token := (getToken env valid_url service zod_message).
Local Abbreviation try_once :=
  (attempt env valid_url js_String service zod_message).
Local Abbreviation req :=
  (request env valid_url js_String service zod_message).

Lemma this_getConfig_resolved s cfg :
  config (this s) = Some cfg → resolve s = (Ok cfg, s).
Proof. intros H. unfold this_getConfig. by rewrite H. Qed.

Lemma this_getConfig_Ok s cfg s0 :
  resolve s = (Ok cfg, s0) →
  config (this s0) = Some cfg ∧ token (this s0) = token (this s) ∧
  tokenExpiresAt (this s0) = tokenExpiresAt (this s) ∧ net s0 = net s.
Proof.
  unfold this_getConfig.
  destruct (config (this s)) as [c|] eqn:Hc.
  - by intros [= <- <-].
  - destruct (getConfig env valid_url) as [c|e]; [|done]. by intros [= <- <-].
Qed.

Lemma fetch_run s call :
  fetch service call s = (Ok (service (net s) call).1, fetched service s call).
Proof. unfold fetch, fetched. by destruct (service _ _). Qed.

(** With the configuration resolved, [authenticate] makes one call of the
    token endpoint, whatever comes of it; a token that comes is cached with
    an expiry of 25 minutes from the time it came. *)
Lemma authenticate_run s cfg res s' :
  config (this s) = Some cfg →
  auth s = (res, s') →
  net s' = net (fetched service s (access_tokens_call cfg)) ∧
  config (this s') = Some cfg ∧
  match res with
  | Ok t => token (this s') = Some t ∧
            tokenExpiresAt (this s') = (now (net s') + 1500000)%Z
  | Throw _ => this s' = this s
  end.
Proof.
  intros Hc. unfold authenticate.
  rewrite (bind_Ok _ _ _ _ _ (this_getConfig_resolved _ _ Hc)).
  rewrite (bind_Ok _ _ _ _ _ (fetch_run _ _)).
  destruct (service (net s) (access_tokens_call cfg)).1 as [name|r].
  - destruct (String.eqb name "AbortError"); by intros [= <- <-].
  - destruct (negb (ok r)); [by intros [= <- <-]|].
    destruct (json r) as [data|]; [|by intros [= <- <-]].
    destruct (AuthResponse (Some data)) as [item|]; by intros [= <- <-].
Qed.

Lemma getToken_valid s :
  token_valid s → ∃ t, token (this s) = Some t ∧ get_token s = (Ok t, s).
Proof.
  intros [Ht Hn]. unfold has_token in Ht. unfold getToken.
  destruct (token (this s)) as [t|]; [|done]. exists t. split; [done|].
  rewrite Ht. simpl.
  by destruct (Z.leb_spec (tokenExpiresAt (this s)) (now (net s))); [lia|].
Qed.

Lemma getToken_invalid s : ¬ token_valid s → get_token s = auth s.
Proof.
  intros H. unfold getToken.
  destruct (token (this s)) as [t|] eqn:Et; [|done].
  destruct (truthy_str (Some t)) eqn:Ht; [|done]. simpl.
  destruct (Z.leb_spec (tokenExpiresAt (this s)) (now (net s))); [done|].
  destruct H. split; [|done]. unfold has_token. by rewrite Et.
Qed.

Lemma token_valid_dec s : token_valid s ∨ ¬ token_valid s.
Proof.
  unfold token_valid, has_token.
  destruct (truthy_str (token (this s)));
    destruct (Z.lt_ge_cases (now (net s)) (tokenExpiresAt (this s)));
    first [by left | right; intros [? ?]; first [done | lia]].
Qed.

(** C2, as the code has it.  [getToken] returns the cached token, leaving
    client and world as they are (nothing is fetched), exactly when a token
    that is not the empty string is cached and the clock is before
    [tokenExpiresAt]; in every other state it is one run of [authenticate],
    which calls the token endpoint once.  When the endpoint answers with a
    success status and a body of the shape of [AuthResponse], the token of
    the body is returned and cached with [tokenExpiresAt] 25 minutes after
    the time the answer came; when [authenticate] throws, token and expiry
    are as they were.  So after a run of [getToken] that returned a token
    that is not empty, a second run at any time before [tokenExpiresAt]
    returns that token and fetches nothing: the two runs call the token
    endpoint at most once. *)
Theorem getToken_cached_or_authenticates :
  ∀ s cfg,
    config (this s) = Some cfg →
    (token_valid s ↔ ∃ t, token (this s) = Some t ∧ get_token s = (Ok t, s)) ∧
    (¬ token_valid s →
     get_token s = auth s ∧
     (∀ res s', get_token s = (res, s') →
        net s' = net (fetched service s (access_tokens_call cfg)) ∧
        wire (net s') = (wire (net s) ++ [access_tokens_call cfg])%list ∧
        match res with
        | Ok t =>
            this s'
            = mkPlankaClient (Some cfg) (Some t)
                (now (net s') + 25 * 60 * 1000)
        | Throw _ => this s' = this s
        end) ∧
     ∀ r data t,
       (service (net s) (access_tokens_call cfg)).1 = Responds r →
       ok r = true → json r = Ok data →
       AuthResponse (Some data) = Some t →
       get_token s
       = (Ok t,
          mkProc
            (mkPlankaClient (Some cfg) (Some t)
               (now (net s) + (service (net s) (access_tokens_call cfg)).2
                + 25 * 60 * 1000))
            (net (fetched service s (access_tokens_call cfg))))) ∧
    (∀ t s1, get_token s = (Ok t, s1) → t ≠ "" →
       (wire (net s1) = wire (net s) ∨
        wire (net s1) = (wire (net s) ++ [access_tokens_call cfg])%list) ∧
       ∀ s2, this s2 = this s1 →
             (now (net s2) < tokenExpiresAt (this s1))%Z →
             get_token s2 = (Ok t, s2)).
Proof.
  intros s cfg Hcfg.
  assert (Hinv : ¬ token_valid s →
            ∀ res s', get_token s = (res, s') →
              net s' = net (fetched service s (access_tokens_call cfg)) ∧
              wire (net s') = (wire (net s) ++ [access_tokens_call cfg])%list ∧
              match res with
              | Ok t =>
                  this s'
                  = mkPlankaClient (Some cfg) (Some t)
                      (now (net s') + 25 * 60 * 1000)
              | Throw _ => this s' = this s
              end).
  { intros Hn res s' Hrun. rewrite (getToken_invalid _ Hn) in Hrun.
    destruct (authenticate_run _ _ _ _ Hcfg Hrun) as (Hnet & Hc & Hres).
    split; [done|]. split; [by rewrite Hnet|].
    destruct res as [t|e]; [|done]. destruct Hres as [Ht He].
    destruct (this s') as [c t' x]. simpl in *. by subst. }
  split; [split|split].
  - apply getToken_valid.
  - intros (t & Ht & Hrun).
    destruct (token_valid_dec s) as [|Hn]; [done|].
    destruct (Hinv Hn _ _ Hrun) as (_ & Hw & _).
    apply (f_equal length) in Hw. rewrite length_app in Hw. simpl in Hw. lia.
  - intros Hn. split; [by apply getToken_invalid|]. split; [by apply Hinv|].
    intros r data t Hs Hok Hj Ha. rewrite (getToken_invalid _ Hn).
    unfold authenticate.
    rewrite (bind_Ok _ _ _ _ _ (this_getConfig_resolved _ _ Hcfg)).
    rewrite (bind_Ok _ _ _ _ _ (fetch_run _ _)), Hs, Hok, Hj, Ha.
    simpl. by rewrite Hcfg.
  - intros t s1 Hrun Ht.
    assert (token (this s1) = Some t ∧
            (token_valid s ∧ s1 = s ∨
             wire (net s1) = (wire (net s) ++ [access_tokens_call cfg])%list))
      as (Htok & Hcase).
    { destruct (token_valid_dec s) as [Hv|Hn].
      - destruct (getToken_valid _ Hv) as (t' & Ht' & Hrun').
        rewrite Hrun in Hrun'. injection Hrun' as -> ->. split; [done|].
        by left.
      - destruct (Hinv Hn _ _ Hrun) as (_ & Hw & Hres).
        rewrite Hres. split; [done|]. by right. }
    split.
    + destruct Hcase as [[_ ->]|Hw]; [by left|by right].
    + intros s2 Hthis Hnow.
      destruct (getToken_valid s2) as (t' & Ht' & Hrun').
      { split; [|by rewrite Hthis]. unfold has_token. rewrite Hthis, Htok.
        simpl. by destruct (String.eqb_spec t ""). }
      rewrite Hthis, Htok in Ht'. by injection Ht' as <-.
Qed.

Lemma getToken_config s cfg res s' :
  config (this s) = Some cfg → get_token s = (res, s') →
  config (this s') = Some cfg.
Proof.
  intros Hc Hrun. destruct (token_valid_dec s) as [Hv|Hn].
  - destruct (getToken_valid _ Hv) as (t & _ & Hrun').
    rewrite Hrun in Hrun'. by injection Hrun' as _ ->.
  - rewrite (getToken_invalid _ Hn) in Hrun.
    by destruct (authenticate_run _ _ _ _ Hc Hrun) as (_ & ? & _).
Qed.

(** One run of the body of [request], from the configuration and the token
    it obtained. *)
Lemma attempt_after_fetch method path body isRetry s cfg s0 t s1 :
  resolve s = (Ok cfg, s0) → get_token s0 = (Ok t, s1) →
  let call := api_call cfg method path body t in
  let s2 := fetched service s1 call in
  let context := Method_str method +:+ " " +:+ path in
  try_once method path body isRetry s
  = match (service (net s1) call).1 with
    | Rejects error_name =>
        (Throw (newPlankaNetworkError
                  ((if String.eqb error_name "AbortError"
                    then "Request timeout: " else "Network error: ")
                   +:+ context)), s2)
    | Responds r =>
        if (status r =? 204)%Z then (Ok (Returns None), s2)
        else if ok r then (Ok (Returns (Some (safeParseJson r))), s2)
        else if (status r =? 401)%Z && truthy_str (token (this s1))
                && negb isRetry
        then (Ok (Retry true), cleared s2)
        else (Throw (createPlankaError js_String (status r)
                       (Some (safeParseJson r)) (Some context)), s2)
    end.
Proof.
  intros Hc Ht call s2 context. unfold attempt.
  rewrite (bind_Ok _ _ _ _ _ Hc), (bind_Ok _ _ _ _ _ Ht).
  rewrite (bind_Ok _ _ _ _ _ (fetch_run _ _)). fold call s2.
  destruct (service (net s1) call).1 as [name|r].
  - by destruct (String.eqb name "AbortError").
  - destruct (status r =? 204)%Z; [done|]. destruct (ok r); [done|]. simpl.
    unfold bind, get_state.
    change (token (this s2)) with (token (this s1)).
    by destruct ((status r =? 401)%Z && truthy_str (token (this s1))
                 && negb isRetry).
Qed.

(** A run that is a retry does not ask for another. *)
Lemma attempt_retry_once method path body isRetry s again s' :
  try_once method path body isRetry s = (Ok (Retry again), s') →
  isRetry = false ∧ again = true.
Proof.
  destruct (resolve s) as [[cfg|e] s0] eqn:Hc;
    [|by unfold attempt; rewrite (bind_Throw _ _ _ _ _ Hc)].
  destruct (get_token s0) as [[t|e] s1] eqn:Ht;
    [|by unfold attempt;
         rewrite (bind_Ok _ _ _ _ _ Hc), (bind_Throw _ _ _ _ _ Ht)].
  rewrite (attempt_after_fetch _ _ _ _ _ _ _ _ _ Hc Ht).
  destruct (service _ _).1 as [name|r]; [done|].
  destruct (status r =? 204)%Z; [done|]. destruct (ok r); [done|].
  destruct ((status r =? 401)%Z && truthy_str _); simpl; [|done].
  destruct isRetry; simpl; [done|]. by intros [= <-].
Qed.

(** Two levels of recursion are all that [request] ever uses. *)
Lemma request_total n method path body isRetry s :
  ∃ out, req (S (S n)) method path body isRetry s = Some out ∧
         req 2 method path body isRetry s = Some out.
Proof.
  simpl. destruct (try_once method path body isRetry s)
    as [[[data|again]|e] s1] eqn:H1; [by eexists| |by eexists].
  apply attempt_retry_once in H1 as [_ ->].
  destruct (try_once method path body true s1)
    as [[[data|again]|e] s2] eqn:H2; [by eexists| |by eexists].
  by apply attempt_retry_once in H2 as [? _].
Qed.

Lemma plankaClient_returns n r s :
  plankaClient env valid_url js_String service zod_message (S (S n)) r s
  = Some (plankaClient_call env valid_url js_String service zod_message r s).
Proof.
  unfold plankaClient_call, plankaClient.
  destruct (request_total n (method r) (path r) (body r) false s)
    as (out & -> & ->). done.
Qed.

(** The retry: from a client without token and with the configuration
    resolved, [request] with [isRetry] set calls the token endpoint once
    and, with the token that came, the API once; what the API answers is the
    outcome. *)
Lemma request_as_retry n method path body s3 cfg :
  config (this s3) = Some cfg → token (this s3) = None →
  ∃ res s',
    req (S n) method path body true s3 = Some (res, s') ∧
    match auth s3 with
    | (Ok t', s4) =>
        wire (net s')
        = (wire (net s3) ++ [ access_tokens_call cfg;
                              api_call cfg method path body t' ])%list ∧
        ∀ r', (service (net s4) (api_call cfg method path body t')).1
              = Responds r' →
              ok r' = false →
              res = Throw (createPlankaError js_String (status r')
                             (Some (safeParseJson r'))
                             (Some (Method_str method +:+ " " +:+ path)))
    | (Throw e, s4) =>
        res = Throw e ∧
        wire (net s') = (wire (net s3) ++ [access_tokens_call cfg])%list
    end.
Proof.
  intros Hc Hnone.
  pose proof (this_getConfig_resolved _ _ Hc) as Hres.
  assert (get_token s3 = auth s3) as Htok.
  { apply getToken_invalid. intros [Ht _]. unfold has_token in Ht.
    by rewrite Hnone in Ht. }
  destruct (auth s3) as [[t'|e] s4] eqn:Ha.
  - destruct (authenticate_run _ _ _ _ Hc Ha) as (Hnet & _ & _).
    pose proof (attempt_after_fetch method path body true _ _ _ _ _ Hres Htok)
      as Hrun. simpl in Hrun.
    simpl. rewrite Hrun.
    destruct (service (net s4) _).1 as [name|r'] eqn:Hs.
    + eexists _, _. split; [reflexivity|]. simpl.
      rewrite Hnet. simpl. rewrite <- app_assoc. by split.
    + destruct (status r' =? 204)%Z eqn:E204.
      * eexists _, _. split; [reflexivity|]. simpl.
        rewrite Hnet. simpl. rewrite <- app_assoc. split; [done|].
        intros ? [= <-] Hok. apply Z.eqb_eq in E204. unfold ok in Hok.
        rewrite E204 in Hok. done.
      * destruct (ok r') eqn:Eok.
        -- eexists _, _. split; [reflexivity|]. simpl.
           rewrite Hnet. simpl. rewrite <- app_assoc. split; [done|].
           intros ? [= <-]. congruence.
        -- rewrite andb_false_r.
           eexists _, _. split; [reflexivity|]. simpl.
           rewrite Hnet. simpl. rewrite <- app_assoc. split; [done|].
           by intros ? [= <-] _.
  - destruct (authenticate_run _ _ _ _ Hc Ha) as (Hnet & _ & _).
    simpl. unfold attempt.
    rewrite (bind_Ok _ _ _ _ _ Hres), (bind_Throw _ _ _ _ _ Htok).
    eexists _, _. split; [reflexivity|]. split; [done|]. by rewrite Hnet.
Qed.

(** C1, as the code has it.  A request whose response is a 401 while a
    token is cached, and that is not a retry, clears the cached token and
    becomes the retry from that state.  The retry calls the token endpoint
    once.  When a token comes, it makes the same call once with that token,
    and a response to it that is an error (a 401 among them) is thrown,
    nothing more being sent; when none comes, the error of the
    authentication is thrown and the call is not made again.  A response of
    any other error status is thrown at once, with that one call made.  No
    run of [request] recurses more than once. *)
Theorem request_retries_once_on_401 :
  ∀ n method path body s cfg s0 t s1 r,
    resolve s = (Ok cfg, s0) →
    get_token s0 = (Ok t, s1) →
    (service (net s1) (api_call cfg method path body t)).1 = Responds r →
    let s2 := fetched service s1 (api_call cfg method path body t) in
    let context := Method_str method +:+ " " +:+ path in
    (status r = 401 → has_token s1 →
     req (S (S n)) method path body false s
     = req (S n) method path body true (cleared s2) ∧
     token (this (cleared s2)) = None ∧
     tokenExpiresAt (this (cleared s2)) = 0 ∧
     ∃ res s',
       req (S n) method path body true (cleared s2) = Some (res, s') ∧
       match auth (cleared s2) with
       | (Ok t', s4) =>
           wire (net s')
           = (wire (net s2) ++ [ access_tokens_call cfg;
                                 api_call cfg method path body t' ])%list ∧
           ∀ r', (service (net s4) (api_call cfg method path body t')).1
                 = Responds r' →
                 ok r' = false →
                 res = Throw (createPlankaError js_String (status r')
                                (Some (safeParseJson r')) (Some context))
       | (Throw e, s4) =>
           res = Throw e ∧
           wire (net s') = (wire (net s2) ++ [access_tokens_call cfg])%list
       end) ∧
    (ok r = false → status r ≠ 401 →
     req (S n) method path body false s
     = Some (Throw (createPlankaError js_String (status r)
                      (Some (safeParseJson r)) (Some context)), s2) ∧
     wire (net s2)
     = (wire (net s1) ++ [api_call cfg method path body t])%list) ∧
    (∀ isRetry s', ∃ out,
       req (S (S n)) method path body isRetry s' = Some out ∧
       req 2 method path body isRetry s' = Some out).
Proof.
  intros n method path body s cfg s0 t s1 r Hc Ht Hr s2 context.
  pose proof (attempt_after_fetch method path body false _ _ _ _ _ Hc Ht)
    as Hrun. simpl in Hrun. rewrite Hr in Hrun. fold s2 context in Hrun.
  split; [|split].
  - intros H401 Htok. unfold has_token in Htok.
    assert (ok r = false) as Hok by (unfold ok; by rewrite H401).
    rewrite H401, Htok, Hok in Hrun. simpl in Hrun.
    split; [simpl; by rewrite Hrun|]. split; [done|]. split; [done|].
    destruct (request_as_retry n method path body (cleared s2) cfg)
      as (res & s' & H1 & H2); [|done|].
    { simpl. destruct (this_getConfig_Ok _ _ _ Hc) as (Hc0 & _).
      by eapply getToken_config. }
    exists res, s'. split; [done|]. exact H2.
  - intros Hok H401. apply Z.eqb_neq in H401.
    assert ((status r =? 204)%Z = false) as H204.
    { apply Z.eqb_neq. intros E. unfold ok in Hok. by rewrite E in Hok. }
    rewrite H204, Hok, H401 in Hrun. simpl in Hrun.
    split; [simpl; by rewrite Hrun|done].
  - intros isRetry s'. apply request_total.
Qed.
End client_facts.

(** The token "stale" is cached and its expiry is ahead: it is returned and
    nothing is fetched.  The token "old" has expired: the token endpoint is
    called, and the token "fresh" of its answer, which came at the time
    1020, is returned and cached with the expiry 1501020. *)
Lemma getToken_witness :
  (∃ t, token (this stale_client) = Some t ∧
        getToken sample_env any_url (sample_service (λ _, false)) no_message
          stale_client
        = (Ok t, stale_client)) ∧
  getToken sample_env any_url (sample_service (λ _, false)) no_message
    expired_client
  = (Ok "fresh",
     mkProc (mkPlankaClient (Some sample_config) (Some "fresh") 1501020)
       (mkNet 1020 [access_tokens_call sample_config])).
Proof.
  split.
  - apply (proj1 (proj1 (getToken_cached_or_authenticates sample_env any_url
                           (sample_service (λ _, false)) no_message
                           stale_client sample_config eq_refl))).
    split; reflexivity.
  - refine (proj2 (proj2 (proj1 (proj2 (getToken_cached_or_authenticates
                     sample_env any_url (sample_service (λ _, false))
                     no_message expired_client sample_config eq_refl)) _))
              (mkResponse 200 "OK" (Ok (JObj [("item", JStr "fresh")])))
              (JObj [("item", JStr "fresh")]) "fresh"
              eq_refl eq_refl eq_refl eq_refl).
    intros [_ H]. simpl in H. lia.
Defined.

(** C2 as stated fails: the token endpoint answers with the empty string as
    the token.  It is cached, and its expiry is ahead, yet the next run of
    [getToken] calls the token endpoint again: two calls are on the wire. *)
Lemma getToken_empty_token_authenticates_again :
  ∃ s1 s2,
    getToken sample_env any_url empty_token_service no_message expired_client
    = (Ok "", s1) ∧
    token (this s1) = Some "" ∧
    (now (net s1) < tokenExpiresAt (this s1))%Z ∧
    getToken sample_env any_url empty_token_service no_message s1
    = (Ok "", s2) ∧
    wire (net s2)
    = [access_tokens_call sample_config; access_tokens_call sample_config].
Proof. eexists _, _. repeat split; reflexivity. Qed.

(** The service answers the token "stale" with 401 and accepts no other:
    the request becomes its retry, which authenticates, repeats the call
    with the token "fresh" and throws the 401 that it gets; three calls are
    on the wire. *)
Lemma request_retry_witness :
  request sample_env any_url text_of (sample_service (λ _, false)) no_message
    2 GET "/api/projects" None false stale_client
  = request sample_env any_url text_of (sample_service (λ _, false))
      no_message 1 GET "/api/projects" None true
      (cleared (fetched (sample_service (λ _, false)) stale_client
                  (api_call sample_config GET "/api/projects" None "stale")))
  ∧
  ∃ s',
    request sample_env any_url text_of (sample_service (λ _, false))
      no_message 2 GET "/api/projects" None false stale_client
    = Some (Throw (newPlankaAuthError "Token expired (GET /api/projects)"),
            s') ∧
    wire (net s')
    = [ api_call sample_config GET "/api/projects" None "stale";
        access_tokens_call sample_config;
        api_call sample_config GET "/api/projects" None "fresh" ].
Proof.
  split.
  - refine (proj1 (proj1 (request_retries_once_on_401 sample_env any_url
                            text_of (sample_service (λ _, false)) no_message
                            0 GET "/api/projects" None stale_client
                            sample_config stale_client "stale" stale_client
                            (mkResponse 401 "Unauthorized"
                               (Ok (JObj [("message",
                                           JStr "Token expired")])))
                            eq_refl eq_refl eq_refl) eq_refl eq_refl)).
  - eexists. split; reflexivity.
Defined.

(** C1 as stated fails: the service answers the call with 401 while the
    token "stale" is cached, and refuses a new token.  The cached token is
    cleared and the token endpoint is called; the error of the
    authentication is thrown and the call is not made again. *)
Lemma request_401_is_not_reissued :
  has_token stale_client ∧
  request sample_env any_url text_of refusing no_message 2 GET
    "/api/projects" None false stale_client
  = Some (Throw (newPlankaAuthError "Authentication failed: 401 Unauthorized"),
          mkProc (mkPlankaClient (Some sample_config) None 0)
            (mkNet 1020
               [ api_call sample_config GET "/api/projects" None "stale";
                 access_tokens_call sample_config ])).
Proof. split; reflexivity. Qed.

(** * Further properties *)

(** ** The configuration *)

Lemma remove_trailing_slash_app s : remove_trailing_slash (s +:+ "/") = s.
Proof.
  induction s as [|c s IH]; [done|].
  destruct s as [|c' s']; [done|].
  change (String c (String c' s') +:+ "/")
    with (String c (String c' (s' +:+ "/"))).
  change (remove_trailing_slash (String c (String c' (s' +:+ "/"))))
    with (String c (remove_trailing_slash (String c' (s' +:+ "/")))).
  change (String c' (s' +:+ "/")) with (String c' s' +:+ "/").
  by rewrite IH.
Qed.

Lemma remove_trailing_slash_other s :
  (∀ u, s ≠ u +:+ "/") → remove_trailing_slash s = s.
Proof.
  induction s as [|c s IH]; [done|]. intros H.
  destruct s as [|c' s'].
  - change (remove_trailing_slash (String c ""))
      with (if String.eqb (String c "") "/" then "" else String c "").
    destruct (String.eqb_spec (String c "") "/") as [E|]; [|done].
    by destruct (H "").
  - change (remove_trailing_slash (String c (String c' s')))
      with (String c (remove_trailing_slash (String c' s'))).
    f_equal. apply IH. intros u Hu. apply (H (String c u)). simpl.
    by rewrite Hu.
Qed.

Lemma getConfig_Ok env valid_url cfg :
  getConfig env valid_url = Ok cfg →
  ∃ url, PLANKA_BASE_URL env = Some url ∧ url ≠ "" ∧ valid_url url = true ∧
         baseUrl cfg = remove_trailing_slash url ∧
         PLANKA_AGENT_EMAIL env = Some (email cfg) ∧ email cfg ≠ "" ∧
         PLANKA_AGENT_PASSWORD env = Some (password cfg) ∧ password cfg ≠ "".
Proof.
  unfold getConfig. destruct env as [[u|] [m|] [p|]]; simpl;
    repeat match goal with
           | |- context [String.eqb ?a ""] => destruct (String.eqb_spec a "")
           end; simpl; try done.
  destruct (valid_url u) eqn:Hu; [|done]. intros [= <-]. by exists u.
Qed.

Lemma getConfig_Throw env valid_url e :
  getConfig env valid_url = Throw e →
  err_name e = PlankaConfigError ∧ code_status e = Some ("CONFIG_ERROR", 0).
Proof.
  unfold getConfig. destruct env as [[u|] [m|] [p|]]; simpl;
    repeat match goal with
           | |- context [String.eqb ?a ""] => destruct (String.eqb_spec a "")
           end; simpl; try (by intros [= <-]).
  destruct (valid_url u); [done|]. by intros [= <-].
Qed.

(** X1. [getConfig] returns a configuration exactly when the three variables
    of the environment are set and not empty and the URL is one that
    [new URL] accepts; the configuration has the e-mail and the password as
    they are given and the URL with a trailing slash removed.  Every other
    environment makes it throw a PlankaConfigError (code CONFIG_ERROR,
    status 0). *)
Theorem getConfig_resolves_iff :
  ∀ env valid_url,
    (∀ cfg,
       getConfig env valid_url = Ok cfg ↔
       ∃ url, PLANKA_BASE_URL env = Some url ∧ url ≠ "" ∧
              valid_url url = true ∧
              baseUrl cfg = remove_trailing_slash url ∧
              PLANKA_AGENT_EMAIL env = Some (email cfg) ∧ email cfg ≠ "" ∧
              PLANKA_AGENT_PASSWORD env = Some (password cfg) ∧
              password cfg ≠ "") ∧
    (∀ e, getConfig env valid_url = Throw e →
          err_name e = PlankaConfigError ∧
          code_status e = Some ("CONFIG_ERROR", 0)).
Proof.
  intros env valid_url. split; [|apply getConfig_Throw].
  intros cfg. split; [apply getConfig_Ok|].
  intros (url & Hu & Hu' & Hv & Hb & Hm & Hm' & Hp & Hp').
  destruct cfg as [b m p], env as [u' m' p']. simpl in *. subst.
  unfold getConfig. simpl.
  destruct (String.eqb_spec url ""); [done|].
  destruct (String.eqb_spec m ""); [done|].
  destruct (String.eqb_spec p ""); [done|]. simpl. by rewrite Hv.
Qed.

Lemma getConfig_resolves_witness :
  getConfig sample_env any_url = Ok sample_config ∧
  ∃ e, getConfig env_without_password any_url = Throw e ∧
       err_name e = PlankaConfigError ∧
       message e
       = "Missing required environment variables: PLANKA_AGENT_PASSWORD".
Proof.
  split.
  - apply (getConfig_resolves_iff sample_env any_url).
    exists "https://planka.example/". by repeat split.
  - eexists. split; [reflexivity|]. by split.
Defined.

(** X2. The base URL of the configuration is the URL of the environment
    without its last character when that is a slash, and the URL itself
    otherwise: one slash is removed, not more. *)
Theorem getConfig_baseUrl_trailing_slash :
  ∀ env valid_url cfg url,
    getConfig env valid_url = Ok cfg → PLANKA_BASE_URL env = Some url →
    (∀ u, url = u +:+ "/" → baseUrl cfg = u) ∧
    ((∀ u, url ≠ u +:+ "/") → baseUrl cfg = url).
Proof.
  intros env valid_url cfg url Hc Hu.
  apply getConfig_Ok in Hc as (url' & Hu' & _ & _ & -> & _).
  rewrite Hu in Hu'. injection Hu' as <-. split.
  - intros u ->. apply remove_trailing_slash_app.
  - apply remove_trailing_slash_other.
Qed.

Lemma getConfig_baseUrl_witness :
  ∃ cfg, getConfig env_two_slashes any_url = Ok cfg ∧
         baseUrl cfg = "https://planka.example/".
Proof.
  eexists. split; [reflexivity|].
  by apply (getConfig_baseUrl_trailing_slash env_two_slashes any_url _
              "https://planka.example//").
Defined.

(** ** More of the client *)

Lemma createPlankaError_isPlankaError js_String status body context :
  isPlankaError (createPlankaError js_String status body context) = true.
Proof.
  unfold createPlankaError.
  by repeat match goal with
            | |- context [(?a =? ?b)%Z] => destruct (a =? b)%Z
            end.
Qed.

(** X3. The error made from a response keeps the status of the response,
    and its class is fixed by the status alone: 401, 403, 404 and 422 give
    the four special classes, every other status the base class; for a 404
    the body of the response plays no part. *)
Theorem createPlankaError_status_and_class :
  ∀ js_String status body context,
    let e := createPlankaError js_String status body context in
    isPlankaError e = true ∧
    snd <$> code_status e = Some status ∧
    (err_name e = PlankaAuthError ↔ status = 401) ∧
    (err_name e = PlankaPermissionError ↔ status = 403) ∧
    (err_name e = PlankaNotFoundError ↔ status = 404) ∧
    (err_name e = PlankaValidationError ↔ status = 422) ∧
    (err_name e = PlankaError ↔
     status ≠ 401 ∧ status ≠ 403 ∧ status ≠ 404 ∧ status ≠ 422) ∧
    (status = 404 →
     ∀ body', createPlankaError js_String status body' context = e).
Proof.
  intros js_String status body context e.
  split; [apply createPlankaError_isPlankaError|].
  subst e. unfold createPlankaError.
  destruct (Z.eqb_spec status 401) as [->|H401]; simpl;
    [repeat split; intros; try done; try lia|].
  destruct (Z.eqb_spec status 403) as [->|H403]; simpl;
    [repeat split; intros; try done; try lia|].
  destruct (Z.eqb_spec status 404) as [->|H404]; simpl;
    [repeat split; intros; try done; try lia|].
  destruct (Z.eqb_spec status 422) as [->|H422]; simpl;
    [repeat split; intros; try done; try lia|].
  repeat split; intros; try done; try lia.
Qed.

Section client_more.
Context (env : Env) (valid_url : string → bool) (js_String : Json → string).
Context (service : Net → Fetch → Outcome * Z).
Context (zod_message : string → Value → string).

Local Abbreviation resolve := (this_getConfig env valid_url).
Local Abbreviation auth := (authenticate env valid_url service zod_message).
Local Abbreviation get_token := (getToken env valid_url service zod_message).
Local Abbreviation try_once :=
  (attempt env valid_url js_String service zod_message).
Local Abbreviation req :=
  (request env valid_url js_String service zod_message).

(** X4. A client that has no configuration yet and finds none in the
    environment throws the error of [getConfig] from [request] and from
    [authenticate], and nothing else happens: no call of [fetch] is made
    and the client is as it was. *)
Theorem request_without_configuration :
  ∀ n method path body isRetry s e,
    config (this s) = None → getConfig env valid_url = Throw e →
    req (S n) method path body isRetry s = Some (Throw e, s) ∧
    auth s = (Throw e, s).
Proof.
  intros n method path body isRetry s e Hc He.
  assert (resolve s = (Throw e, s)) as Hr.
  { unfold this_getConfig. by rewrite Hc, He. }
  assert (auth s = (Throw e, s)) as Ha.
  { unfold authenticate. by rewrite (bind_Throw _ _ _ _ _ Hr). }
  split; [|done].
  simpl. unfold attempt. by rewrite (bind_Throw _ _ _ _ _ Hr).
Qed.

(** What [getToken] puts on the wire. *)
Lemma getToken_wire s cfg res s1 :
  config (this s) = Some cfg → get_token s = (res, s1) →
  config (this s1) = Some cfg ∧
  (wire (net s1) = wire (net s) ∨
   wire (net s1) = (wire (net s) ++ [access_tokens_call cfg])%list).
Proof.
  intros Hc Hrun. split; [by eapply getToken_config|].
  destruct (token_valid_dec s) as [Hv|Hn].
  - destruct (getToken_valid env valid_url service zod_message _ Hv)
      as (t & _ & Hrun').
    rewrite Hrun in Hrun'. injection Hrun' as _ ->. by left.
  - rewrite (getToken_invalid env valid_url service zod_message _ Hn) in Hrun.
    destruct (authenticate_run _ _ _ _ _ _ _ _ Hc Hrun) as (Hnet & _ & _).
    right. by rewrite Hnet.
Qed.

(** What one run of the body of [request] puts on the wire. *)
Lemma attempt_wire method path body isRetry s cfg res s' :
  config (this s) = Some cfg →
  try_once method path body isRetry s = (res, s') →
  config (this s') = Some cfg ∧
  ∃ l, wire (net s') = (wire (net s) ++ l)%list ∧
       Forall (request_call cfg method path body) l ∧ (length l ≤ 2)%nat.
Proof.
  intros Hc.
  pose proof (this_getConfig_resolved env valid_url _ _ Hc) as Hres.
  destruct (get_token s) as [[t|e] s1] eqn:Hg.
  - destruct (getToken_wire _ _ _ _ Hc Hg) as [Hc1 Hw].
    rewrite (attempt_after_fetch _ _ _ _ _ _ _ _ _ _ _ _ _ _ Hres Hg).
    assert (∃ l0, wire (net s1) = (wire (net s) ++ l0)%list ∧
                  Forall (request_call cfg method path body) l0 ∧
                  (length l0 ≤ 1)%nat) as (l0 & Hl0 & Hf0 & Hn0).
    { destruct Hw as [Hw|Hw].
      - exists []. rewrite app_nil_r. repeat split; [done|done|simpl; lia].
      - exists [access_tokens_call cfg]. repeat split; [done| |simpl; lia].
        constructor; [by left|done]. }
    assert (∀ s2, config (this s2) = Some cfg →
              net s2 = net (fetched service s1
                              (api_call cfg method path body t)) →
              config (this s2) = Some cfg ∧
              ∃ l, wire (net s2) = (wire (net s) ++ l)%list ∧
                   Forall (request_call cfg method path body) l ∧
                   (length l ≤ 2)%nat) as Hend.
    { intros s2 Hc2 Hn2. split; [done|].
      exists (l0 ++ [api_call cfg method path body t])%list.
      rewrite Hn2. simpl. rewrite Hl0, <- app_assoc. split; [done|]. split.
      - apply Forall_app. split; [done|]. constructor; [|done].
        right. by exists t.
      - rewrite length_app. simpl. lia. }
    destruct (service (net s1) _).1 as [name|r].
    + intros [= <- <-]. by apply Hend.
    + destruct (status r =? 204)%Z; [intros [= <- <-]; by apply Hend|].
      destruct (ok r); [intros [= <- <-]; by apply Hend|].
      destruct (_ && _); intros [= <- <-]; by apply Hend.
  - destruct (getToken_wire _ _ _ _ Hc Hg) as [Hc1 Hw].
    unfold attempt.
    rewrite (bind_Ok _ _ _ _ _ Hres), (bind_Throw _ _ _ _ _ Hg).
    intros [= <- <-]. split; [done|].
    destruct Hw as [Hw|Hw].
    + exists []. rewrite app_nil_r. repeat split; [done|done|simpl; lia].
    + exists [access_tokens_call cfg]. repeat split; [done| |simpl; lia].
      constructor; [by left|done].
Qed.

(** What a run of [request] puts on the wire. *)
Lemma request_wire n method path body isRetry s cfg res s' :
  config (this s) = Some cfg →
  req n method path body isRetry s = Some (res, s') →
  config (this s') = Some cfg ∧
  ∃ l, wire (net s') = (wire (net s) ++ l)%list ∧
       Forall (request_call cfg method path body) l ∧ (length l ≤ 4)%nat.
Proof.
  intros Hc.
  destruct n as [|n]; [done|]. simpl.
  destruct (try_once method path body isRetry s)
    as [[[data|again]|e] s1] eqn:H1.
  - intros [= <- <-].
    destruct (attempt_wire _ _ _ _ _ _ _ _ Hc H1) as (? & l & ? & ? & ?).
    split; [done|]. exists l. repeat split; [done|done|lia].
  - destruct (attempt_wire _ _ _ _ _ _ _ _ Hc H1) as (Hc1 & l1 & Hw1 & Hf1 & ?).
    apply attempt_retry_once in H1 as [_ ->].
    destruct n as [|n]; [done|]. simpl.
    destruct (try_once method path body true s1)
      as [[[data|again]|e] s2] eqn:H2.
    + intros [= <- <-].
      destruct (attempt_wire _ _ _ _ _ _ _ _ Hc1 H2)
        as (? & l2 & Hw2 & Hf2 & ?).
      split; [done|]. exists (l1 ++ l2)%list.
      rewrite Hw2, Hw1, <- app_assoc. split; [done|].
      split; [by apply Forall_app|]. rewrite length_app. lia.
    + by apply attempt_retry_once in H2 as [? _].
    + intros [= <- <-].
      destruct (attempt_wire _ _ _ _ _ _ _ _ Hc1 H2)
        as (? & l2 & Hw2 & Hf2 & ?).
      split; [done|]. exists (l1 ++ l2)%list.
      rewrite Hw2, Hw1, <- app_assoc. split; [done|].
      split; [by apply Forall_app|]. rewrite length_app. lia.
  - intros [= <- <-].
    destruct (attempt_wire _ _ _ _ _ _ _ _ Hc H1) as (? & l & ? & ? & ?).
    split; [done|]. exists l. repeat split; [done|done|lia].
Qed.

Lemma plankaClient_call_wire r s cfg :
  config (this s) = Some cfg →
  makes_calls_of cfg r s
    (plankaClient_call env valid_url js_String service zod_message r s).2.
Proof.
  intros Hc.
  pose proof (plankaClient_returns env valid_url js_String service
                zod_message 0 r s) as Hrun.
  destruct (plankaClient_call _ _ _ _ _ r s) as [res s'].
  by apply (request_wire _ _ _ _ _ _ _ _ _ Hc Hrun).
Qed.

(** X5. Whatever comes of it, a run of [request] by a configured client
    makes at most four calls of [fetch]: each is the call of the token
    endpoint or the API call of the request, at the base URL of the
    configuration and with a bearer token; the configuration stays.  So it
    is for a call through [get], [post], [patch] or [delete], which always
    returns or throws. *)
Theorem request_footprint :
  ∀ cfg,
    (∀ n method path body isRetry s res s',
       config (this s) = Some cfg →
       req n method path body isRetry s = Some (res, s') →
       makes_calls_of cfg (mkReq method path body) s s') ∧
    (∀ r s,
       config (this s) = Some cfg →
       ∃ res s',
         plankaClient env valid_url js_String service zod_message 2 r s
         = Some (res, s') ∧
         makes_calls_of cfg r s s').
Proof.
  intros cfg. split.
  - intros n method path body isRetry s res s' Hc Hrun.
    by apply (request_wire _ _ _ _ _ _ _ _ _ Hc Hrun).
  - intros r s Hc.
    pose proof (plankaClient_call_wire r s cfg Hc) as Hw.
    rewrite (plankaClient_returns env valid_url js_String service
               zod_message 0 r s).
    destruct (plankaClient_call _ _ _ _ _ r s) as [res s'].
    by exists res, s'.
Qed.

(** The errors of [authenticate]: the ones it makes are PlankaErrors; the
    others are the errors of [response.json()] and of [AuthResponse.parse]
    on the reply of the token endpoint. *)
Lemma authenticate_error s e s' :
  auth s = (Throw e, s') →
  isPlankaError e = true ∨ token_reply_error service zod_message e s'.
Proof.
  unfold authenticate. destruct (resolve s) as [[cfg|e0] s0] eqn:Hr.
  - rewrite (bind_Ok _ _ _ _ _ Hr), (bind_Ok _ _ _ _ _ (fetch_run _ _ _)).
    destruct (service (net s0) (access_tokens_call cfg)).1 as [name|r] eqn:Hs.
    { destruct (String.eqb name "AbortError"); intros [= <- <-]; by left. }
    destruct (ok r) eqn:Hok; [|intros [= <- <-]; by left]. cbn [negb].
    destruct (json r) as [data|error] eqn:Hj.
    + destruct (AuthResponse (Some data)) eqn:Ha; [done|].
      intros [= <- <-]. right. exists cfg, (net s0), r.
      split; [by destruct (this_getConfig_Ok _ _ _ _ _ Hr)|].
      repeat split; try done. right. by exists data.
    + intros [= <- <-]. right. exists cfg, (net s0), r.
      split; [by destruct (this_getConfig_Ok _ _ _ _ _ Hr)|].
      repeat split; try done. by left.
  - rewrite (bind_Throw _ _ _ _ _ Hr). intros [= <- <-]. left.
    unfold this_getConfig in Hr. destruct (config (this s)); [done|].
    destruct (getConfig env valid_url) eqn:Hg; [done|].
    injection Hr as <- <-. apply getConfig_Throw in Hg as [Hn _].
    unfold isPlankaError. by rewrite Hn.
Qed.

Lemma getToken_Throw s e s' :
  get_token s = (Throw e, s') → auth s = (Throw e, s').
Proof.
  unfold getToken. destruct (token (this s)); [|done].
  by destruct (negb _ || _).
Qed.

Lemma attempt_error method path body isRetry s e s' :
  try_once method path body isRetry s = (Throw e, s') →
  isPlankaError e = true ∨ token_reply_error service zod_message e s'.
Proof.
  destruct (resolve s) as [[cfg|e0] s0] eqn:Hr.
  - destruct (get_token s0) as [[t|e1] s1] eqn:Hg.
    + rewrite (attempt_after_fetch _ _ _ _ _ _ _ _ _ _ _ _ _ _ Hr Hg).
      destruct (service _ _).1 as [name|r]; [intros [= <- <-]; by left|].
      destruct (status r =? 204)%Z; [done|]. destruct (ok r); [done|].
      destruct (_ && _); [done|]. intros [= <- <-]. left.
      apply createPlankaError_isPlankaError.
    + unfold attempt.
      rewrite (bind_Ok _ _ _ _ _ Hr), (bind_Throw _ _ _ _ _ Hg).
      intros [= <- <-]. apply getToken_Throw in Hg.
      by apply authenticate_error in Hg.
  - unfold attempt. rewrite (bind_Throw _ _ _ _ _ Hr). intros [= <- <-]. left.
    unfold this_getConfig in Hr. destruct (config (this s)); [done|].
    destruct (getConfig env valid_url) eqn:Hg; [done|].
    injection Hr as <- <-. apply getConfig_Throw in Hg as [Hn _].
    unfold isPlankaError. by rewrite Hn.
Qed.

(** X6. An error that [request] throws is a PlankaError, unless it comes of
    a reply of the token endpoint with a success status, the last call made:
    then it is the error with which reading the body of that reply rejected
    (a SyntaxError for a body that is not JSON, a TypeError or the reason of
    the abort for a body that could not be read), or the ZodError of a body
    that is not of the shape of [AuthResponse]. *)
Theorem request_throws_PlankaError_or_token_reply_error :
  ∀ n method path body isRetry s e s',
    req n method path body isRetry s = Some (Throw e, s') →
    isPlankaError e = true ∨
    ∃ cfg w r,
      config (this s') = Some cfg ∧
      (service w (access_tokens_call cfg)).1 = Responds r ∧ ok r = true ∧
      wire (net s') = (wire w ++ [access_tokens_call cfg])%list ∧
      (json r = Throw e ∨
       ∃ data, json r = Ok data ∧ AuthResponse (Some data) = None ∧
               e = mkErr ZodError (zod_message "AuthResponse" (Some data))
                     None).
Proof.
  induction n as [|n IH]; intros method path body isRetry s e s'; [done|].
  simpl.
  destruct (try_once method path body isRetry s)
    as [[[data|again]|e0] s1] eqn:H1; [done|by apply IH|].
  intros [= <- <-]. by eapply attempt_error.
Qed.

(** X7. A response with a success status ends the request: after a 204 the
    value is [undefined], whatever the body; after any other the value is
    the parsed body, or [null] when reading the body fails (it is not JSON).
    The one call was made and the client is as [getToken] left it. *)
Theorem request_returns_body_or_undefined :
  ∀ n method path body isRetry s cfg s0 t s1 r,
    resolve s = (Ok cfg, s0) → get_token s0 = (Ok t, s1) →
    (service (net s1) (api_call cfg method path body t)).1 = Responds r →
    ok r = true →
    req (S n) method path body isRetry s
    = Some (Ok (if (status r =? 204)%Z then None
                else Some (match json r with
                           | Ok data => data
                           | Throw _ => JNull
                           end)),
            fetched service s1 (api_call cfg method path body t)).
Proof.
  intros n method path body isRetry s cfg s0 t s1 r Hr Hg Hs Hok. simpl.
  rewrite (attempt_after_fetch _ _ _ _ _ _ _ _ _ _ _ _ _ _ Hr Hg), Hs.
  destruct (status r =? 204)%Z; [done|]. by rewrite Hok.
Qed.

(** X8. A call of [fetch] that rejects ends the request with a
    PlankaNetworkError (code NETWORK_ERROR, status 0) that names method and
    path, as a timeout when the rejection is an AbortError; the request is
    not made again and the cached token is kept. *)
Theorem request_network_failure_is_not_retried :
  ∀ n method path body isRetry s cfg s0 t s1 name,
    resolve s = (Ok cfg, s0) → get_token s0 = (Ok t, s1) →
    (service (net s1) (api_call cfg method path body t)).1 = Rejects name →
    let s2 := fetched service s1 (api_call cfg method path body t) in
    ∃ e, req (S n) method path body isRetry s = Some (Throw e, s2) ∧
         err_name e = PlankaNetworkError ∧
         code_status e = Some ("NETWORK_ERROR", 0) ∧
         message e
         = (if String.eqb name "AbortError" then "Request timeout: "
            else "Network error: ") +:+ Method_str method +:+ " " +:+ path ∧
         this s2 = this s1 ∧
         wire (net s2)
         = (wire (net s1) ++ [api_call cfg method path body t])%list.
Proof.
  intros n method path body isRetry s cfg s0 t s1 name Hr Hg Hs s2.
  eexists. simpl.
  rewrite (attempt_after_fetch _ _ _ _ _ _ _ _ _ _ _ _ _ _ Hr Hg), Hs.
  by repeat split.
Qed.

(** X9. An error response whose body is not JSON (or cannot be read: in
    both cases [response.json()] rejects) is thrown as the error of its
    status made from the body [null]; except for a 404, its message is
    "Unknown error" followed by method and path.  (A 401 is meant that is
    not retried: the request is a retry.) *)
Theorem request_error_without_json_body :
  ∀ n method path body s cfg s0 t s1 r error,
    resolve s = (Ok cfg, s0) → get_token s0 = (Ok t, s1) →
    (service (net s1) (api_call cfg method path body t)).1 = Responds r →
    ok r = false → json r = Throw error →
    let s2 := fetched service s1 (api_call cfg method path body t) in
    let context := Method_str method +:+ " " +:+ path in
    let e := createPlankaError js_String (status r) (Some JNull)
               (Some context) in
    req (S n) method path body true s = Some (Throw e, s2) ∧
    (status r ≠ 401 → req (S n) method path body false s = Some (Throw e, s2))
    ∧ (status r ≠ 404 → message e = "Unknown error (" +:+ context +:+ ")").
Proof.
  intros n method path body s cfg s0 t s1 r error Hr Hg Hs Hok Hj s2 context
    e.
  assert ((status r =? 204)%Z = false) as H204.
  { apply Z.eqb_neq. intros E. unfold ok in Hok. by rewrite E in Hok. }
  assert (safeParseJson r = JNull) as Hnull.
  { unfold safeParseJson. by rewrite Hj. }
  split; [|split].
  - simpl. rewrite (attempt_after_fetch _ _ _ _ _ _ _ _ _ _ _ _ _ _ Hr Hg), Hs.
    by rewrite H204, Hok, andb_false_r, Hnull.
  - intros H401. simpl.
    rewrite (attempt_after_fetch _ _ _ _ _ _ _ _ _ _ _ _ _ _ Hr Hg), Hs.
    rewrite H204, Hok, Hnull.
    by destruct (Z.eqb_spec (status r) 401).
  - intros H404. subst e. unfold createPlankaError.
    destruct (Z.eqb_spec (status r) 404); [done|].
    assert (truthy_str (Some context) = true) as ->.
    { subst context. by destruct method. }
    by repeat match goal with
              | |- context [(?a =? ?b)%Z] => destruct (a =? b)%Z
              end.
Qed.

(** X10. A request made while no valid token is cached (none, or an expired
    one) authenticates first: the call of the token endpoint goes on the
    wire before the API call, and the API call carries the token that came,
    not the one that was cached. *)
Theorem request_authenticates_before_call :
  ∀ n method path body isRetry s cfg t' s4 res s',
    config (this s) = Some cfg → ¬ token_valid s → auth s = (Ok t', s4) →
    req n method path body isRetry s = Some (res, s') →
    ∃ rest,
      wire (net s')
      = (wire (net s) ++ access_tokens_call cfg
           :: api_call cfg method path body t' :: rest)%list.
Proof.
  intros n method path body isRetry s cfg t' s4 res s' Hc Hn Ha.
  pose proof (this_getConfig_resolved env valid_url _ _ Hc) as Hres.
  assert (get_token s = (Ok t', s4)) as Hg.
  { by rewrite (getToken_invalid env valid_url service zod_message _ Hn). }
  destruct (authenticate_run _ _ _ _ _ _ _ _ Hc Ha) as (Hnet & Hc4 & _).
  set (call := api_call cfg method path body t').
  assert (wire (net (fetched service s4 call))
          = (wire (net s) ++ [access_tokens_call cfg; call])%list) as Hw.
  { simpl. rewrite Hnet. simpl. by rewrite <- app_assoc. }
  destruct n as [|n]; [done|]. simpl.
  rewrite (attempt_after_fetch _ _ _ _ _ _ _ _ _ _ _ _ _ _ Hres Hg).
  fold call.
  assert (∀ res0, Some (res0, fetched service s4 call) = Some (res, s') →
            ∃ rest,
              wire (net s')
              = (wire (net s) ++ access_tokens_call cfg :: call :: rest)%list)
    as Hend.
  { intros res0 [= <- <-]. exists []. exact Hw. }
  destruct (service (net s4) call).1 as [name|r]; [apply Hend|].
  destruct (status r =? 204)%Z; [apply Hend|].
  destruct (ok r); [apply Hend|].
  destruct (_ && _); [|apply Hend].
  destruct n as [|n]; [done|]. simpl.
  assert (config (this (cleared (fetched service s4 call))) = Some cfg)
    as Hc5 by done.
  destruct (try_once method path body true (cleared (fetched service s4 call)))
    as [[[data|again]|e] s6] eqn:H2.
  - intros [= <- <-].
    destruct (attempt_wire _ _ _ _ _ _ _ _ Hc5 H2) as (_ & l & Hl & _).
    exists l. rewrite Hl. change (wire (net (cleared ?x))) with (wire (net x)).
    rewrite Hw, <- app_assoc. done.
  - by apply attempt_retry_once in H2 as [? _].
  - intros [= <- <-].
    destruct (attempt_wire _ _ _ _ _ _ _ _ Hc5 H2) as (_ & l & Hl & _).
    exists l. rewrite Hl. change (wire (net (cleared ?x))) with (wire (net x)).
    rewrite Hw, <- app_assoc. done.
Qed.
End client_more.

Lemma request_without_configuration_witness :
  ∃ e, getConfig env_without_password any_url = Throw e ∧
       request env_without_password any_url text_of unreachable no_message
         1 GET "/api/projects" None false new_process
       = Some (Throw e, new_process).
Proof.
  eexists. split; [reflexivity|].
  by destruct (request_without_configuration env_without_password any_url
                 text_of unreachable no_message 0 GET "/api/projects" None
                 false new_process _ eq_refl eq_refl) as [H _].
Defined.

Lemma request_footprint_witness :
  ∃ res s',
    request sample_env any_url text_of (sample_service (λ _, false))
      no_message 2 GET "/api/projects" None false stale_client
    = Some (res, s') ∧
    config (this s') = Some sample_config ∧
    length (wire (net s')) = 3%nat.
Proof.
  eexists _, _. split; [reflexivity|]. split; [|reflexivity].
  exact (proj1 (proj1 (request_footprint sample_env any_url text_of
                         (sample_service (λ _, false)) no_message
                         sample_config)
                  2%nat GET "/api/projects" None false stale_client _ _
                  eq_refl eq_refl)).
Defined.

Lemma request_throws_witness :
  ∃ s',
    request sample_env any_url text_of unreadable_token_reply no_message 1
      GET "/api/projects" None false expired_client
    = Some (Throw body_lost, s') ∧
    isPlankaError body_lost = false ∧
    ∃ cfg w r,
      config (this s') = Some cfg ∧
      (unreadable_token_reply w (access_tokens_call cfg)).1 = Responds r ∧
      ok r = true ∧
      wire (net s') = (wire w ++ [access_tokens_call cfg])%list ∧
      (json r = Throw body_lost ∨
       ∃ data, json r = Ok data ∧ AuthResponse (Some data) = None ∧
               body_lost
               = mkErr ZodError (no_message "AuthResponse" (Some data)) None).
Proof.
  eexists. split; [reflexivity|]. split; [reflexivity|].
  by destruct (request_throws_PlankaError_or_token_reply_error sample_env
                 any_url text_of unreadable_token_reply no_message 1 GET
                 "/api/projects" None false expired_client _ _ eq_refl)
    as [H|H].
Defined.

Lemma request_returns_witness :
  request sample_env any_url text_of
    (answering (mkResponse 204 "No Content" (Ok (JStr "ignored"))))
    no_message 1 DELETE "/api/cards/41" None false stale_client
  = Some (Ok None,
          fetched (answering (mkResponse 204 "No Content"
                                (Ok (JStr "ignored"))))
            stale_client
            (api_call sample_config DELETE "/api/cards/41" None "stale")).
Proof.
  by apply (request_returns_body_or_undefined sample_env any_url text_of
              (answering (mkResponse 204 "No Content" (Ok (JStr "ignored"))))
              no_message 0 DELETE "/api/cards/41" None false stale_client
              sample_config stale_client "stale" stale_client
              (mkResponse 204 "No Content" (Ok (JStr "ignored")))).
Defined.

Lemma request_network_failure_witness :
  ∃ e, request sample_env any_url text_of unreachable no_message 1 GET
         "/api/projects" None false stale_client
       = Some (Throw e,
               fetched unreachable stale_client
                 (api_call sample_config GET "/api/projects" None "stale")) ∧
       message e = "Network error: GET /api/projects".
Proof.
  destruct (request_network_failure_is_not_retried sample_env any_url text_of
              unreachable no_message 0 GET "/api/projects" None false
              stale_client sample_config stale_client "stale" stale_client
              "TypeError" eq_refl eq_refl eq_refl)
    as (e & Hrun & _ & _ & Hm & _).
  exists e. by split.
Defined.

Lemma request_error_without_json_body_witness :
  ∃ e s',
    request sample_env any_url text_of
      (answering (mkResponse 502 "Bad Gateway" (Throw not_JSON))) no_message
      1 GET "/api/projects" None false stale_client
    = Some (Throw e, s') ∧
    message e = "Unknown error (GET /api/projects)".
Proof.
  destruct (request_error_without_json_body sample_env any_url text_of
              (answering (mkResponse 502 "Bad Gateway" (Throw not_JSON)))
              no_message 0
              GET "/api/projects" None stale_client sample_config stale_client
              "stale" stale_client
              (mkResponse 502 "Bad Gateway" (Throw not_JSON)) not_JSON
              eq_refl eq_refl eq_refl eq_refl eq_refl)
    as (_ & Hrun & Hm).
  eexists _, _. split; [by apply Hrun|by apply Hm].
Defined.

Lemma request_authenticates_before_call_witness :
  ∃ res s',
    request sample_env any_url text_of (sample_service (λ _, true))
      no_message 1 GET "/api/projects" None false expired_client
    = Some (res, s') ∧
    wire (net s')
    = [ access_tokens_call sample_config;
        api_call sample_config GET "/api/projects" None "fresh" ].
Proof.
  eexists _, _. split; [reflexivity|].
  by destruct (request_authenticates_before_call sample_env any_url text_of
                 (sample_service (λ _, true)) no_message 1 GET
                 "/api/projects" None false expired_client sample_config
                 "fresh" _ _ _ eq_refl ltac:(intros [_ H]; simpl in H; lia)
                 eq_refl eq_refl) as [rest H].
Defined.

(** ** The configuration is read once *)

Lemma authenticate_configured env1 env2 valid1 valid2 service zod_message s
    cfg :
  config (this s) = Some cfg →
  authenticate env1 valid1 service zod_message s
  = authenticate env2 valid2 service zod_message s.
Proof.
  intros Hc. unfold authenticate.
  by rewrite (bind_Ok _ _ _ _ _ (this_getConfig_resolved env1 valid1 _ _ Hc)),
    (bind_Ok _ _ _ _ _ (this_getConfig_resolved env2 valid2 _ _ Hc)).
Qed.

Lemma attempt_configured env1 env2 valid1 valid2 js_String service
    zod_message method path body isRetry s cfg :
  config (this s) = Some cfg →
  attempt env1 valid1 js_String service zod_message method path body isRetry s
  = attempt env2 valid2 js_String service zod_message method path body
      isRetry s.
Proof.
  intros Hc. unfold attempt.
  rewrite (bind_Ok _ _ _ _ _ (this_getConfig_resolved env1 valid1 _ _ Hc)),
    (bind_Ok _ _ _ _ _ (this_getConfig_resolved env2 valid2 _ _ Hc)).
  unfold bind at 1 3.
  assert (getToken env1 valid1 service zod_message s
          = getToken env2 valid2 service zod_message s) as ->; [|done].
  unfold getToken. destruct (token (this s)); [destruct (negb _ || _)|];
    by eauto using authenticate_configured.
Qed.

(** X11. Once the client has its configuration, the environment plays no
    part: a request runs the same in every environment. *)
Theorem request_reads_environment_once :
  ∀ env1 env2 valid1 valid2 js_String service zod_message n method path body
    isRetry s cfg,
    config (this s) = Some cfg →
    request env1 valid1 js_String service zod_message n method path body
      isRetry s
    = request env2 valid2 js_String service zod_message n method path body
        isRetry s.
Proof.
  intros env1 env2 valid1 valid2 js_String service zod_message n method path
    body. induction n as [|n IH]; intros isRetry s cfg Hc; [done|]. simpl.
  rewrite (attempt_configured env1 env2 valid1 valid2 _ _ _ _ _ _ _ _ _ Hc).
  destruct (attempt env2 _ _ _ _ _ _ _ _ s) as [[[data|again]|e] s1] eqn:H1;
    [done| |done].
  apply (IH _ _ cfg).
  by destruct (attempt_wire _ _ _ _ _ _ _ _ _ _ _ _ _ Hc H1).
Qed.

Lemma request_reads_environment_once_witness :
  request env_without_password (λ _, false) text_of
    (sample_service (λ _, true)) no_message 1 GET "/api/projects" None false
    stale_client
  = request sample_env any_url text_of (sample_service (λ _, true))
      no_message 1 GET "/api/projects" None false stale_client.
Proof.
  by apply (request_reads_environment_once env_without_password sample_env
              (λ _, false) any_url text_of (sample_service (λ _, true))
              no_message 1 GET "/api/projects" None false stale_client
              sample_config).
Defined.

(** ** More on sorting *)

(** The same for a comparator that orders the elements with a property
    [P] only, on the lists of such elements. *)
Section sort_on.
Context {A : Type} (cmp : A → A → Num) (P : A → Prop) (le : A → A → Prop).
Context (le_trans : ∀ a b c, P a → P b → P c → le a b → le b c → le a c).
Context (le_total : ∀ a b, P a → P b → le a b ∨ le b a).
Context (cmp_le : ∀ a b, P a → P b →
                    positive_num (cmp a b) = false ↔ le a b).

Lemma sort_insert_StronglySorted_on x l :
  P x → Forall P l → StronglySorted le l →
  StronglySorted le (sort_insert cmp x l).
Proof.
  intros Hx Hl H. induction H as [|y l Hs IH Hy]; simpl.
  - repeat constructor.
  - apply Forall_cons in Hl as [Py Pl].
    destruct (positive_num (cmp x y)) eqn:E.
    + constructor; [by apply IH|].
      assert (le y x) as Hyx.
      { destruct (le_total x y Hx Py) as [Hxy|]; [|done].
        apply cmp_le in Hxy; [congruence|done|done]. }
      rewrite sort_insert_Permutation. by constructor.
    + apply cmp_le in E; [|done|done]. constructor; [by constructor|].
      constructor; [done|].
      rewrite Forall_forall in Hy, Pl |- *. intros z Hz.
      apply (le_trans x y z); auto.
Qed.

Lemma sort_StronglySorted_on l : Forall P l → StronglySorted le (sort cmp l).
Proof.
  induction l as [|x l IH]; simpl; intros H; [constructor|].
  apply Forall_cons in H as [Hx Hl].
  apply sort_insert_StronglySorted_on; [done| |by apply IH].
  fold (sort cmp l). by rewrite sort_Permutation.
Qed.
End sort_on.

(** ** Reading a card, a board, the cards of a list *)

Section reading.
Context {W : Type} (client : Req → W → Res Value * W).
Context (is_email : string → bool) (getTime : string → Num).
Context (zod_message : string → Value → string).

(** What a card that is returned was made from. *)
Lemma getCard_Ok cardId (s s' : Sys W) d :
  getCard client is_email getTime zod_message cardId s = (Ok d, s') →
  ∃ response inc,
    through_client client (getCard_request cardId) s = (Ok response, s') ∧
    CardResponse response = Some (cd_card d) ∧
    CardIncludedSchema is_email (or_empty_object (included_of response))
    = Some inc ∧
    cd_taskLists d
    = sort (ascending (λ t, num_of (TaskList.position t)))
        (default [] (ci_taskLists inc)) ∧
    cd_tasks d
    = sort (ascending (λ t, num_of (Task.position t)))
        (default [] (ci_tasks inc)) ∧
    cd_comments d
    = sort (λ a b, num_sub (getTime (createdAt (Comment.at_ b)))
                     (getTime (createdAt (Comment.at_ a))))
        (default [] (ci_comments inc)) ∧
    cd_labels d = default [] (ci_labels inc) ∧
    cd_cardLabels d = default [] (ci_cardLabels inc) ∧
    cd_attachments d = default [] (ci_attachments inc).
Proof.
  unfold getCard, client_get, bind. fold (getCard_request cardId).
  destruct (through_client _ _ s) as [[response|e] s1]; [|done].
  destruct (parse _ _ _ response s1) as [[parsed|e] s2] eqn:Hp; [|done].
  apply parse_Ok in Hp as [-> Hp].
  destruct (member response "included" s1) as [[inc|e] s3] eqn:Hm; [|done].
  apply member_Ok in Hm as (-> & o & -> & _ & ->).
  destruct (parse _ _ _ _ s1) as [[included|e] s4] eqn:Hq; [|done].
  apply parse_Ok in Hq as [-> Hq].
  intros [= <- <-]. exists (Some o), included. simpl.
  repeat split; done.
Qed.

(** X12. The task lists and the tasks of the card that [getCard] returns
    are those of the response, put in ascending order of position; the
    comments are those of the response in some order; labels, card labels
    and attachments are as the response has them, and a response without
    them gives empty arrays. *)
Theorem getCard_task_lists_and_tasks_in_order :
  ∀ cardId (s s' : Sys W) d,
    getCard client is_email getTime zod_message cardId s = (Ok d, s') →
    StronglySorted (in_order TaskList.position) (cd_taskLists d) ∧
    StronglySorted (in_order Task.position) (cd_tasks d) ∧
    ∃ response inc,
      through_client client (getCard_request cardId) s = (Ok response, s') ∧
      CardIncludedSchema is_email (or_empty_object (included_of response))
      = Some inc ∧
      cd_taskLists d ≡ₚ default [] (ci_taskLists inc) ∧
      cd_tasks d ≡ₚ default [] (ci_tasks inc) ∧
      cd_comments d ≡ₚ default [] (ci_comments inc) ∧
      cd_labels d = default [] (ci_labels inc) ∧
      cd_cardLabels d = default [] (ci_cardLabels inc) ∧
      cd_attachments d = default [] (ci_attachments inc).
Proof.
  intros cardId s s' d Hrun.
  destruct (getCard_Ok _ _ _ _ Hrun)
    as (response & inc & Hc & _ & Hi & -> & -> & -> & Hl & Hcl & Ha).
  split; [apply sort_in_order|]. split; [apply sort_in_order|].
  exists response, inc. repeat split; try done; apply sort_Permutation.
Qed.

(** X13. [getCommentsForCard] reads the card once and returns its comments;
    when the time stamps of the comments are dates, the comments are in
    descending order of time, the newest first. *)
Theorem getCommentsForCard_newest_first :
  ∀ cardId (s s' : Sys W) comments,
    getCommentsForCard client is_email getTime zod_message cardId s
    = (Ok comments, s') →
    (∃ d, getCard client is_email getTime zod_message cardId s = (Ok d, s') ∧
          comments = cd_comments d) ∧
    sent s' = (sent s ++ [getCard_request cardId])%list ∧
    (Forall (λ c, ∃ q, getTime (createdAt (Comment.at_ c)) = Fin q) comments →
     StronglySorted (not_older getTime) comments).
Proof.
  intros cardId s s' comments. unfold getCommentsForCard, bind.
  destruct (getCard _ _ _ _ cardId s) as [[d|e] s1] eqn:Hrun; [|done].
  intros [= <- <-]. split; [by exists d|].
  split.
  { by rewrite <- (getCard_sent client is_email getTime zod_message), Hrun. }
  destruct (getCard_Ok _ _ _ _ Hrun)
    as (response & inc & _ & _ & _ & _ & _ & -> & _).
  intros Hdates.
  apply (sort_StronglySorted_on _
           (λ c, ∃ q, getTime (createdAt (Comment.at_ c)) = Fin q)).
  - intros a b c [x Hx] [y Hy] [z Hz]. unfold not_older.
    rewrite Hx, Hy, Hz. intros ? ?. by apply (Qle_trans _ y).
  - intros a b [x Hx] [y Hy]. unfold not_older. rewrite Hx, Hy.
    destruct (Qlt_le_dec x y); [right; by apply Qlt_le_weak|by left].
  - intros a b [x Hx] [y Hy]. unfold not_older. rewrite Hx, Hy. simpl.
    rewrite negb_false_iff, Qle_bool_iff. split; lra.
  - by rewrite <- (sort_Permutation
                     (λ a b, num_sub (getTime (createdAt (Comment.at_ b)))
                               (getTime (createdAt (Comment.at_ a))))).
Qed.
End reading.

Lemma getCard_in_order_witness :
  ∃ d, getCard (constant_client (Some sample_card_reply)) any_email no_clock
         no_message "41" fresh
       = (Ok d, mkSys tt [getCard_request "41"]) ∧
       TaskList.id <$> cd_taskLists d = ["71"; "72"] ∧
       Task.id <$> cd_tasks d = ["81"; "82"; "83"] ∧
       StronglySorted (in_order Task.position) (cd_tasks d).
Proof.
  eexists. split; [reflexivity|]. split; [reflexivity|].
  split; [reflexivity|].
  by destruct (getCard_task_lists_and_tasks_in_order
                 (constant_client (Some sample_card_reply)) any_email no_clock
                 no_message "41" fresh _ _ eq_refl) as (_ & H & _).
Defined.

Lemma getCommentsForCard_witness :
  ∃ comments,
    getCommentsForCard (constant_client (Some sample_card_reply)) any_email
      sample_clock no_message "41" fresh
    = (Ok comments, mkSys tt [getCard_request "41"]) ∧
    Comment.id <$> comments = ["93"; "92"; "91"] ∧
    StronglySorted (not_older sample_clock) comments.
Proof.
  eexists. split; [reflexivity|]. split; [reflexivity|].
  destruct (getCommentsForCard_newest_first
              (constant_client (Some sample_card_reply)) any_email
              sample_clock no_message "41" fresh _ _ eq_refl) as (_ & _ & H).
  apply H. repeat constructor; by eexists.
Defined.

Section reading_boards.
Context {W : Type} (client : Req → W → Res Value * W).
Context (is_email : string → bool).
Context (zod_message : string → Value → string).

Lemma getBoard_state boardId (s : Sys W) :
  (getBoard client is_email zod_message boardId s).2
  = (through_client client (getBoard_request boardId) s).2.
Proof.
  unfold getBoard, bind, client_get, getBoard_request.
  destruct (through_client _ _ s) as [[r|e] s1]; simpl; [|done].
  pose proof (parse_state zod_message "BoardResponse" BoardResponse r s1)
    as Hp.
  destruct (parse _ _ _ r s1) as [[c|e] s2]; simpl in *; subst; [|done].
  pose proof (member_state r "included" s1) as Hm.
  destruct (member r "included" s1) as [[inc|e] s3]; simpl in *; subst; [|done].
  pose proof (parse_state zod_message "BoardIncludedSchema"
                (BoardIncludedSchema is_email) (or_empty_object inc) s1) as Hq.
  by destruct (parse _ _ _ (or_empty_object inc) s1) as [[i|e] s4];
    simpl in *; subst.
Qed.

Lemma getBoard_sent boardId (s : Sys W) :
  sent (getBoard client is_email zod_message boardId s).2
  = (sent s ++ [getBoard_request boardId])%list.
Proof. rewrite getBoard_state. apply through_client_sent. Qed.

(** The labels and the card labels of a board that is returned. *)
Lemma getBoard_Ok_labels boardId (s s' : Sys W) d :
  getBoard client is_email zod_message boardId s = (Ok d, s') →
  ∃ response inc,
    through_client client (getBoard_request boardId) s = (Ok response, s') ∧
    BoardIncludedSchema is_email (or_empty_object (included_of response))
    = Some inc ∧
    bd_labels d
    = sort (ascending (λ l, num_of (Label.position l)))
        (default [] (bi_labels inc)) ∧
    bd_cardLabels d = default [] (bi_cardLabels inc).
Proof.
  unfold getBoard, client_get, bind. fold (getBoard_request boardId).
  destruct (through_client _ _ s) as [[response|e] s1]; [|done].
  destruct (parse _ _ _ response s1) as [[parsed|e] s2] eqn:Hp; [|done].
  apply parse_Ok in Hp as [-> Hp].
  destruct (member response "included" s1) as [[inc|e] s3] eqn:Hm; [|done].
  apply member_Ok in Hm as (-> & o & -> & _ & ->).
  destruct (parse _ _ _ _ s1) as [[included|e] s4] eqn:Hq; [|done].
  apply parse_Ok in Hq as [-> Hq].
  intros [= <- <-]. exists (Some o), included. simpl.
  repeat split; done.
Qed.

(** X14. The labels and the task lists of the board that [getBoard]
    returns are those of the response in ascending order of position; the
    cards, the card labels and the tasks are as the response has them, not
    sorted. *)
Theorem getBoard_labels_and_task_lists_in_order :
  ∀ boardId (s s' : Sys W) d,
    getBoard client is_email zod_message boardId s = (Ok d, s') →
    StronglySorted (in_order Label.position) (bd_labels d) ∧
    StronglySorted (in_order TaskList.position) (bd_taskLists d) ∧
    ∃ response inc,
      through_client client (getBoard_request boardId) s = (Ok response, s') ∧
      BoardIncludedSchema is_email (or_empty_object (included_of response))
      = Some inc ∧
      bd_labels d ≡ₚ default [] (bi_labels inc) ∧
      bd_taskLists d ≡ₚ default [] (bi_taskLists inc) ∧
      bd_cards d = default [] (bi_cards inc) ∧
      bd_cardLabels d = default [] (bi_cardLabels inc) ∧
      bd_tasks d = default [] (bi_tasks inc).
Proof.
  intros boardId s s' d Hrun.
  destruct (getBoard_Ok _ _ _ _ _ _ _ Hrun)
    as (response & inc & Hc & _ & Hi & _ & Hcards & -> & Htasks).
  destruct (getBoard_Ok_labels _ _ _ _ Hrun)
    as (response' & inc' & Hc' & Hi' & -> & Hcl).
  rewrite Hc in Hc'. injection Hc' as <-.
  rewrite Hi in Hi'. injection Hi' as <-.
  split; [apply sort_in_order|]. split; [apply sort_in_order|].
  exists response, inc. repeat split; try done; apply sort_Permutation.
Qed.

(** X15. [getCardsForList] reads the board once and returns the cards of
    the board whose [listId] is the list asked for, each as often as the
    board has it, in ascending order of position. *)
Theorem getCardsForList_filters_and_sorts :
  ∀ boardId listId (s s' : Sys W) cards,
    getCardsForList client is_email zod_message boardId listId s
    = (Ok cards, s') →
    ∃ d, getBoard client is_email zod_message boardId s = (Ok d, s') ∧
         sent s' = (sent s ++ [getBoard_request boardId])%list ∧
         cards ≡ₚ filter (λ card, Card.listId card = listId) (bd_cards d) ∧
         Forall (λ card, Card.listId card = listId) cards ∧
         StronglySorted (in_order Card.position) cards.
Proof.
  intros boardId listId s s' cards. unfold getCardsForList, bind.
  destruct (getBoard _ _ _ boardId s) as [[d|e] s1] eqn:Hrun; [|done].
  intros [= <- <-]. exists d. split; [done|].
  split; [by rewrite <- getBoard_sent, Hrun|].
  split; [apply sort_Permutation|]. split; [|apply sort_in_order].
  rewrite sort_Permutation. apply Forall_forall. intros card Hc.
  by apply list_elem_of_filter in Hc as [? _].
Qed.
End reading_boards.

Lemma getBoard_in_order_witness :
  ∃ d, getBoard (constant_client (Some sample_labels_reply)) any_email
         no_message "3" fresh
       = (Ok d, mkSys tt [getBoard_request "3"]) ∧
       Label.id <$> bd_labels d = ["8"; "5"] ∧
       StronglySorted (in_order Label.position) (bd_labels d).
Proof.
  eexists. split; [reflexivity|]. split; [reflexivity|].
  by destruct (getBoard_labels_and_task_lists_in_order
                 (constant_client (Some sample_labels_reply)) any_email
                 no_message "3" fresh _ _ eq_refl) as (H & _).
Defined.

Lemma getCardsForList_witness :
  ∃ cards,
    getCardsForList (constant_client (Some sample_labels_reply)) any_email
      no_message "3" "12" fresh
    = (Ok cards, mkSys tt [getBoard_request "3"]) ∧
    Card.id <$> cards = ["43"; "41"] ∧
    Forall (λ card, Card.listId card = "12") cards.
Proof.
  eexists. split; [reflexivity|]. split; [reflexivity|].
  by destruct (getCardsForList_filters_and_sorts
                 (constant_client (Some sample_labels_reply)) any_email
                 no_message "3" "12" fresh _ _ eq_refl)
    as (d & _ & _ & _ & H & _).
Defined.

(** ** The structure *)

Section structure_facts.
Context {W : Type} (client : Req → W → Res Value * W).
Context (is_email : string → bool).
Context (zod_message : string → Value → string).

(** A loop that collects: what holds of each turn holds of the whole. *)
Lemma for_push_Ok {A B} (R : A → B → Prop) (f : A → list Req) (xs : list A)
    (body : A → M (Sys W) B) :
  (∀ x s1 y s2, x ∈ xs → body x s1 = (Ok y, s2) →
                R x y ∧ sent s2 = (sent s1 ++ f x)%list) →
  ∀ s ys s', for_push xs body s = (Ok ys, s') →
             Forall2 R xs ys ∧ sent s' = (sent s ++ mjoin (f <$> xs))%list.
Proof.
  induction xs as [|x xs IH]; intros H s ys s'; simpl.
  - intros [= <- <-]. by rewrite app_nil_r.
  - unfold bind. destruct (body x s) as [[y|e] s1] eqn:Hx; [|done].
    destruct (for_push xs body s1) as [[ys'|e] s2] eqn:Hxs; [|done].
    intros [= <- <-].
    destruct (H x s y s1) as [Hr Hs]; [by left|done|].
    destruct (IH (λ x' s1' y' s2' Hin,
                    H x' s1' y' s2' (list_elem_of_further _ _ _ Hin))
                _ _ _ Hxs) as [Hrs Hss].
    split; [by constructor|]. by rewrite Hss, Hs, <- app_assoc.
Qed.

Lemma sends_for_push {A B} (P : Req → Prop) (xs : list A)
    (body : A → M (Sys W) B) :
  (∀ x, sends P (body x)) → sends P (for_push xs body).
Proof.
  intros H. induction xs as [|x xs IH]; simpl; [apply sends_ret|].
  apply sends_bind; [done|]. intros y.
  apply sends_bind; [done|]. intros ys. apply sends_ret.
Qed.

Lemma getProjects_state (s : Sys W) :
  (getProjects client is_email zod_message s).2
  = (through_client client getProjects_request s).2.
Proof.
  unfold getProjects, bind, client_get, getProjects_request.
  destruct (through_client _ _ s) as [[r|e] s1]; simpl; [|done].
  pose proof (parse_state zod_message "ProjectsResponse" ProjectsResponse r s1)
    as Hp.
  destruct (parse _ _ _ r s1) as [[c|e] s2]; simpl in *; subst; [|done].
  pose proof (member_state r "included" s1) as Hm.
  destruct (member r "included" s1) as [[inc|e] s3]; simpl in *; subst; [|done].
  pose proof (parse_state zod_message "ProjectsIncludedSchema"
                (ProjectsIncludedSchema is_email) (or_empty_object inc) s1)
    as Hq.
  by destruct (parse _ _ _ (or_empty_object inc) s1) as [[i|e] s4];
    simpl in *; subst.
Qed.

Lemma board_with_lists_state board (s : Sys W) :
  (board_with_lists client zod_message board s).2
  = (through_client client (getBoard_request (Board.id board)) s).2.
Proof.
  unfold board_with_lists, bind, client_get, getBoard_request.
  destruct (through_client _ _ s) as [[r|e] s1]; simpl; [|done].
  pose proof (member_state r "included" s1) as Hm.
  destruct (member r "included" s1) as [[inc|e] s2]; simpl in *; subst; [|done].
  assert (∃ v, match inc with
               | None | Some JNull => ret None
               | _ => member inc "lists"
               end s1 = (Ok v, s1)) as [v ->].
  { destruct inc as [[]|]; by eexists. }
  destruct (truthy v); [|done].
  pose proof (parse_state zod_message "array" (z_array ListSchema) v s1) as Hq.
  by destruct (parse _ _ _ v s1) as [[i|e] s4]; simpl in *; subst.
Qed.

Lemma ascending_position_or_zero a b :
  positive_num (ascending (λ l, position_or (Fin 0) (BList.position l)) a b)
  = false
  ↔ in_order (λ l, default (Finite 0) (BList.position l)) a b.
Proof.
  unfold ascending, in_order.
  rewrite !(position_or_default (Finite 0)). apply positive_num_sub.
Qed.

Lemma board_with_lists_Ok board (s s' : Sys W) y :
  board_with_lists client zod_message board s = (Ok y, s') →
  (y.1 = board ∧
   StronglySorted (in_order (λ l, default (Finite 0) (BList.position l)))
     y.2) ∧
  sent s' = (sent s ++ [getBoard_request (Board.id board)])%list.
Proof.
  intros Hrun. split.
  - revert Hrun. unfold board_with_lists, bind.
    destruct (client_get _ _ s) as [[r|e] s1]; [|done].
    destruct (member r "included" s1) as [[inc|e] s2]; [|done].
    destruct (match inc with
              | None | Some JNull => ret None
              | _ => member inc "lists"
              end s2) as [[v|e] s3]; [|done].
    destruct ((if truthy v then parse zod_message "array" (z_array ListSchema) v
               else ret []) s3) as [[lists|e] s4]; [|done].
    intros [= <- <-]. split; [done|]. simpl.
    apply sort_StronglySorted.
    + intros a b c. apply number_le_trans.
    + intros a b. apply number_le_total.
    + apply ascending_position_or_zero.
  - pose proof (board_with_lists_state board s) as Hs.
    rewrite Hrun in Hs. simpl in Hs. rewrite Hs. apply through_client_sent.
Qed.

(** What a structure that is returned was made from. *)
Lemma getStructure_Ok projectId (s s' : Sys W) structure :
  getStructure client is_email zod_message projectId s = (Ok structure, s') →
  ∃ projects boards s1,
    getProjects client is_email zod_message s = (Ok (projects, boards), s1) ∧
    sent s1 = (sent s ++ [getProjects_request])%list ∧
    Forall2
      (λ project ps,
         ps_project ps = project ∧
         StronglySorted (in_order (λ b, Board.position b.1)) (ps_boards ps) ∧
         (ps_boards ps).*1 ≡ₚ boards_of project boards ∧
         Forall (λ b, StronglySorted
                        (in_order
                           (λ l, default (Finite 0) (BList.position l))) b.2)
           (ps_boards ps))
      (target_projects projectId projects) structure ∧
    sent s'
    = (sent s1
       ++ mjoin ((λ project, (getBoard_request ∘ Board.id)
                               <$> boards_of project boards)
                 <$> target_projects projectId projects))%list.
Proof.
  unfold getStructure. unfold bind at 1.
  destruct (getProjects _ _ _ s) as [[[projects boards]|e] s1] eqn:Hp; [|done].
  intros Hrun. exists projects, boards, s1. split; [done|]. split.
  { pose proof (getProjects_state s) as Hs. rewrite Hp in Hs. simpl in Hs.
    rewrite Hs. apply through_client_sent. }
  simpl in Hrun. fold (target_projects projectId projects) in Hrun.
  eapply for_push_Ok; [|exact Hrun].
  intros project s2 ps s3 _. unfold bind. fold (boards_of project boards).
  destruct (for_push (boards_of project boards) _ s2)
    as [[boardsWithLists|e] s4] eqn:Hb; [|done].
  intros [= <- <-]. simpl.
  destruct (for_push_Ok
              (λ board y,
                 y.1 = board ∧
                 StronglySorted
                   (in_order (λ l, default (Finite 0) (BList.position l))) y.2)
              (λ board, [getBoard_request (Board.id board)])
              (boards_of project boards) (board_with_lists client zod_message)
              (λ x s5 y s6 _, board_with_lists_Ok x s5 s6 y) _ _ _ Hb)
    as [Hall Hsent].
  split; [split; [done|split; [|split]]|].
  - apply sort_in_order.
  - rewrite sort_Permutation.
    assert (boardsWithLists.*1 = boards_of project boards) as ->; [|done].
    clear Hb Hsent. induction Hall as [|b y bs ys [Hy _] _ IH]; [done|].
    by rewrite fmap_cons, Hy, IH.
  - rewrite sort_Permutation. clear Hb Hsent.
    induction Hall as [|b y bs ys [_ Hy] _ IH]; by constructor.
  - rewrite Hsent. f_equal. clear.
    induction (boards_of project boards) as [|b bs IH]; [done|].
    csimpl. by rewrite IH.
Qed.

(** X16. When [getStructure] returns, it has made one request for the
    projects and then one request for each board of the structure it
    returns, and no other: N + 1 requests for N boards. *)
Theorem getStructure_one_request_per_board :
  ∀ projectId (s s' : Sys W) structure,
    getStructure client is_email zod_message projectId s
    = (Ok structure, s') →
    ∃ requests,
      sent s' = (sent s ++ getProjects_request :: requests)%list ∧
      requests ≡ₚ board_requests structure ∧
      length requests
      = length (ps ← structure; ps_boards ps).
Proof.
  intros projectId s s' structure Hrun.
  destruct (getStructure_Ok _ _ _ _ Hrun)
    as (projects & boards & s1 & _ & Hs1 & Hall & Hs').
  eexists. split; [by rewrite Hs', Hs1, <- app_assoc|].
  assert (mjoin ((λ project, (getBoard_request ∘ Board.id)
                               <$> boards_of project boards)
                 <$> target_projects projectId projects)
          ≡ₚ board_requests structure) as Hperm.
  { clear Hs' Hrun. unfold board_requests.
    induction Hall as [|project ps projects' structure' (_ & _ & Hb & _) _ IH];
      [done|].
    csimpl. rewrite IH. apply Permutation_app; [|done].
    rewrite <- Hb. clear. induction (ps_boards ps) as [|b bs IH]; [done|].
    csimpl. by rewrite IH. }
  split; [done|]. rewrite Hperm. unfold board_requests. clear.
  induction structure as [|ps structure IH]; [done|].
  csimpl. rewrite !length_app, IH. f_equal.
  induction (ps_boards ps) as [|b bs IHb]; [done|]. csimpl. by rewrite IHb.
Qed.

(** X17. In the structure that [getStructure] returns, the boards of each
    project are in ascending order of position and are boards of that
    project, and the lists of each board are in ascending order of position,
    a position of [null] counting as 0 (such lists come first, not last as
    in [getBoard]).  With a project id that is not empty, every project of
    the structure has that id; the empty id selects all projects, as no id
    does. *)
Theorem getStructure_boards_and_lists_in_order :
  ∀ projectId (s s' : Sys W) structure,
    getStructure client is_email zod_message projectId s
    = (Ok structure, s') →
    Forall
      (λ ps,
         StronglySorted (in_order (λ b, Board.position b.1)) (ps_boards ps) ∧
         Forall (λ b, Board.projectId b.1 = Project.id (ps_project ps) ∧
                      StronglySorted
                        (in_order
                           (λ l, default (Finite 0) (BList.position l))) b.2)
           (ps_boards ps) ∧
         ∀ pid, projectId = Some pid → pid ≠ "" →
                Project.id (ps_project ps) = pid)
      structure ∧
    getStructure client is_email zod_message (Some "") s
    = getStructure client is_email zod_message None s.
Proof.
  intros projectId s s' structure Hrun. split; [|done].
  destruct (getStructure_Ok _ _ _ _ Hrun)
    as (projects & boards & s1 & _ & _ & Hall & _).
  assert (Forall (λ p, ∀ pid, projectId = Some pid → pid ≠ "" →
                         Project.id p = pid)
            (target_projects projectId projects)) as Htargets.
  { apply Forall_forall. intros p Hp pid -> Hpid.
    unfold target_projects in Hp.
    destruct (String.eqb_spec pid ""); [done|].
    by apply list_elem_of_filter in Hp as [? _]. }
  clear Hrun.
  induction Hall as [|project ps projects' structure'
                       (Hproject & Hsorted & Hboards & Hlists) _ IH];
    [constructor|].
  apply Forall_cons in Htargets as [Hproject' Htargets].
  constructor; [|by apply IH].
  split; [done|]. split; [|by rewrite Hproject].
  apply Forall_forall. intros b Hb. split.
  - assert (b.1 ∈ boards_of project boards) as Hin.
    { rewrite <- Hboards. by apply list_elem_of_fmap_2. }
    unfold boards_of in Hin. apply list_elem_of_filter in Hin as [Hin _].
    by rewrite Hproject.
  - rewrite Forall_forall in Hlists. by apply Hlists.
Qed.
End structure_facts.

Lemma getStructure_requests_witness :
  ∃ structure,
    getStructure structure_client any_email no_message None fresh
    = (Ok structure,
       mkSys tt [ getProjects_request; getBoard_request "3";
                  getBoard_request "4" ]) ∧
    board_requests structure = [getBoard_request "4"; getBoard_request "3"] ∧
    [getBoard_request "3"; getBoard_request "4"] ≡ₚ board_requests structure.
Proof.
  eexists. split; [vm_compute; reflexivity|]. split; [reflexivity|].
  destruct (getStructure_one_request_per_board structure_client any_email
              no_message None fresh _ _ eq_refl) as (requests & Hs & Hp & _).
  simpl in Hs. injection Hs as <-. exact Hp.
Defined.

Lemma getStructure_in_order_witness :
  ∃ structure,
    getStructure structure_client any_email no_message (Some "1") fresh
    = (Ok structure,
       mkSys tt [ getProjects_request; getBoard_request "3";
                  getBoard_request "4" ]) ∧
    (λ ps : ProjectStructure,
       (λ b : Board.t * list BList.t, (Board.id b.1, BList.id <$> b.2))
         <$> ps_boards ps) <$> structure
    = [[("4", []); ("3", ["10"; "11"; "12"])]] ∧
    Forall (λ ps, Project.id (ps_project ps) = "1") structure.
Proof.
  eexists. split; [vm_compute; reflexivity|]. split; [reflexivity|].
  destruct (getStructure_boards_and_lists_in_order structure_client any_email
              no_message (Some "1") fresh _ _ eq_refl) as [H _].
  eapply Forall_impl; [exact H|]. intros ps (_ & _ & Hid). by apply Hid.
Defined.

(** ** The reading operations *)

Section reads.
Context {W : Type} (client : Req → W → Res Value * W).
Context (is_email : string → bool) (getTime : string → Num).
Context (zod_message : string → Value → string).

Lemma sends_one {A} (P : Req → Prop) (m : M (Sys W) A) r :
  (∀ s, sent (m s).2 = (sent s ++ [r])%list) → P r → sends P m.
Proof.
  intros H Hr s. exists [r]. split; [apply H|]. by constructor.
Qed.

Lemma sends_getBoard (P : Req → Prop) boardId :
  P (getBoard_request boardId) →
  sends P (getBoard client is_email zod_message boardId).
Proof. apply sends_one, getBoard_sent. Qed.

Lemma sends_getStructure (P : Req → Prop) projectId :
  P getProjects_request → (∀ boardId, P (getBoard_request boardId)) →
  sends P (getStructure client is_email zod_message projectId).
Proof.
  intros Hp Hb. unfold getStructure. apply sends_bind.
  - eapply sends_one; [|exact Hp]. intros s. rewrite getProjects_state.
    apply through_client_sent.
  - intros found. apply sends_for_push. intros project. apply sends_bind.
    + apply sends_for_push. intros board.
      eapply sends_one; [|apply Hb]. intros s.
      rewrite board_with_lists_state. apply through_client_sent.
    + intros boardsWithLists. apply sends_ret.
Qed.

(** X18. The operations that read send GET requests without body and
    nothing else, whether they return or throw: [getCard],
    [getCommentsForCard], [getBoard], [getBoardWithTaskCounts],
    [getCardsForList], [getStructure] and the handler of
    [planka_get_structure]. *)
Theorem reading_operations_send_reads_only :
  (∀ cardId,
     sends is_read (getCard client is_email getTime zod_message cardId)) ∧
  (∀ cardId,
     sends is_read
       (getCommentsForCard client is_email getTime zod_message cardId)) ∧
  (∀ boardId, sends is_read (getBoard client is_email zod_message boardId)) ∧
  (∀ boardId,
     sends is_read
       (getBoardWithTaskCounts client is_email zod_message boardId)) ∧
  (∀ boardId listId,
     sends is_read
       (getCardsForList client is_email zod_message boardId listId)) ∧
  (∀ projectId,
     sends is_read (getStructure client is_email zod_message projectId)) ∧
  (∀ projectId,
     sends is_read
       (getStructureTool_handler client is_email zod_message projectId)).
Proof.
  assert (∀ boardId,
            sends is_read (getBoard client is_email zod_message boardId))
    as Hboard by (intros; by apply sends_getBoard).
  assert (∀ projectId,
            sends is_read (getStructure client is_email zod_message projectId))
    as Hstructure by (intros; by apply sends_getStructure).
  assert (∀ cardId,
            sends is_read (getCard client is_email getTime zod_message cardId))
    as Hcard by (intros; by apply sends_getCard).
  repeat split; try done.
  - intros cardId. unfold getCommentsForCard.
    apply sends_bind; [done|]. intros. apply sends_ret.
  - intros boardId. unfold getBoardWithTaskCounts.
    apply sends_bind; [done|]. intros. apply sends_ret.
  - intros boardId listId. unfold getCardsForList.
    apply sends_bind; [done|]. intros. apply sends_ret.
  - intros projectId. unfold getStructureTool_handler.
    apply sends_bind; [done|]. intros. apply sends_ret.
Qed.
End reads.

(** ** More on creating tasks *)

Lemma task_requests_length taskListId inputs position :
  length (task_requests taskListId inputs position) = length inputs.
Proof.
  revert position. induction inputs as [|i inputs IH]; intros p; [done|].
  simpl. by rewrite IH.
Qed.

Lemma position_at_succ k start :
  position_at (S k) start = position_at k (start + 65536)%Q.
Proof. unfold position_at. by rewrite Nat.iter_succ_r. Qed.

Lemma task_requests_lookup taskListId inputs position k taskInput :
  inputs !! k = Some taskInput →
  task_requests taskListId inputs position !! k
  = Some (task_request taskListId (ti_name taskInput)
            (default (Finite (position_at k position))
               (ti_position taskInput))).
Proof.
  revert position k. induction inputs as [|i inputs IH]; intros p k; [done|].
  destruct k as [|k].
  - by intros [= ->].
  - intros H.
    change (task_requests taskListId (i :: inputs) p !! S k)
      with (task_requests taskListId inputs (p + 65536)%Q !! k).
    by rewrite (IH _ _ H), position_at_succ.
Qed.

Lemma position_at_Qeq k start :
  (position_at k start == start + 65536 * inject_Z (Z.of_nat k))%Q.
Proof.
  unfold position_at. induction k as [|k IH].
  - change (inject_Z (Z.of_nat 0)) with 0%Q. simpl. lra.
  - rewrite Nat.iter_succ, IH, Nat2Z.inj_succ. unfold Z.succ.
    rewrite inject_Z_plus. change (inject_Z 1) with 1%Q. lra.
Qed.

Lemma mapM_None_elem {A B} (f : A → option B) (l : list A) x :
  x ∈ l → f x = None → mapM f l = None.
Proof.
  intros Hin Hx. induction Hin as [x l|x y l Hin IH]; simpl.
  - by rewrite Hx.
  - rewrite (IH Hx). by destruct (f y).
Qed.

Section creating_tasks.
Context {W : Type} (client : Req → W → Res Value * W).
Context (is_email : string → bool) (getTime : string → Num).
Context (zod_message : string → Value → string).

(** X19. When [createTasks] returns, it returns as many tasks as it was
    given names, and the last requests it made are one per task, in the
    order given: the task at index [k] is created at the position given for
    it and otherwise at 65536 (k + 1), the count going on over tasks that
    have a position of their own. *)
Theorem createTasks_positions :
  ∀ input v (s s' : Sys W) created,
    BatchCreateTasksSchema input = Some v →
    createTasks client is_email getTime zod_message input s
    = (Ok created, s') →
    length created = length (bt_tasks v) ∧
    ∃ before taskListId requests,
      sent s' = (before ++ requests)%list ∧
      length requests = length (bt_tasks v) ∧
      ∀ k taskInput,
        bt_tasks v !! k = Some taskInput →
        requests !! k
        = Some (task_request taskListId (ti_name taskInput)
                  (default (Finite (position_at k 65536))
                     (ti_position taskInput))) ∧
        (position_at k 65536 == 65536 * (inject_Z (Z.of_nat k) + 1))%Q.
Proof.
  intros input v s s' created Hv. unfold createTasks.
  rewrite (bind_Ok _ _ _ _ _ (parse_Some _ _ _ _ _ _ Hv)). unfold bind.
  destruct (getOrCreateDefaultTaskList _ _ _ _ _ s) as [[taskList|e] s2];
    [|done].
  intros Hloop.
  destruct (createTasks_loop_sent _ _ _ _ _ _ _ _ _ Hloop)
    as (k & _ & Hsent & Hok).
  destruct (Hok created eq_refl) as [-> Hlen].
  rewrite <- task_requests_length
    with (taskListId := TaskList.id taskList) (position := 65536%Q) in Hsent.
  rewrite firstn_all in Hsent.
  split; [done|].
  exists (sent s2), (TaskList.id taskList),
    (task_requests (TaskList.id taskList) (bt_tasks v) 65536).
  split; [done|]. split; [apply task_requests_length|].
  intros k taskInput Hk. split; [by apply task_requests_lookup|].
  rewrite position_at_Qeq. lra.
Qed.

(** X20. [createTasks] validates the whole batch before it does anything:
    when one of the tasks has no name, or a name that is empty or not a
    string, a ZodError is thrown and no request is made, not even for the
    tasks before it. *)
Theorem createTasks_rejects_the_whole_batch :
  ∀ cardId items item (s : Sys W),
    item ∈ items → z_string_min1 (property "name" item) = None →
    let input := Some (JObj [("cardId", cardId); ("tasks", JArr items)]) in
    createTasks client is_email getTime zod_message input s
    = (Throw (mkErr ZodError (zod_message "BatchCreateTasksSchema" input)
                None), s).
Proof.
  intros cardId items item s Hin Hname input. unfold createTasks.
  erewrite bind_Throw; [done|]. apply parse_None.
  unfold input, BatchCreateTasksSchema, z_object. simpl.
  destruct cardId; try done. simpl.
  erewrite mapM_None_elem; [done|exact Hin|].
  destruct item; try done. simpl in *. by rewrite Hname.
Qed.
End creating_tasks.

Lemma createTasks_positions_witness :
  ∃ created s',
    createTasks (task_client true) any_email no_clock no_message three_tasks
      fresh
    = (Ok created, s') ∧
    length created = 3%nat ∧
    sent s'
    = [ getCard_request "41";
        task_request "71" "Draft" 65536;
        task_request "71" "Review" 1000;
        task_request "71" "Publish" 196608 ].
Proof.
  eexists _, _. split; [reflexivity|]. split; [|reflexivity].
  by destruct (createTasks_positions (task_client true) any_email no_clock
                 no_message three_tasks _ fresh _ _ eq_refl eq_refl)
    as [H _].
Defined.

Lemma createTasks_rejects_witness :
  createTasks (task_client true) any_email no_clock no_message
    (Some (JObj [ ("cardId", JStr "41");
                  ("tasks", JArr [ JObj [("name", JStr "Draft")];
                                   JObj [("name", JStr "")] ]) ]))
    fresh
  = (Throw (mkErr ZodError "" None), fresh).
Proof.
  by apply (createTasks_rejects_the_whole_batch (task_client true) any_email
              no_clock no_message (JStr "41")
              [JObj [("name", JStr "Draft")]; JObj [("name", JStr "")]]
              (JObj [("name", JStr "")]) fresh);
    [set_solver|].
Defined.

(** ** The bodies of the requests that update *)

Lemma omap_cons_match {A B} (f : A → option B) x l :
  omap f (x :: l)
  = match f x with Some y => y :: omap f l | None => omap f l end.
Proof. done. Qed.

Lemma property_restrict o keys k :
  property k (restrict o keys)
  = if bool_decide (k ∈ keys) then o.[k] else None.
Proof.
  unfold restrict, obj, property. induction keys as [|key keys IH]; [done|].
  assert (bool_decide (k ∈ key :: keys)
          = (String.eqb k key || bool_decide (k ∈ keys))) as ->.
  { destruct (String.eqb_spec k key) as [->|Hne]; simpl.
    - apply bool_decide_eq_true_2. by left.
    - apply bool_decide_ext. rewrite elem_of_cons.
      split; [by intros [?|?]|by right]. }
  rewrite fmap_cons, omap_cons_match. cbn [fst snd].
  destruct (String.eqb_spec k key) as [->|Hne].
  - destruct (o.[key]) as [v|] eqn:Hv; simpl.
    + by rewrite String.eqb_refl.
    + rewrite IH. by destruct (bool_decide _).
  - destruct (o.[key]) as [v|]; simpl; [|done].
    by destruct (String.eqb_spec k key).
Qed.

Lemma z_optional_string_min1_inv v r :
  z_optional z_string_min1 v = Some r → JStr <$> r = v.
Proof.
  destruct v as [[| | |s| |]|]; simpl; try done; [|by intros [= <-]].
  unfold z_string_min1. simpl. destruct (String.eqb s ""); simpl; [done|].
  by intros [= <-].
Qed.

Lemma z_optional_string_inv v r :
  z_optional z_string v = Some r → JStr <$> r = v.
Proof. destruct v as [[]|]; simpl; try done; by intros [= <-]. Qed.

Lemma z_optional_nullable_string_inv v r :
  z_optional (z_nullable z_string) v = Some r →
  from_option JStr JNull <$> r = v.
Proof. destruct v as [[]|]; simpl; try done; by intros [= <-]. Qed.

Lemma z_optional_boolean_inv v r :
  z_optional z_boolean v = Some r → JBool <$> r = v.
Proof. destruct v as [[]|]; simpl; try done; by intros [= <-]. Qed.

Lemma z_optional_number_inv v r :
  z_optional z_number v = Some r → JNum <$> r = v.
Proof. destruct v as [[]|]; simpl; try done; by intros [= <-]. Qed.

Lemma z_optional_color_inv v r :
  z_optional LabelColorSchema v = Some r → JStr <$> r = v.
Proof.
  destruct v as [[| | |s| |]|]; simpl; try done; [|by intros [= <-]].
  unfold LabelColorSchema, z_enum. simpl. destruct (bool_decide _); simpl;
    [|done]. by intros [= <-].
Qed.

Section updating.
Context {W : Type} (client : Req → W → Res Value * W).
Context (zod_message : string → Value → string).

(** A request followed by the parsing of its answer sends the request. *)
Lemma request_then_parse_sent {A} r name (schema : Schema A) (s : Sys W) :
  sent (bind (through_client client r)
          (λ response,
             bind (parse zod_message name schema response)
               (λ parsed, ret parsed)) s).2
  = (sent s ++ [r])%list.
Proof.
  unfold bind. pose proof (through_client_sent client r s) as Hs.
  destruct (through_client client r s) as [[response|e] s1]; [|done].
  pose proof (parse_state zod_message name schema response s1) as Hp.
  by destruct (parse _ _ _ response s1) as [[parsed|e] s2]; simpl in *; subst.
Qed.

End updating.


(** ** Moving a card, creating a list *)

Section positions.
Context {W : Type} (client : Req → W → Res Value * W).
Context (zod_message : string → Value → string).


End positions.



(** ** The operations over the client *)

Lemma through_client_remote {W} (client : Req → W → Res Value * W) r
    (s : Sys W) :
  remote (through_client client r s).2 = (client r (remote s)).2.
Proof. unfold through_client. by destruct (client r (remote s)). Qed.

(** X24. The operations that make one request, run over the client: with
    the configuration resolved, [getCard], [getCommentsForCard], [getBoard],
    [getBoardWithTaskCounts] and [getCardsForList] put at most four calls
    on the wire, each the call of the token endpoint or the GET of the card
    or of the board with a bearer token. *)
Theorem reading_over_the_client :
  ∀ env valid_url js_String service zod_message is_email getTime
    (s : Sys Proc) cfg,
    let client :=
      plankaClient_call env valid_url js_String service zod_message in
    config (this (remote s)) = Some cfg →
    (∀ cardId,
       makes_calls_of cfg (getCard_request cardId) (remote s)
         (remote (getCard client is_email getTime zod_message cardId s).2) ∧
       makes_calls_of cfg (getCard_request cardId) (remote s)
         (remote (getCommentsForCard client is_email getTime zod_message
                    cardId s).2)) ∧
    (∀ boardId,
       makes_calls_of cfg (getBoard_request boardId) (remote s)
         (remote (getBoard client is_email zod_message boardId s).2) ∧
       makes_calls_of cfg (getBoard_request boardId) (remote s)
         (remote (getBoardWithTaskCounts client is_email zod_message
                    boardId s).2) ∧
       ∀ listId,
         makes_calls_of cfg (getBoard_request boardId) (remote s)
           (remote (getCardsForList client is_email zod_message boardId
                      listId s).2)).
Proof.
  intros env valid_url js_String service zod_message is_email getTime s cfg
    client Hc.
  assert (∀ cardId,
            makes_calls_of cfg (getCard_request cardId) (remote s)
              (remote (getCard client is_email getTime zod_message cardId
                         s).2)) as Hcard.
  { intros cardId. rewrite getCard_state, through_client_remote.
    by apply plankaClient_call_wire. }
  assert (∀ boardId,
            makes_calls_of cfg (getBoard_request boardId) (remote s)
              (remote (getBoard client is_email zod_message boardId s).2))
    as Hboard.
  { intros boardId. rewrite getBoard_state, through_client_remote.
    by apply plankaClient_call_wire. }
  split.
  - intros cardId. split; [done|].
    specialize (Hcard cardId). unfold getCommentsForCard, bind.
    by destruct (getCard _ _ _ _ cardId s) as [[d|e] s1].
  - intros boardId. specialize (Hboard boardId). split; [done|]. split.
    + unfold getBoardWithTaskCounts, bind.
      by destruct (getBoard _ _ _ boardId s) as [[d|e] s1].
    + intros listId. unfold getCardsForList, bind.
      by destruct (getBoard _ _ _ boardId s) as [[d|e] s1].
Qed.

Lemma reading_over_the_client_witness :
  makes_calls_of sample_config (getBoard_request "3") stale_client
    (remote (getBoard
               (plankaClient_call sample_env any_url text_of
                  (sample_service (λ _, false)) no_message)
               any_email no_message "3" (mkSys stale_client [])).2) ∧
  length (wire (net (remote
            (getBoard
               (plankaClient_call sample_env any_url text_of
                  (sample_service (λ _, false)) no_message)
               any_email no_message "3" (mkSys stale_client [])).2)))
  = 3%nat.
Proof.
  split; [|reflexivity].
  by destruct (reading_over_the_client sample_env any_url text_of
                 (sample_service (λ _, false)) no_message any_email no_clock
                 (mkSys stale_client []) sample_config eq_refl)
    as [_ H]; destruct (H "3") as [H3 _].
Defined.

(** ** The handlers *)

Section handlers.
Context {W : Type} (client : Req → W → Res Value * W).
Context (is_email : string → bool) (getTime : string → Num).
Context (zod_message : string → Value → string).
Context (JSON_parse : string → Res Json).

Lemma reporting_PlankaError_run (m : M (Sys W) ToolResult) s :
  reporting_PlankaError m s
  = match m s with
    | (Ok result, s') => (Ok result, s')
    | (Throw e, s') =>
        if isPlankaError e then (Ok (Failure ("Error: " +:+ message e)), s')
        else (Throw e, s')
    end.
Proof.
  unfold reporting_PlankaError, try_catch.
  destruct (m s) as [[result|e] s']; [done|]. by destruct (isPlankaError e).
Qed.

Lemma reporting_PlankaError_Throw (m : M (Sys W) ToolResult) s e s' :
  reporting_PlankaError m s = (Throw e, s') →
  isPlankaError e = false ∧ m s = (Throw e, s').
Proof.
  rewrite reporting_PlankaError_run.
  destruct (m s) as [[result|e0] s0]; [done|].
  destruct (isPlankaError e0) eqn:He; [done|]. by intros [= <- <-].
Qed.

(** The loop over the labels does not throw: every label is tried once, in
    order, and is counted as attached or put down as failed. *)
Lemma attach_labels_run cardId labelIds labelsAttached labelErrors
    (s : Sys W) :
  ∃ attached failed s',
    attach_labels client zod_message cardId labelIds labelsAttached
      labelErrors s
    = (Ok ((labelsAttached + attached)%nat, (labelErrors ++ failed)%list), s')
    ∧ (attached + length failed = length labelIds)%nat ∧
    sublist failed labelIds ∧
    sent s' = (sent s ++ (add_label_request cardId <$> labelIds))%list.
Proof.
  revert labelsAttached labelErrors s.
  induction labelIds as [|labelId rest IH]; intros n errs s; simpl.
  - exists 0%nat, [], s. rewrite Nat.add_0_r, !app_nil_r. by repeat split.
  - unfold bind at 1. unfold try_catch, bind.
    pose proof (addLabelToCard_state client zod_message cardId labelId s)
      as Hs.
    destruct (addLabelToCard _ _ _ s) as [[cl|e] s1]; simpl in Hs.
    + destruct (IH (S n) errs s1) as (a & f & s' & Hrun & Hn & Hsub & Hsent).
      exists (S a), f, s'. cbv beta iota zeta delta [ret]. rewrite Hrun.
      split; [do 3 f_equal; lia|]. split; [simpl; lia|].
      split; [by apply sublist_cons|].
      rewrite Hsent, Hs, through_client_sent, <- app_assoc. done.
    + destruct (IH n (errs ++ [labelId])%list s1)
        as (a & f & s' & Hrun & Hn & Hsub & Hsent).
      exists a, (labelId :: f), s'. cbv beta iota zeta delta [ret].
      rewrite Hrun.
      split; [by rewrite <- app_assoc|]. split; [simpl; lia|].
      split; [by apply sublist_skip|].
      rewrite Hsent, Hs, through_client_sent, <- app_assoc. done.
Qed.

Lemma attach_labels_of_run params card (s1 : Sys W) :
  ∃ labelsAttached labelErrors s',
    attach_labels_of client zod_message params card s1
    = (Ok (labelsAttached, labelErrors), s') ∧
    (labelsAttached + length labelErrors
     = length (default [] (ccp_labelIds params)))%nat ∧
    sublist labelErrors (default [] (ccp_labelIds params)) ∧
    sent s'
    = (sent s1
       ++ (add_label_request (Card.id card)
             <$> default [] (ccp_labelIds params)))%list.
Proof.
  unfold attach_labels_of.
  destruct (ccp_labelIds params) as [labelIds|]; simpl.
  - destruct (0 <? length labelIds)%nat eqn:Hlen.
    + destruct (attach_labels_run (Card.id card) labelIds 0 [] s1)
        as (a & f & s' & Hrun & Hn & Hsub & Hsent).
      by exists a, f, s'.
    + destruct labelIds; [|done].
      exists 0%nat, [], s1. rewrite app_nil_r. by repeat split.
  - exists 0%nat, [], s1. rewrite app_nil_r. by repeat split.
Qed.

(** X25. Once [planka_create_card] has created the card and its tasks, it
    answers with success: every label is tried once, in the order given,
    and one that fails is listed in [labelErrors] instead of failing the
    call, so that [labelsAttached] and the length of [labelErrors] add up
    to the number of labels.  An error of the creation of the card or its
    tasks is reported as an error result when it is a PlankaError, and
    thrown on otherwise; nothing is sent after it. *)
Theorem createCardTool_tolerates_label_failures :
  ∀ params (s s1 : Sys W),
    (∀ card,
       create_card_and_tasks client is_email getTime zod_message params s
       = (Ok card, s1) →
       ∃ labelsAttached labelErrors s',
         createCardTool_handler client is_email getTime zod_message params s
         = (Ok (created_card_answer params card labelsAttached labelErrors),
            s') ∧
         (labelsAttached + length labelErrors
          = length (default [] (ccp_labelIds params)))%nat ∧
         sublist labelErrors (default [] (ccp_labelIds params)) ∧
         sent s'
         = (sent s1
            ++ (add_label_request (Card.id card)
                  <$> default [] (ccp_labelIds params)))%list) ∧
    (∀ e,
       create_card_and_tasks client is_email getTime zod_message params s
       = (Throw e, s1) →
       createCardTool_handler client is_email getTime zod_message params s
       = (if isPlankaError e then Ok (Failure ("Error: " +:+ message e))
          else Throw e, s1)).
Proof.
  intros params s s1. split.
  - intros card Hcard. unfold createCardTool_handler.
    rewrite reporting_PlankaError_run, (bind_Ok _ _ _ _ _ Hcard).
    destruct (attach_labels_of_run params card s1)
      as (a & f & s' & Hrun & Hn & Hsub & Hsent).
    rewrite (bind_Ok _ _ _ _ _ Hrun). by exists a, f, s'.
  - intros e He. unfold createCardTool_handler.
    rewrite reporting_PlankaError_run, (bind_Throw _ _ _ _ _ He).
    by destruct (isPlankaError e).
Qed.

(** X26. The handlers that catch do not throw a PlankaError: such an error
    becomes an error result.  The handler of [planka_get_board] catches
    nothing: it throws whatever [getBoardWithTaskCounts] throws, and
    answers otherwise. *)
Theorem handlers_report_PlankaErrors :
  ∀ (s s' : Sys W) e,
    (∀ cardId text,
       addCommentTool_handler client zod_message cardId text s
       = (Throw e, s') → isPlankaError e = false) ∧
    (∀ cardId,
       getCommentsTool_handler client is_email getTime zod_message cardId s
       = (Throw e, s') → isPlankaError e = false) ∧
    (∀ params,
       createCardTool_handler client is_email getTime zod_message params s
       = (Throw e, s') → isPlankaError e = false) ∧
    (∀ cardId tasks,
       createTasksTool_handler client is_email getTime zod_message JSON_parse
         cardId tasks s
       = (Throw e, s') → isPlankaError e = false) ∧
    (∀ params,
       manageLabelsTool_handler client zod_message params s = (Throw e, s') →
       isPlankaError e = false) ∧
    (∀ cardId addLabelIds removeLabelIds,
       setCardLabelsTool_handler client is_email getTime zod_message cardId
         addLabelIds removeLabelIds s
       = (Throw e, s') → isPlankaError e = false) ∧
    (∀ boardId includeTaskCounts,
       getBoardTool_handler client is_email zod_message boardId
         includeTaskCounts s = (Throw e, s')
       ↔ getBoardWithTaskCounts client is_email zod_message boardId s
         = (Throw e, s')).
Proof.
  intros s s' e.
  repeat split; intros;
    try (unfold addCommentTool_handler, getCommentsTool_handler,
           createCardTool_handler, createTasksTool_handler,
           manageLabelsTool_handler, setCardLabelsTool_handler in H;
         by apply reporting_PlankaError_Throw in H as [? _]).
  - revert H. unfold getBoardTool_handler, bind, ret.
    destruct (getBoardWithTaskCounts _ _ _ _ s) as [[d|e0] s0]; [done|].
    by intros [= <- <-].
  - unfold getBoardTool_handler, bind. by rewrite H.
Qed.

(** X27. [planka_create_tasks] takes the names as an array or as the JSON
    text of an array, to the same effect.  A text that is not JSON makes it
    throw the SyntaxError of [JSON.parse], a text that is JSON but no array
    a TypeError: these are not reported as error results, and nothing is
    sent. *)
Theorem createTasksTool_takes_array_or_JSON_text :
  ∀ cardId text (s : Sys W),
    (∀ names,
       JSON_parse text = Ok (JArr (map JStr names)) →
       createTasksTool_handler client is_email getTime zod_message JSON_parse
         cardId (inr text) s
       = createTasksTool_handler client is_email getTime zod_message
           JSON_parse cardId (inl names) s) ∧
    (∀ e, JSON_parse text = Throw e → err_name e = SyntaxError →
          createTasksTool_handler client is_email getTime zod_message
            JSON_parse cardId (inr text) s
          = (Throw e, s)) ∧
    (∀ v, JSON_parse text = Ok v → (∀ items, v ≠ JArr items) →
          ∃ e, createTasksTool_handler client is_email getTime zod_message
                 JSON_parse cardId (inr text) s
               = (Throw e, s) ∧ err_name e = TypeError).
Proof.
  intros cardId text s. split; [|split].
  - intros names Hp. unfold createTasksTool_handler. by rewrite Hp.
  - intros e Hp He. unfold createTasksTool_handler.
    rewrite reporting_PlankaError_run, Hp. unfold bind, throw, isPlankaError.
    by rewrite He.
  - intros v Hp Hv. unfold createTasksTool_handler.
    rewrite reporting_PlankaError_run, Hp.
    destruct v; try (by eexists). by destruct (Hv items).
Qed.

(** X28. [planka_manage_labels] checks before it sends: a create without
    board, name or colour, an update or delete without label, a create or
    update with a colour that is not of the palette, and an action that is
    none of the three, each return an error result, and no request is
    made. *)
Theorem manageLabelsTool_checks_before_sending :
  ∀ params (s : Sys W),
    let refused :=
      ∃ text, manageLabelsTool_handler client zod_message params s
              = (Ok (Failure text), s) in
    (mlp_action params = "create" →
     truthy_str (mlp_boardId params) = false ∨
     truthy_str (mlp_name params) = false ∨
     truthy_str (mlp_color params) = false ∨
     (∃ c, mlp_color params = Some c ∧ c ∉ LabelColors) →
     refused) ∧
    (mlp_action params = "update" →
     truthy_str (mlp_labelId params) = false ∨
     (∃ c, mlp_color params = Some c ∧ c ∉ LabelColors) →
     refused) ∧
    (mlp_action params = "delete" →
     truthy_str (mlp_labelId params) = false → refused) ∧
    (mlp_action params ≠ "create" → mlp_action params ≠ "update" →
     mlp_action params ≠ "delete" →
     manageLabelsTool_handler client zod_message params s
     = (Ok (Failure ("Error: Unknown action '" +:+ mlp_action params
                     +:+ "'")), s)).
Proof.
  intros params s refused. subst refused.
  unfold manageLabelsTool_handler. rewrite reporting_PlankaError_run.
  split; [|split; [|split]].
  - intros -> H. simpl.
    destruct (truthy_str (mlp_boardId params)); [|by eexists].
    destruct (truthy_str (mlp_name params)); [|by eexists].
    destruct (truthy_str (mlp_color params)) eqn:Hc; [|by eexists]. simpl.
    destruct H as [?|[?|[?|(c & Hcolor & Hout)]]]; try done.
    rewrite Hcolor. simpl. unfold LabelColorSchema.
    rewrite (z_enum_unknown _ _ Hout). by eexists.
  - intros -> H. simpl.
    destruct (truthy_str (mlp_labelId params)); [|by eexists]. simpl.
    destruct H as [?|(c & Hcolor & Hout)]; [done|].
    rewrite Hcolor. unfold LabelColorSchema.
    rewrite (z_enum_unknown _ _ Hout). by eexists.
  - intros -> H. simpl. rewrite H. by eexists.
  - intros H1 H2 H3.
    destruct (String.eqb_spec (mlp_action params) "create"); [done|].
    destruct (String.eqb_spec (mlp_action params) "update"); [done|].
    by destruct (String.eqb_spec (mlp_action params) "delete").
Qed.
End handlers.

Lemma createPlankaError_witness :
  createPlankaError text_of 404 (Some (JObj [("message", JStr "No card")]))
    (Some "GET /api/cards/41")
  = createPlankaError text_of 404 None (Some "GET /api/cards/41").
Proof.
  by destruct (createPlankaError_status_and_class text_of 404 None
                 (Some "GET /api/cards/41")) as (_ & _ & _ & _ & _ & _ & _ & H);
    rewrite (H eq_refl).
Defined.

Lemma createCardTool_witness :
  (∃ labelsAttached labelErrors s',
     createCardTool_handler card_tool_client any_email no_clock no_message
       (mkCreateCardParams "12" "Write report" None (Some ["Draft"]) None
          (Some ["5"; "9"; "5"])) fresh
     = (Ok (created_card_answer
              (mkCreateCardParams "12" "Write report" None (Some ["Draft"])
                 None (Some ["5"; "9"; "5"]))
              sample_card labelsAttached labelErrors), s') ∧
     (labelsAttached + length labelErrors = 3)%nat) ∧
  (createCardTool_handler card_tool_client any_email no_clock no_message
     (mkCreateCardParams "12" "Write report" None (Some ["Draft"]) None
        (Some ["5"; "9"; "5"])) fresh).1
  = Ok (created_card_answer
          (mkCreateCardParams "12" "Write report" None (Some ["Draft"]) None
             (Some ["5"; "9"; "5"]))
          sample_card 2 ["9"]).
Proof.
  split; [|reflexivity].
  destruct (proj1 (createCardTool_tolerates_label_failures card_tool_client
                     any_email no_clock no_message
                     (mkCreateCardParams "12" "Write report" None
                        (Some ["Draft"]) None (Some ["5"; "9"; "5"]))
                     fresh _) sample_card eq_refl)
    as (a & f & s' & Hrun & Hn & _).
  by exists a, f, s'.
Defined.

Lemma handlers_report_witness :
  addCommentTool_handler (constant_client None) no_message "41" "" fresh
  = (Throw (mkErr ZodError "" None), fresh) ∧
  isPlankaError (mkErr ZodError "" None) = false ∧
  addCommentTool_handler (λ r w, (Throw (not_found r), w)) no_message "41"
    "Done" fresh
  = (Ok (Failure "Error: Resource not found: POST /api/cards/41/comments"),
     mkSys tt [mkReq POST "/api/cards/41/comments"
                 (Some (JObj [("text", JStr "Done")]))]).
Proof.
  split; [reflexivity|]. split; [|reflexivity].
  exact (proj1 (handlers_report_PlankaErrors (constant_client None)
                  any_email no_clock no_message no_JSON fresh fresh
                  (mkErr ZodError "" None)) "41" "" eq_refl).
Defined.

Lemma createTasksTool_witness :
  createTasksTool_handler (task_client true) any_email no_clock no_message
    parse_sample "41" (inr names_text) fresh
  = createTasksTool_handler (task_client true) any_email no_clock no_message
      parse_sample "41" (inl ["Draft"; "Review"]) fresh ∧
  (createTasksTool_handler (task_client true) any_email no_clock no_message
     parse_sample "41" (inr names_text) fresh).2
  = mkSys tt [ getCard_request "41"; task_request "71" "Draft" 65536;
               task_request "71" "Review" 131072 ] ∧
  createTasksTool_handler (task_client true) any_email no_clock no_message
    parse_sample "41" (inr "Draft, Review") fresh
  = (Throw not_JSON, fresh).
Proof.
  split; [|split; [reflexivity|]].
  - exact (proj1 (createTasksTool_takes_array_or_JSON_text (task_client true)
                    any_email no_clock no_message parse_sample "41"
                    names_text fresh) ["Draft"; "Review"] eq_refl).
  - exact (proj1 (proj2 (createTasksTool_takes_array_or_JSON_text
                           (task_client true) any_email no_clock no_message
                           parse_sample "41" "Draft, Review" fresh))
             not_JSON eq_refl eq_refl).
Defined.

Lemma manageLabelsTool_witness :
  ∃ text,
    manageLabelsTool_handler (constant_client None) no_message
      (mkManageLabelsParams "create" (Some "3") None (Some "Later")
         (Some "summer-sky")) fresh
    = (Ok (Failure text), fresh).
Proof.
  apply (proj1 (manageLabelsTool_checks_before_sending (constant_client None)
                  no_message
                  (mkManageLabelsParams "create" (Some "3") None
                     (Some "Later") (Some "summer-sky")) fresh) eq_refl).
  do 3 right. exists "summer-sky". split; [done|].
  apply (proj1 (bool_decide_eq_false _)). vm_compute. reflexivity.
Defined.

(** ** The board view *)

Lemma group_card_foldl (cards : list CardWithTaskCounts)
    (m : gmap string (list CardWithTaskCounts)) k :
  default [] (foldl group_card m cards !! k)
  = (default [] (m !! k)
     ++ filter (λ card, Card.listId (cw_card card) = k) cards)%list.
Proof.
  revert m. induction cards as [|c cards IH]; intros m.
  - by rewrite app_nil_r.
  - cbn [foldl]. rewrite IH. unfold group_card.
    destruct (decide (Card.listId (cw_card c) = k)) as [<-|Hne].
    + rewrite lookup_insert_eq, filter_cons_True by done. simpl.
      by rewrite <- app_assoc.
    + rewrite lookup_insert_ne, filter_cons_False by done. done.
Qed.

(** A list that is in order is left as it is. *)
Lemma sort_sorted {A} (key : A → Number) (l : list A) :
  StronglySorted (in_order key) l →
  sort (ascending (λ t, num_of (key t))) l = l.
Proof.
  induction 1 as [|x l Hl IH Hx]; [done|].
  cbn [sort foldr]. fold (sort (ascending (λ t, num_of (key t))) l).
  rewrite IH.
  destruct l as [|y l']; [done|]. cbn [sort_insert].
  apply Forall_cons in Hx as [Hxy _]. apply ascending_num_of in Hxy.
  by rewrite Hxy.
Qed.

Lemma sort_idempotent {A} (key : A → Number) (l : list A) :
  sort (ascending (λ t, num_of (key t)))
    (sort (ascending (λ t, num_of (key t))) l)
  = sort (ascending (λ t, num_of (key t))) l.
Proof. apply sort_sorted, sort_in_order. Qed.

(** The arrays that the handler sorts where they are come out as if each
    had been sorted apart. *)
Lemma list_views_map view lists
    (m : gmap string (list CardWithTaskCounts)) :
  list_views view lists m
  = map (λ l, list_view l
                (map view
                   (sort (ascending
                            (λ card, num_of (Card.position (cw_card card))))
                      (default [] (m !! BList.id l))))) lists.
Proof.
  revert m. induction lists as [|l lists IH]; intros m; [done|].
  cbn [list_views map]. f_equal. rewrite IH. apply map_ext. intros l'.
  do 2 f_equal.
  destruct (m !! BList.id l) as [cards|] eqn:Hl; [|done].
  destruct (decide (BList.id l' = BList.id l)) as [->|Hne].
  - rewrite lookup_insert_eq, Hl. simpl.
    apply (sort_idempotent (λ card, Card.position (cw_card card))).
  - by rewrite lookup_insert_ne.
Qed.

Lemma assoc_None {A} k (l : list (string * A)) : k ∉ l.*1 → assoc k l = None.
Proof.
  induction l as [|[k' v] l IH]; [done|]. rewrite fmap_cons, not_elem_of_cons.
  intros [Hne Hl]. simpl. destruct (String.eqb_spec k k'); [done|].
  by apply IH.
Qed.

(** A field of an object literal whose keys are distinct. *)
Lemma property_obj fields k :
  NoDup fields.*1 → property k (obj fields) = mjoin (assoc k fields).
Proof.
  unfold property, obj. induction fields as [|[k' v] fields IH]; [done|].
  rewrite fmap_cons, NoDup_cons. intros [Hk' Hnd]. simpl in Hk'.
  rewrite omap_cons_match. cbn [fst snd assoc].
  destruct (String.eqb_spec k k') as [->|Hne].
  - destruct v as [v|]; simpl; [by rewrite String.eqb_refl|].
    rewrite (IH Hnd), (assoc_None _ _ Hk'). done.
  - destruct v as [v|]; simpl; [|by apply IH].
    destruct (String.eqb_spec k k'); [done|]. by apply IH.
Qed.

Section board_view.
Context {W : Type} (client : Req → W → Res Value * W).
Context (is_email : string → bool).
Context (zod_message : string → Value → string).

(** X29. What [planka_get_board] answers is made of the board that
    [getBoardWithTaskCounts] returns: its lists are the lists of the board
    that have a name, in the order of the board, and under each list are the
    cards of that list (no card of another list, of a list without name or
    of no list of the board) in ascending order of position.  The view of a
    card has its id, and its tasks as "completed/total" exactly when the
    counts are not turned off and the card has a task. *)
Theorem getBoardTool_lists_and_cards :
  ∀ boardId includeTaskCounts (s s' : Sys W) result,
    getBoardTool_handler client is_email zod_message boardId
      includeTaskCounts s = (Ok result, s') →
    ∃ details labelsByCard,
      getBoardWithTaskCounts client is_email zod_message boardId s
      = (Ok details, s') ∧
      result = Answer (format_board includeTaskCounts details) ∧
      elements (property "lists" (format_board includeTaskCounts details))
      = map (λ l, list_view l
                    (map (card_view includeTaskCounts labelsByCard)
                       (cards_in_list details (BList.id l))))
          (filter (λ l, BList.name l ≠ None) (bw_lists details)) ∧
      ∀ card,
        property "id" (card_view includeTaskCounts labelsByCard card)
        = Some (JStr (Card.id (cw_card card))) ∧
        property "tasks" (card_view includeTaskCounts labelsByCard card)
        = (if negb (bool_decide (includeTaskCounts = Some false))
              && (0 <? taskCount card)%nat
           then Some (JStr (pretty (completedTaskCount card) +:+ "/"
                            +:+ pretty (taskCount card)))
           else None).
Proof.
  intros boardId includeTaskCounts s s' result.
  unfold getBoardTool_handler, bind.
  destruct (getBoardWithTaskCounts _ _ _ _ s) as [[details|e] s1]; [|done].
  intros [= <- <-]. eexists details, _. split; [done|]. split; [done|].
  split.
  - change (property "lists" (format_board includeTaskCounts details))
      with (Some (JArr (list_views
                          (card_view includeTaskCounts
                             (foldl (note_label (labelById (bw_labels details)))
                                ∅ (bw_cardLabels details)))
                          (filter (λ l, BList.name l ≠ None)
                             (bw_lists details))
                          (foldl group_card ∅ (bw_cards details))))).
    cbn [elements]. rewrite list_views_map. apply map_ext. intros l.
    unfold cards_in_list. by rewrite group_card_foldl.
  - intros card. unfold card_view.
    rewrite !property_obj
      by (apply (bool_decide_unpack _); vm_compute; exact I).
    by split.
Qed.
End board_view.

Lemma getBoardTool_witness :
  ∃ result details,
    getBoardTool_handler (constant_client (Some sample_view_reply)) any_email
      no_message "3" None fresh
    = (Ok result, mkSys tt [getBoard_request "3"]) ∧
    result = Answer (format_board None details) ∧
    map (λ entry, (property "id" entry,
                   property "id" <$> elements (property "cards" entry)))
      (elements (property "lists" (format_board None details)))
    = [ (Some (JStr "11"), []);
        (Some (JStr "12"), [Some (JStr "43"); Some (JStr "41")]) ] ∧
    map (λ entry, property "tasks" <$> elements (property "cards" entry))
      (elements (property "lists" (format_board None details)))
    = [ []; [None; Some (JStr "1/2")] ].
Proof.
  eexists.
  destruct (getBoardTool_lists_and_cards
              (constant_client (Some sample_view_reply)) any_email no_message
              "3" None fresh _ _ eq_refl)
    as (details & labelsByCard & Hrun & Hresult & _).
  exists details. split; [reflexivity|]. split; [exact Hresult|].
  vm_compute in Hrun. injection Hrun as <-. by split.
Defined.

(** ** Equal positions *)

(** X30. Where positions are equal the order of the response is kept: the
    task lists and the tasks that [getCard] returns, and the cards that
    [getCardsForList] returns, have the entries of one position in the
    order in which the response has them. *)
Theorem equal_positions_keep_the_order_of_the_response :
  ∀ W (client : Req → W → Res Value * W) is_email getTime zod_message
    (s s' : Sys W),
    (∀ cardId d,
       getCard client is_email getTime zod_message cardId s = (Ok d, s') →
       ∃ response inc,
         through_client client (getCard_request cardId) s
         = (Ok response, s') ∧
         CardIncludedSchema is_email (or_empty_object (included_of response))
         = Some inc ∧
         ∀ q,
           filter (at_position TaskList.position q) (cd_taskLists d)
           = filter (at_position TaskList.position q)
               (default [] (ci_taskLists inc)) ∧
           filter (at_position Task.position q) (cd_tasks d)
           = filter (at_position Task.position q)
               (default [] (ci_tasks inc))) ∧
    (∀ boardId listId cards,
       getCardsForList client is_email zod_message boardId listId s
       = (Ok cards, s') →
       ∃ d, getBoard client is_email zod_message boardId s = (Ok d, s') ∧
            ∀ q, filter (at_position Card.position q) cards
                 = filter (at_position Card.position q)
                     (filter (λ card, Card.listId card = listId)
                        (bd_cards d))).
Proof.
  intros W client is_email getTime zod_message s s'. split.
  - intros cardId d Hrun.
    destruct (getCard_Ok _ _ _ _ _ _ _ _ Hrun)
      as (response & inc & Hc & _ & Hi & -> & -> & _).
    exists response, inc. split; [done|]. split; [done|].
    intros q. split; apply sort_at_position.
  - intros boardId listId cards. unfold getCardsForList, bind.
    destruct (getBoard _ _ _ boardId s) as [[d|e] s1]; [|done].
    intros [= <- <-]. exists d. split; [done|].
    intros q. apply sort_at_position.
Qed.

Lemma equal_positions_witness :
  ∃ cards d,
    getCardsForList (constant_client (Some sample_board_reply)) any_email
      no_message "3" "12" fresh
    = (Ok cards, mkSys tt [getBoard_request "3"]) ∧
    Card.id <$> cards = ["41"; "42"] ∧
    filter (at_position Card.position 65536) cards
    = filter (at_position Card.position 65536)
        (filter (λ card, Card.listId card = "12") (bd_cards d)) ∧
    Card.id <$> bd_cards d = ["41"; "42"].
Proof.
  eexists.
  destruct (proj2 (equal_positions_keep_the_order_of_the_response unit
                     (constant_client (Some sample_board_reply)) any_email
                     no_clock no_message fresh
                     (mkSys tt [getBoard_request "3"]))
              "3" "12" _ eq_refl) as (d & Hd & Hq).
  exists d. split; [reflexivity|]. split; [reflexivity|].
  split; [apply Hq|]. vm_compute in Hd. by injection Hd as <-.
Defined.
